(** * web-doc-fetcher: a shallow embedding of [web_processor.process_document]

    The program is one Python function, [process_document], that
    - fetches a start page with a time-bounded retry loop,
    - collects the anchors of a link-source element, resolves them against the
      start URL, strips fragments, keeps the ones under the parent directory
      of the start URL and removes duplicates (first occurrence wins),
    - fetches every kept link with the same retry loop, picks a main-content
      element, converts it to Markdown and writes it under a directory tree
      that mirrors the URL paths, never reusing an existing file name.

    Modelling conventions.
    - A Python [str] is a Rocq [string]; one [ascii] is one code point, so the
      model of the run covers text whose code points are below 256
      (Latin-1).  The character classes and case mapping of [Str] are
      Python's on that range.  A decoded page is a list of code points of
      any size, and the sanitization of file names is also given on such
      lists, with Python's case mapping and character classes on all of
      Unicode ([Unicode]).
    - [urllib.parse], [posixpath] ([os.path] on POSIX) and the UTF-8 decoder
      are transcribed from CPython 3.11.
    - Exceptions that the program does not catch are values of [result].
    - The clock, the files and what the run does to the outside are explicit
      state ([World]).  Time is a rational number of seconds, and only
      requests and sleeps take time.  The outcomes of the HTTP requests and
      the draws of [random.uniform] are given by a list, consumed in order;
      a run that needs more outcomes than the list holds is stuck ([None]).
      An outcome is a response, a [RequestException], or an exception of
      another class, which the program does not catch.
    - The HTML parser, the removal of elements and the Markdown converter
      are parameters, and so is the answer of the operating system when a
      file is opened for writing.  Creating a directory always succeeds,
      and a directory is not a path that [os.path.exists] finds: the model
      covers the runs in which no output file has the name of a
      directory. *)

From Stdlib Require Import String Ascii List ZArith NArith QArith Lia Lqa Bool.
From Stdlib Require Import DecimalString DecimalNat.
From stdpp Require Import base decidable option list gmap strings.

Import ListNotations.
Local Open Scope string_scope.
Local Open Scope list_scope.

(** ** Exceptions as values *)

(** [UnicodeError] is what a codec raises when it refuses its input whatever
    the error handler; [OtherException] stands for an exception of the HTTP
    client that is not a [RequestException] *)
Inductive exn : Type :=
| ValueError
| LookupError
| UnicodeError
| OtherException.

Inductive result (A : Type) : Type :=
| Ok (a : A)
| Raise (e : exn).
Arguments Ok {A} a.
Arguments Raise {A} e.

Definition rbind {A B : Type} (r : result A) (k : A -> result B) : result B :=
  match r with
  | Ok a => k a
  | Raise e => Raise e
  end.

Notation "'do' x <- r ; k" := (rbind r (fun x => k))
  (at level 10, x name, r at level 100, k at level 200).

(** ** Python [str] operations used by the program and by the library code *)

Module Str.

Definition code (c : ascii) : N := N_of_ascii c.

Definition in_range (lo hi : N) (c : ascii) : bool :=
  ((lo <=? code c) && (code c <=? hi))%N.

Definition is_code (n : N) (c : ascii) : bool := (code c =? n)%N.

(** [c.isascii()] *)
Definition isascii (c : ascii) : bool := (code c <? 128)%N.

(** [c.isalpha()] for code points below 256: the ASCII letters, the ordinal
    indicators U+00AA and U+00BA, the micro sign U+00B5 and the Latin-1
    letters U+00C0..U+00FF without the signs U+00D7 and U+00F7. *)
Definition isalpha (c : ascii) : bool :=
  in_range 65 90 c || in_range 97 122 c
  || is_code 170 c || is_code 181 c || is_code 186 c
  || in_range 192 214 c || in_range 216 246 c || in_range 248 255 c.

(** [c.isdecimal()] *)
Definition isdecimal (c : ascii) : bool := in_range 48 57 c.

(** [c.isdigit()]: the decimals and the superscripts U+00B2, U+00B3, U+00B9. *)
Definition isdigit (c : ascii) : bool :=
  isdecimal c || is_code 178 c || is_code 179 c || is_code 185 c.

(** [c.isnumeric()]: the digits and the vulgar fractions U+00BC..U+00BE. *)
Definition isnumeric (c : ascii) : bool :=
  isdigit c || in_range 188 190 c.

(** [c.isalnum()] is the disjunction of the four tests above. *)
Definition isalnum (c : ascii) : bool :=
  isalpha c || isdecimal c || isdigit c || isnumeric c.

(** the lower-case mapping of one code point below 256 *)
Definition lower_char (c : ascii) : ascii :=
  if in_range 65 90 c || in_range 192 214 c || in_range 216 222 c
  then ascii_of_N (code c + 32)
  else c.

Fixpoint map (f : ascii -> ascii) (s : string) : string :=
  match s with
  | "" => ""
  | String c s' => String (f c) (map f s')
  end.

(** [s.lower()] *)
Definition lower (s : string) : string := map lower_char s.

(** [s.replace(a, b)] for one-character [a] and [b] *)
Definition replace_char (a b : ascii) (s : string) : string :=
  map (fun c => if Ascii.eqb c a then b else c) s.

Fixpoint filter (keep : ascii -> bool) (s : string) : string :=
  match s with
  | "" => ""
  | String c s' => if keep c then String c (filter keep s') else filter keep s'
  end.

(** [s.replace(a, "")] for one-character [a] *)
Definition remove_char (a : ascii) (s : string) : string :=
  filter (fun c => negb (Ascii.eqb c a)) s.

(** [c in s] for a character [c] *)
Fixpoint contains (c : ascii) (s : string) : bool :=
  match s with
  | "" => false
  | String a s' => Ascii.eqb a c || contains c s'
  end.

(** [s in l] for a list of strings [l] *)
Definition mem (s : string) (l : list string) : bool :=
  existsb (String.eqb s) l.

Fixpoint forallb (p : ascii -> bool) (s : string) : bool :=
  match s with
  | "" => true
  | String c s' => p c && forallb p s'
  end.

(** [s[:n]] *)
Fixpoint take (n : nat) (s : string) : string :=
  match n, s with
  | S n', String c s' => String c (take n' s')
  | _, _ => ""
  end.

(** [s[n:]] *)
Fixpoint drop (n : nat) (s : string) : string :=
  match n, s with
  | S n', String _ s' => drop n' s'
  | _, _ => s
  end.

(** [s.startswith(p)] *)
Fixpoint startswith (s p : string) : bool :=
  match p, s with
  | "", _ => true
  | String a p', String b s' => Ascii.eqb a b && startswith s' p'
  | String _ _, "" => false
  end.

(** [s.endswith(p)] *)
Definition endswith (s p : string) : bool :=
  (String.length p <=? String.length s)%nat
  && String.eqb (drop (String.length s - String.length p) s) p.

(** the index of the first [c] in [s], counted from [i] *)
Fixpoint find_from (c : ascii) (s : string) (i : Z) : Z :=
  match s with
  | "" => (-1)%Z
  | String a s' => if Ascii.eqb a c then i else find_from c s' (i + 1)%Z
  end.

(** [s.find(c, start)] for [0 <= start]; [-1] when there is none *)
Definition find (c : ascii) (s : string) (start : nat) : Z :=
  find_from c (drop start s) (Z.of_nat (Nat.min start (String.length s))).

(** the index of the last [c] in [s], where [i] is the index of the head of
    [s] and [last] the best index seen so far *)
Fixpoint rfind_from (c : ascii) (s : string) (i last : Z) : Z :=
  match s with
  | "" => last
  | String a s' =>
      rfind_from c s' (i + 1)%Z (if Ascii.eqb a c then i else last)
  end.

(** [s.rfind(c)]; [-1] when there is none *)
Definition rfind (c : ascii) (s : string) : Z := rfind_from c s 0%Z (-1)%Z.

(** [s.split(c)]: never the empty list *)
Fixpoint split (c : ascii) (s : string) : list string :=
  match s with
  | "" => [""]
  | String a s' =>
      if Ascii.eqb a c then "" :: split c s'
      else match split c s' with
           | w :: ws => String a w :: ws
           | [] => [String a ""]
           end
  end.

(** [s.split(c, 1)] when [c in s]: the text before and after the first [c] *)
Fixpoint split1 (c : ascii) (s : string) : option (string * string) :=
  match s with
  | "" => None
  | String a s' =>
      if Ascii.eqb a c then Some ("", s')
      else match split1 c s' with
           | Some (l, r) => Some (String a l, r)
           | None => None
           end
  end.

(** [sep.join(l)] *)
Definition join (sep : string) (l : list string) : string := String.concat sep l.

(** [s.lstrip(chars)] *)
Fixpoint lstrip (chars : ascii -> bool) (s : string) : string :=
  match s with
  | "" => ""
  | String c s' => if chars c then lstrip chars s' else s
  end.

(** the reversal of a string, used to strip on the right *)
Fixpoint rev_onto (s acc : string) : string :=
  match s with
  | "" => acc
  | String c s' => rev_onto s' (String c acc)
  end.
Definition rev (s : string) : string := rev_onto s "".

(** [s.rstrip(chars)] *)
Definition rstrip (chars : ascii -> bool) (s : string) : string :=
  rev (lstrip chars (rev s)).

(** [s.strip(chars)] *)
Definition strip (chars : ascii -> bool) (s : string) : string :=
  rstrip chars (lstrip chars s).

(** [sep * n] *)
Fixpoint repeat (c : ascii) (n : nat) : string :=
  match n with
  | O => ""
  | S n' => String c (repeat c n')
  end.

(** [str(n)] for a natural number *)
Definition of_nat (n : nat) : string := NilEmpty.string_of_uint (Nat.to_uint n).

(** truth value of a string: [not s] is [s == ""] *)
Definition is_empty (s : string) : bool :=
  match s with "" => true | _ => false end.

End Str.

(** ** Python [str] on all of Unicode

    The case mapping and the character classes of CPython 3.11 (Unicode
    14.0.0) on every code point, as [str.lower] and [str.isalnum] use them.
    A string is the list of its code points. *)
Module Unicode.

Definition ustr : Type := list N.

(** the code points of a string of the Latin-1 range *)
Definition of_string (s : string) : ustr :=
  List.map N_of_ascii (list_ascii_of_string s).

Definition in_ranges (ranges : list (N * N)) (c : N) : bool :=
  existsb (fun r => (fst r <=? c) && (c <=? snd r))%N ranges.

(** the code points [c] with [c.isalnum()], that is with one of
    [isalpha], [isdecimal], [isdigit], [isnumeric], as ranges *)
Definition alnum_ranges : list (N * N) :=
  [(48, 57); (65, 90); (97, 122); (170, 170); (178, 179); (181, 181);
   (185, 186); (188, 190); (192, 214); (216, 246); (248, 705); (710, 721);
   (736, 740); (748, 748); (750, 750); (880, 884); (886, 887); (890, 893);
   (895, 895); (902, 902); (904, 906); (908, 908); (910, 929); (931, 1013);
   (1015, 1153); (1162, 1327); (1329, 1366); (1369, 1369); (1376, 1416);
   (1488, 1514); (1519, 1522); (1568, 1610); (1632, 1641); (1646, 1647);
   (1649, 1747); (1749, 1749); (1765, 1766); (1774, 1788); (1791, 1791);
   (1808, 1808); (1810, 1839); (1869, 1957); (1969, 1969); (1984, 2026);
   (2036, 2037); (2042, 2042); (2048, 2069); (2074, 2074); (2084, 2084);
   (2088, 2088); (2112, 2136); (2144, 2154); (2160, 2183); (2185, 2190);
   (2208, 2249); (2308, 2361); (2365, 2365); (2384, 2384); (2392, 2401);
   (2406, 2415); (2417, 2432); (2437, 2444); (2447, 2448); (2451, 2472);
   (2474, 2480); (2482, 2482); (2486, 2489); (2493, 2493); (2510, 2510);
   (2524, 2525); (2527, 2529); (2534, 2545); (2548, 2553); (2556, 2556);
   (2565, 2570); (2575, 2576); (2579, 2600); (2602, 2608); (2610, 2611);
   (2613, 2614); (2616, 2617); (2649, 2652); (2654, 2654); (2662, 2671);
   (2674, 2676); (2693, 2701); (2703, 2705); (2707, 2728); (2730, 2736);
   (2738, 2739); (2741, 2745); (2749, 2749); (2768, 2768); (2784, 2785);
   (2790, 2799); (2809, 2809); (2821, 2828); (2831, 2832); (2835, 2856);
   (2858, 2864); (2866, 2867); (2869, 2873); (2877, 2877); (2908, 2909);
   (2911, 2913); (2918, 2927); (2929, 2935); (2947, 2947); (2949, 2954);
   (2958, 2960); (2962, 2965); (2969, 2970); (2972, 2972); (2974, 2975);
   (2979, 2980); (2984, 2986); (2990, 3001); (3024, 3024); (3046, 3058);
   (3077, 3084); (3086, 3088); (3090, 3112); (3114, 3129); (3133, 3133);
   (3160, 3162); (3165, 3165); (3168, 3169); (3174, 3183); (3192, 3198);
   (3200, 3200); (3205, 3212); (3214, 3216); (3218, 3240); (3242, 3251);
   (3253, 3257); (3261, 3261); (3293, 3294); (3296, 3297); (3302, 3311);
   (3313, 3314); (3332, 3340); (3342, 3344); (3346, 3386); (3389, 3389);
   (3406, 3406); (3412, 3414); (3416, 3425); (3430, 3448); (3450, 3455);
   (3461, 3478); (3482, 3505); (3507, 3515); (3517, 3517); (3520, 3526);
   (3558, 3567); (3585, 3632); (3634, 3635); (3648, 3654); (3664, 3673);
   (3713, 3714); (3716, 3716); (3718, 3722); (3724, 3747); (3749, 3749);
   (3751, 3760); (3762, 3763); (3773, 3773); (3776, 3780); (3782, 3782);
   (3792, 3801); (3804, 3807); (3840, 3840); (3872, 3891); (3904, 3911);
   (3913, 3948); (3976, 3980); (4096, 4138); (4159, 4169); (4176, 4181);
   (4186, 4189); (4193, 4193); (4197, 4198); (4206, 4208); (4213, 4225);
   (4238, 4238); (4240, 4249); (4256, 4293); (4295, 4295); (4301, 4301);
   (4304, 4346); (4348, 4680); (4682, 4685); (4688, 4694); (4696, 4696);
   (4698, 4701); (4704, 4744); (4746, 4749); (4752, 4784); (4786, 4789);
   (4792, 4798); (4800, 4800); (4802, 4805); (4808, 4822); (4824, 4880);
   (4882, 4885); (4888, 4954); (4969, 4988); (4992, 5007); (5024, 5109);
   (5112, 5117); (5121, 5740); (5743, 5759); (5761, 5786); (5792, 5866);
   (5870, 5880); (5888, 5905); (5919, 5937); (5952, 5969); (5984, 5996);
   (5998, 6000); (6016, 6067); (6103, 6103); (6108, 6108); (6112, 6121);
   (6128, 6137); (6160, 6169); (6176, 6264); (6272, 6276); (6279, 6312);
   (6314, 6314); (6320, 6389); (6400, 6430); (6470, 6509); (6512, 6516);
   (6528, 6571); (6576, 6601); (6608, 6618); (6656, 6678); (6688, 6740);
   (6784, 6793); (6800, 6809); (6823, 6823); (6917, 6963); (6981, 6988);
   (6992, 7001); (7043, 7072); (7086, 7141); (7168, 7203); (7232, 7241);
   (7245, 7293); (7296, 7304); (7312, 7354); (7357, 7359); (7401, 7404);
   (7406, 7411); (7413, 7414); (7418, 7418); (7424, 7615); (7680, 7957);
   (7960, 7965); (7968, 8005); (8008, 8013); (8016, 8023); (8025, 8025);
   (8027, 8027); (8029, 8029); (8031, 8061); (8064, 8116); (8118, 8124);
   (8126, 8126); (8130, 8132); (8134, 8140); (8144, 8147); (8150, 8155);
   (8160, 8172); (8178, 8180); (8182, 8188); (8304, 8305); (8308, 8313);
   (8319, 8329); (8336, 8348); (8450, 8450); (8455, 8455); (8458, 8467);
   (8469, 8469); (8473, 8477); (8484, 8484); (8486, 8486); (8488, 8488);
   (8490, 8493); (8495, 8505); (8508, 8511); (8517, 8521); (8526, 8526);
   (8528, 8585); (9312, 9371); (9450, 9471); (10102, 10131); (11264, 11492);
   (11499, 11502); (11506, 11507); (11517, 11517); (11520, 11557);
   (11559, 11559); (11565, 11565); (11568, 11623); (11631, 11631);
   (11648, 11670); (11680, 11686); (11688, 11694); (11696, 11702);
   (11704, 11710); (11712, 11718); (11720, 11726); (11728, 11734);
   (11736, 11742); (11823, 11823); (12293, 12295); (12321, 12329);
   (12337, 12341); (12344, 12348); (12353, 12438); (12445, 12447);
   (12449, 12538); (12540, 12543); (12549, 12591); (12593, 12686);
   (12690, 12693); (12704, 12735); (12784, 12799); (12832, 12841);
   (12872, 12879); (12881, 12895); (12928, 12937); (12977, 12991);
   (13312, 19903); (19968, 42124); (42192, 42237); (42240, 42508);
   (42512, 42539); (42560, 42606); (42623, 42653); (42656, 42735);
   (42775, 42783); (42786, 42888); (42891, 42954); (42960, 42961);
   (42963, 42963); (42965, 42969); (42994, 43009); (43011, 43013);
   (43015, 43018); (43020, 43042); (43056, 43061); (43072, 43123);
   (43138, 43187); (43216, 43225); (43250, 43255); (43259, 43259);
   (43261, 43262); (43264, 43301); (43312, 43334); (43360, 43388);
   (43396, 43442); (43471, 43481); (43488, 43492); (43494, 43518);
   (43520, 43560); (43584, 43586); (43588, 43595); (43600, 43609);
   (43616, 43638); (43642, 43642); (43646, 43695); (43697, 43697);
   (43701, 43702); (43705, 43709); (43712, 43712); (43714, 43714);
   (43739, 43741); (43744, 43754); (43762, 43764); (43777, 43782);
   (43785, 43790); (43793, 43798); (43808, 43814); (43816, 43822);
   (43824, 43866); (43868, 43881); (43888, 44002); (44016, 44025);
   (44032, 55203); (55216, 55238); (55243, 55291); (63744, 64109);
   (64112, 64217); (64256, 64262); (64275, 64279); (64285, 64285);
   (64287, 64296); (64298, 64310); (64312, 64316); (64318, 64318);
   (64320, 64321); (64323, 64324); (64326, 64433); (64467, 64829);
   (64848, 64911); (64914, 64967); (65008, 65019); (65136, 65140);
   (65142, 65276); (65296, 65305); (65313, 65338); (65345, 65370);
   (65382, 65470); (65474, 65479); (65482, 65487); (65490, 65495);
   (65498, 65500); (65536, 65547); (65549, 65574); (65576, 65594);
   (65596, 65597); (65599, 65613); (65616, 65629); (65664, 65786);
   (65799, 65843); (65856, 65912); (65930, 65931); (66176, 66204);
   (66208, 66256); (66273, 66299); (66304, 66339); (66349, 66378);
   (66384, 66421); (66432, 66461); (66464, 66499); (66504, 66511);
   (66513, 66517); (66560, 66717); (66720, 66729); (66736, 66771);
   (66776, 66811); (66816, 66855); (66864, 66915); (66928, 66938);
   (66940, 66954); (66956, 66962); (66964, 66965); (66967, 66977);
   (66979, 66993); (66995, 67001); (67003, 67004); (67072, 67382);
   (67392, 67413); (67424, 67431); (67456, 67461); (67463, 67504);
   (67506, 67514); (67584, 67589); (67592, 67592); (67594, 67637);
   (67639, 67640); (67644, 67644); (67647, 67669); (67672, 67702);
   (67705, 67742); (67751, 67759); (67808, 67826); (67828, 67829);
   (67835, 67867); (67872, 67897); (67968, 68023); (68028, 68047);
   (68050, 68096); (68112, 68115); (68117, 68119); (68121, 68149);
   (68160, 68168); (68192, 68222); (68224, 68255); (68288, 68295);
   (68297, 68324); (68331, 68335); (68352, 68405); (68416, 68437);
   (68440, 68466); (68472, 68497); (68521, 68527); (68608, 68680);
   (68736, 68786); (68800, 68850); (68858, 68899); (68912, 68921);
   (69216, 69246); (69248, 69289); (69296, 69297); (69376, 69415);
   (69424, 69445); (69457, 69460); (69488, 69505); (69552, 69579);
   (69600, 69622); (69635, 69687); (69714, 69743); (69745, 69746);
   (69749, 69749); (69763, 69807); (69840, 69864); (69872, 69881);
   (69891, 69926); (69942, 69951); (69956, 69956); (69959, 69959);
   (69968, 70002); (70006, 70006); (70019, 70066); (70081, 70084);
   (70096, 70106); (70108, 70108); (70113, 70132); (70144, 70161);
   (70163, 70187); (70272, 70278); (70280, 70280); (70282, 70285);
   (70287, 70301); (70303, 70312); (70320, 70366); (70384, 70393);
   (70405, 70412); (70415, 70416); (70419, 70440); (70442, 70448);
   (70450, 70451); (70453, 70457); (70461, 70461); (70480, 70480);
   (70493, 70497); (70656, 70708); (70727, 70730); (70736, 70745);
   (70751, 70753); (70784, 70831); (70852, 70853); (70855, 70855);
   (70864, 70873); (71040, 71086); (71128, 71131); (71168, 71215);
   (71236, 71236); (71248, 71257); (71296, 71338); (71352, 71352);
   (71360, 71369); (71424, 71450); (71472, 71483); (71488, 71494);
   (71680, 71723); (71840, 71922); (71935, 71942); (71945, 71945);
   (71948, 71955); (71957, 71958); (71960, 71983); (71999, 71999);
   (72001, 72001); (72016, 72025); (72096, 72103); (72106, 72144);
   (72161, 72161); (72163, 72163); (72192, 72192); (72203, 72242);
   (72250, 72250); (72272, 72272); (72284, 72329); (72349, 72349);
   (72368, 72440); (72704, 72712); (72714, 72750); (72768, 72768);
   (72784, 72812); (72818, 72847); (72960, 72966); (72968, 72969);
   (72971, 73008); (73030, 73030); (73040, 73049); (73056, 73061);
   (73063, 73064); (73066, 73097); (73112, 73112); (73120, 73129);
   (73440, 73458); (73648, 73648); (73664, 73684); (73728, 74649);
   (74752, 74862); (74880, 75075); (77712, 77808); (77824, 78894);
   (82944, 83526); (92160, 92728); (92736, 92766); (92768, 92777);
   (92784, 92862); (92864, 92873); (92880, 92909); (92928, 92975);
   (92992, 92995); (93008, 93017); (93019, 93025); (93027, 93047);
   (93053, 93071); (93760, 93846); (93952, 94026); (94032, 94032);
   (94099, 94111); (94176, 94177); (94179, 94179); (94208, 100343);
   (100352, 101589); (101632, 101640); (110576, 110579); (110581, 110587);
   (110589, 110590); (110592, 110882); (110928, 110930); (110948, 110951);
   (110960, 111355); (113664, 113770); (113776, 113788); (113792, 113800);
   (113808, 113817); (119520, 119539); (119648, 119672); (119808, 119892);
   (119894, 119964); (119966, 119967); (119970, 119970); (119973, 119974);
   (119977, 119980); (119982, 119993); (119995, 119995); (119997, 120003);
   (120005, 120069); (120071, 120074); (120077, 120084); (120086, 120092);
   (120094, 120121); (120123, 120126); (120128, 120132); (120134, 120134);
   (120138, 120144); (120146, 120485); (120488, 120512); (120514, 120538);
   (120540, 120570); (120572, 120596); (120598, 120628); (120630, 120654);
   (120656, 120686); (120688, 120712); (120714, 120744); (120746, 120770);
   (120772, 120779); (120782, 120831); (122624, 122654); (123136, 123180);
   (123191, 123197); (123200, 123209); (123214, 123214); (123536, 123565);
   (123584, 123627); (123632, 123641); (124896, 124902); (124904, 124907);
   (124909, 124910); (124912, 124926); (124928, 125124); (125127, 125135);
   (125184, 125251); (125259, 125259); (125264, 125273); (126065, 126123);
   (126125, 126127); (126129, 126132); (126209, 126253); (126255, 126269);
   (126464, 126467); (126469, 126495); (126497, 126498); (126500, 126500);
   (126503, 126503); (126505, 126514); (126516, 126519); (126521, 126521);
   (126523, 126523); (126530, 126530); (126535, 126535); (126537, 126537);
   (126539, 126539); (126541, 126543); (126545, 126546); (126548, 126548);
   (126551, 126551); (126553, 126553); (126555, 126555); (126557, 126557);
   (126559, 126559); (126561, 126562); (126564, 126564); (126567, 126570);
   (126572, 126578); (126580, 126583); (126585, 126588); (126590, 126590);
   (126592, 126601); (126603, 126619); (126625, 126627); (126629, 126633);
   (126635, 126651); (127232, 127244); (130032, 130041); (131072, 173791);
   (173824, 177976); (177984, 178205); (178208, 183969); (183984, 191456);
   (194560, 195101); (196608, 201546)]%N.

(** [c.isalnum()] *)
Definition isalnum (c : N) : bool := in_ranges alnum_ranges c.

(** the code points that [_PyUnicode_ToLowerFull] changes, apart from
    U+0130: every [step]-th code point from [first] to [last] is mapped to
    the code point at the same distance from [image] *)
Definition lower_runs : list (N * N * N * N) :=
  [(65, 90, 1, 97); (192, 214, 1, 224); (216, 222, 1, 248);
   (256, 302, 2, 257); (306, 310, 2, 307); (313, 327, 2, 314);
   (330, 374, 2, 331); (376, 376, 1, 255); (377, 381, 2, 378);
   (385, 385, 1, 595); (386, 388, 2, 387); (390, 390, 1, 596);
   (391, 391, 1, 392); (393, 394, 1, 598); (395, 395, 1, 396);
   (398, 398, 1, 477); (399, 399, 1, 601); (400, 400, 1, 603);
   (401, 401, 1, 402); (403, 403, 1, 608); (404, 404, 1, 611);
   (406, 406, 1, 617); (407, 407, 1, 616); (408, 408, 1, 409);
   (412, 412, 1, 623); (413, 413, 1, 626); (415, 415, 1, 629);
   (416, 420, 2, 417); (422, 422, 1, 640); (423, 423, 1, 424);
   (425, 425, 1, 643); (428, 428, 1, 429); (430, 430, 1, 648);
   (431, 431, 1, 432); (433, 434, 1, 650); (435, 437, 2, 436);
   (439, 439, 1, 658); (440, 440, 1, 441); (444, 444, 1, 445);
   (452, 452, 1, 454); (453, 453, 1, 454); (455, 455, 1, 457);
   (456, 456, 1, 457); (458, 458, 1, 460); (459, 475, 2, 460);
   (478, 494, 2, 479); (497, 497, 1, 499); (498, 500, 2, 499);
   (502, 502, 1, 405); (503, 503, 1, 447); (504, 542, 2, 505);
   (544, 544, 1, 414); (546, 562, 2, 547); (570, 570, 1, 11365);
   (571, 571, 1, 572); (573, 573, 1, 410); (574, 574, 1, 11366);
   (577, 577, 1, 578); (579, 579, 1, 384); (580, 580, 1, 649);
   (581, 581, 1, 652); (582, 590, 2, 583); (880, 882, 2, 881);
   (886, 886, 1, 887); (895, 895, 1, 1011); (902, 902, 1, 940);
   (904, 906, 1, 941); (908, 908, 1, 972); (910, 911, 1, 973);
   (913, 929, 1, 945); (931, 939, 1, 963); (975, 975, 1, 983);
   (984, 1006, 2, 985); (1012, 1012, 1, 952); (1015, 1015, 1, 1016);
   (1017, 1017, 1, 1010); (1018, 1018, 1, 1019); (1021, 1023, 1, 891);
   (1024, 1039, 1, 1104); (1040, 1071, 1, 1072); (1120, 1152, 2, 1121);
   (1162, 1214, 2, 1163); (1216, 1216, 1, 1231); (1217, 1229, 2, 1218);
   (1232, 1326, 2, 1233); (1329, 1366, 1, 1377); (4256, 4293, 1, 11520);
   (4295, 4295, 1, 11559); (4301, 4301, 1, 11565); (5024, 5103, 1, 43888);
   (5104, 5109, 1, 5112); (7312, 7354, 1, 4304); (7357, 7359, 1, 4349);
   (7680, 7828, 2, 7681); (7838, 7838, 1, 223); (7840, 7934, 2, 7841);
   (7944, 7951, 1, 7936); (7960, 7965, 1, 7952); (7976, 7983, 1, 7968);
   (7992, 7999, 1, 7984); (8008, 8013, 1, 8000); (8025, 8031, 2, 8017);
   (8040, 8047, 1, 8032); (8072, 8079, 1, 8064); (8088, 8095, 1, 8080);
   (8104, 8111, 1, 8096); (8120, 8121, 1, 8112); (8122, 8123, 1, 8048);
   (8124, 8124, 1, 8115); (8136, 8139, 1, 8050); (8140, 8140, 1, 8131);
   (8152, 8153, 1, 8144); (8154, 8155, 1, 8054); (8168, 8169, 1, 8160);
   (8170, 8171, 1, 8058); (8172, 8172, 1, 8165); (8184, 8185, 1, 8056);
   (8186, 8187, 1, 8060); (8188, 8188, 1, 8179); (8486, 8486, 1, 969);
   (8490, 8490, 1, 107); (8491, 8491, 1, 229); (8498, 8498, 1, 8526);
   (8544, 8559, 1, 8560); (8579, 8579, 1, 8580); (9398, 9423, 1, 9424);
   (11264, 11311, 1, 11312); (11360, 11360, 1, 11361);
   (11362, 11362, 1, 619); (11363, 11363, 1, 7549); (11364, 11364, 1, 637);
   (11367, 11371, 2, 11368); (11373, 11373, 1, 593); (11374, 11374, 1, 625);
   (11375, 11375, 1, 592); (11376, 11376, 1, 594); (11378, 11378, 1, 11379);
   (11381, 11381, 1, 11382); (11390, 11391, 1, 575);
   (11392, 11490, 2, 11393); (11499, 11501, 2, 11500);
   (11506, 11506, 1, 11507); (42560, 42604, 2, 42561);
   (42624, 42650, 2, 42625); (42786, 42798, 2, 42787);
   (42802, 42862, 2, 42803); (42873, 42875, 2, 42874);
   (42877, 42877, 1, 7545); (42878, 42886, 2, 42879);
   (42891, 42891, 1, 42892); (42893, 42893, 1, 613);
   (42896, 42898, 2, 42897); (42902, 42920, 2, 42903);
   (42922, 42922, 1, 614); (42923, 42923, 1, 604); (42924, 42924, 1, 609);
   (42925, 42925, 1, 620); (42926, 42926, 1, 618); (42928, 42928, 1, 670);
   (42929, 42929, 1, 647); (42930, 42930, 1, 669); (42931, 42931, 1, 43859);
   (42932, 42946, 2, 42933); (42948, 42948, 1, 42900);
   (42949, 42949, 1, 642); (42950, 42950, 1, 7566);
   (42951, 42953, 2, 42952); (42960, 42960, 1, 42961);
   (42966, 42968, 2, 42967); (42997, 42997, 1, 42998);
   (65313, 65338, 1, 65345); (66560, 66599, 1, 66600);
   (66736, 66771, 1, 66776); (66928, 66938, 1, 66967);
   (66940, 66954, 1, 66979); (66956, 66962, 1, 66995);
   (66964, 66965, 1, 67003); (68736, 68786, 1, 68800);
   (71840, 71871, 1, 71872); (93760, 93791, 1, 93792);
   (125184, 125217, 1, 125218)]%N.

Definition in_run (c : N) (r : N * N * N * N) : bool :=
  let '(first, last, step, _) := r in
  ((first <=? c) && (c <=? last) && ((c - first) mod step =? 0))%N.

(** [_PyUnicode_ToLowerFull]: U+0130 becomes [i] and a combining dot *)
Definition to_lower_full (c : N) : list N :=
  if (c =? 304)%N then [105; 775]%N
  else
    match List.find (in_run c) lower_runs with
    | Some (first, _, _, image) => [image + (c - first)]%N
    | None => [c]
    end.

(** [_PyUnicode_IsCased] *)
Definition cased_ranges : list (N * N) :=
  [(65, 90); (97, 122); (170, 170); (181, 181); (186, 186); (192, 214);
   (216, 246); (248, 442); (444, 447); (452, 659); (661, 696); (704, 705);
   (736, 740); (837, 837); (880, 883); (886, 887); (890, 893); (895, 895);
   (902, 902); (904, 906); (908, 908); (910, 929); (931, 1013);
   (1015, 1153); (1162, 1327); (1329, 1366); (1376, 1416); (4256, 4293);
   (4295, 4295); (4301, 4301); (4304, 4346); (4349, 4351); (5024, 5109);
   (5112, 5117); (7296, 7304); (7312, 7354); (7357, 7359); (7424, 7615);
   (7680, 7957); (7960, 7965); (7968, 8005); (8008, 8013); (8016, 8023);
   (8025, 8025); (8027, 8027); (8029, 8029); (8031, 8061); (8064, 8116);
   (8118, 8124); (8126, 8126); (8130, 8132); (8134, 8140); (8144, 8147);
   (8150, 8155); (8160, 8172); (8178, 8180); (8182, 8188); (8305, 8305);
   (8319, 8319); (8336, 8348); (8450, 8450); (8455, 8455); (8458, 8467);
   (8469, 8469); (8473, 8477); (8484, 8484); (8486, 8486); (8488, 8488);
   (8490, 8493); (8495, 8500); (8505, 8505); (8508, 8511); (8517, 8521);
   (8526, 8526); (8544, 8575); (8579, 8580); (9398, 9449); (11264, 11492);
   (11499, 11502); (11506, 11507); (11520, 11557); (11559, 11559);
   (11565, 11565); (42560, 42605); (42624, 42653); (42786, 42887);
   (42891, 42894); (42896, 42954); (42960, 42961); (42963, 42963);
   (42965, 42969); (42997, 42998); (43000, 43002); (43824, 43866);
   (43868, 43880); (43888, 43967); (64256, 64262); (64275, 64279);
   (65313, 65338); (65345, 65370); (66560, 66639); (66736, 66771);
   (66776, 66811); (66928, 66938); (66940, 66954); (66956, 66962);
   (66964, 66965); (66967, 66977); (66979, 66993); (66995, 67001);
   (67003, 67004); (67456, 67456); (67459, 67461); (67463, 67504);
   (67506, 67514); (68736, 68786); (68800, 68850); (71840, 71903);
   (93760, 93823); (119808, 119892); (119894, 119964); (119966, 119967);
   (119970, 119970); (119973, 119974); (119977, 119980); (119982, 119993);
   (119995, 119995); (119997, 120003); (120005, 120069); (120071, 120074);
   (120077, 120084); (120086, 120092); (120094, 120121); (120123, 120126);
   (120128, 120132); (120134, 120134); (120138, 120144); (120146, 120485);
   (120488, 120512); (120514, 120538); (120540, 120570); (120572, 120596);
   (120598, 120628); (120630, 120654); (120656, 120686); (120688, 120712);
   (120714, 120744); (120746, 120770); (120772, 120779); (122624, 122633);
   (122635, 122654); (125184, 125251); (127280, 127305); (127312, 127337);
   (127344, 127369)]%N.

Definition is_cased (c : N) : bool := in_ranges cased_ranges c.

(** [_PyUnicode_IsCaseIgnorable] *)
Definition case_ignorable_ranges : list (N * N) :=
  [(39, 39); (46, 46); (58, 58); (94, 94); (96, 96); (168, 168); (173, 173);
   (175, 175); (180, 180); (183, 184); (688, 879); (884, 885); (890, 890);
   (900, 901); (903, 903); (1155, 1161); (1369, 1369); (1375, 1375);
   (1425, 1469); (1471, 1471); (1473, 1474); (1476, 1477); (1479, 1479);
   (1524, 1524); (1536, 1541); (1552, 1562); (1564, 1564); (1600, 1600);
   (1611, 1631); (1648, 1648); (1750, 1757); (1759, 1768); (1770, 1773);
   (1807, 1807); (1809, 1809); (1840, 1866); (1958, 1968); (2027, 2037);
   (2042, 2042); (2045, 2045); (2070, 2093); (2137, 2139); (2184, 2184);
   (2192, 2193); (2200, 2207); (2249, 2306); (2362, 2362); (2364, 2364);
   (2369, 2376); (2381, 2381); (2385, 2391); (2402, 2403); (2417, 2417);
   (2433, 2433); (2492, 2492); (2497, 2500); (2509, 2509); (2530, 2531);
   (2558, 2558); (2561, 2562); (2620, 2620); (2625, 2626); (2631, 2632);
   (2635, 2637); (2641, 2641); (2672, 2673); (2677, 2677); (2689, 2690);
   (2748, 2748); (2753, 2757); (2759, 2760); (2765, 2765); (2786, 2787);
   (2810, 2815); (2817, 2817); (2876, 2876); (2879, 2879); (2881, 2884);
   (2893, 2893); (2901, 2902); (2914, 2915); (2946, 2946); (3008, 3008);
   (3021, 3021); (3072, 3072); (3076, 3076); (3132, 3132); (3134, 3136);
   (3142, 3144); (3146, 3149); (3157, 3158); (3170, 3171); (3201, 3201);
   (3260, 3260); (3263, 3263); (3270, 3270); (3276, 3277); (3298, 3299);
   (3328, 3329); (3387, 3388); (3393, 3396); (3405, 3405); (3426, 3427);
   (3457, 3457); (3530, 3530); (3538, 3540); (3542, 3542); (3633, 3633);
   (3636, 3642); (3654, 3662); (3761, 3761); (3764, 3772); (3782, 3782);
   (3784, 3789); (3864, 3865); (3893, 3893); (3895, 3895); (3897, 3897);
   (3953, 3966); (3968, 3972); (3974, 3975); (3981, 3991); (3993, 4028);
   (4038, 4038); (4141, 4144); (4146, 4151); (4153, 4154); (4157, 4158);
   (4184, 4185); (4190, 4192); (4209, 4212); (4226, 4226); (4229, 4230);
   (4237, 4237); (4253, 4253); (4348, 4348); (4957, 4959); (5906, 5908);
   (5938, 5939); (5970, 5971); (6002, 6003); (6068, 6069); (6071, 6077);
   (6086, 6086); (6089, 6099); (6103, 6103); (6109, 6109); (6155, 6159);
   (6211, 6211); (6277, 6278); (6313, 6313); (6432, 6434); (6439, 6440);
   (6450, 6450); (6457, 6459); (6679, 6680); (6683, 6683); (6742, 6742);
   (6744, 6750); (6752, 6752); (6754, 6754); (6757, 6764); (6771, 6780);
   (6783, 6783); (6823, 6823); (6832, 6862); (6912, 6915); (6964, 6964);
   (6966, 6970); (6972, 6972); (6978, 6978); (7019, 7027); (7040, 7041);
   (7074, 7077); (7080, 7081); (7083, 7085); (7142, 7142); (7144, 7145);
   (7149, 7149); (7151, 7153); (7212, 7219); (7222, 7223); (7288, 7293);
   (7376, 7378); (7380, 7392); (7394, 7400); (7405, 7405); (7412, 7412);
   (7416, 7417); (7468, 7530); (7544, 7544); (7579, 7679); (8125, 8125);
   (8127, 8129); (8141, 8143); (8157, 8159); (8173, 8175); (8189, 8190);
   (8203, 8207); (8216, 8217); (8228, 8228); (8231, 8231); (8234, 8238);
   (8288, 8292); (8294, 8303); (8305, 8305); (8319, 8319); (8336, 8348);
   (8400, 8432); (11388, 11389); (11503, 11505); (11631, 11631);
   (11647, 11647); (11744, 11775); (11823, 11823); (12293, 12293);
   (12330, 12333); (12337, 12341); (12347, 12347); (12441, 12446);
   (12540, 12542); (40981, 40981); (42232, 42237); (42508, 42508);
   (42607, 42610); (42612, 42621); (42623, 42623); (42652, 42655);
   (42736, 42737); (42752, 42785); (42864, 42864); (42888, 42890);
   (42994, 42996); (43000, 43001); (43010, 43010); (43014, 43014);
   (43019, 43019); (43045, 43046); (43052, 43052); (43204, 43205);
   (43232, 43249); (43263, 43263); (43302, 43309); (43335, 43345);
   (43392, 43394); (43443, 43443); (43446, 43449); (43452, 43453);
   (43471, 43471); (43493, 43494); (43561, 43566); (43569, 43570);
   (43573, 43574); (43587, 43587); (43596, 43596); (43632, 43632);
   (43644, 43644); (43696, 43696); (43698, 43700); (43703, 43704);
   (43710, 43711); (43713, 43713); (43741, 43741); (43756, 43757);
   (43763, 43764); (43766, 43766); (43867, 43871); (43881, 43883);
   (44005, 44005); (44008, 44008); (44013, 44013); (64286, 64286);
   (64434, 64450); (65024, 65039); (65043, 65043); (65056, 65071);
   (65106, 65106); (65109, 65109); (65279, 65279); (65287, 65287);
   (65294, 65294); (65306, 65306); (65342, 65342); (65344, 65344);
   (65392, 65392); (65438, 65439); (65507, 65507); (65529, 65531);
   (66045, 66045); (66272, 66272); (66422, 66426); (67456, 67461);
   (67463, 67504); (67506, 67514); (68097, 68099); (68101, 68102);
   (68108, 68111); (68152, 68154); (68159, 68159); (68325, 68326);
   (68900, 68903); (69291, 69292); (69446, 69456); (69506, 69509);
   (69633, 69633); (69688, 69702); (69744, 69744); (69747, 69748);
   (69759, 69761); (69811, 69814); (69817, 69818); (69821, 69821);
   (69826, 69826); (69837, 69837); (69888, 69890); (69927, 69931);
   (69933, 69940); (70003, 70003); (70016, 70017); (70070, 70078);
   (70089, 70092); (70095, 70095); (70191, 70193); (70196, 70196);
   (70198, 70199); (70206, 70206); (70367, 70367); (70371, 70378);
   (70400, 70401); (70459, 70460); (70464, 70464); (70502, 70508);
   (70512, 70516); (70712, 70719); (70722, 70724); (70726, 70726);
   (70750, 70750); (70835, 70840); (70842, 70842); (70847, 70848);
   (70850, 70851); (71090, 71093); (71100, 71101); (71103, 71104);
   (71132, 71133); (71219, 71226); (71229, 71229); (71231, 71232);
   (71339, 71339); (71341, 71341); (71344, 71349); (71351, 71351);
   (71453, 71455); (71458, 71461); (71463, 71467); (71727, 71735);
   (71737, 71738); (71995, 71996); (71998, 71998); (72003, 72003);
   (72148, 72151); (72154, 72155); (72160, 72160); (72193, 72202);
   (72243, 72248); (72251, 72254); (72263, 72263); (72273, 72278);
   (72281, 72283); (72330, 72342); (72344, 72345); (72752, 72758);
   (72760, 72765); (72767, 72767); (72850, 72871); (72874, 72880);
   (72882, 72883); (72885, 72886); (73009, 73014); (73018, 73018);
   (73020, 73021); (73023, 73029); (73031, 73031); (73104, 73105);
   (73109, 73109); (73111, 73111); (73459, 73460); (78896, 78904);
   (92912, 92916); (92976, 92982); (92992, 92995); (94031, 94031);
   (94095, 94111); (94176, 94177); (94179, 94180); (110576, 110579);
   (110581, 110587); (110589, 110590); (113821, 113822); (113824, 113827);
   (118528, 118573); (118576, 118598); (119143, 119145); (119155, 119170);
   (119173, 119179); (119210, 119213); (119362, 119364); (121344, 121398);
   (121403, 121452); (121461, 121461); (121476, 121476); (121499, 121503);
   (121505, 121519); (122880, 122886); (122888, 122904); (122907, 122913);
   (122915, 122916); (122918, 122922); (123184, 123197); (123566, 123566);
   (123628, 123631); (125136, 125142); (125252, 125259); (127995, 127999);
   (917505, 917505); (917536, 917631); (917760, 917999)]%N.

Definition is_case_ignorable (c : N) : bool :=
  in_ranges case_ignorable_ranges c.

Fixpoint skip_case_ignorable (s : ustr) : ustr :=
  match s with
  | [] => []
  | c :: rest => if is_case_ignorable c then skip_case_ignorable rest else s
  end.

(** [handle_capital_sigma]: U+03A3 is in final position when the nearest
    code point before it that is not case-ignorable is cased, and the
    nearest one after it that is not case-ignorable, if any, is not cased;
    [before] holds the code points before it, the nearest first *)
Definition final_sigma (before after : ustr) : bool :=
  match skip_case_ignorable before with
  | [] => false
  | c :: _ =>
      is_cased c
      && match skip_case_ignorable after with
         | [] => true
         | d :: _ => negb (is_cased d)
         end
  end.

(** [lower_ucs4]: the lower case of the code point [c] between [before]
    and [after] *)
Definition lower_at (before : ustr) (c : N) (after : ustr) : list N :=
  if (c =? 931)%N then [if final_sigma before after then 962 else 963]%N
  else to_lower_full c.

(** [do_lower] *)
Fixpoint lower_from (before s : ustr) : ustr :=
  match s with
  | [] => []
  | c :: rest => lower_at before c rest ++ lower_from (c :: before) rest
  end.

(** [s.lower()] *)
Definition lower (s : ustr) : ustr := lower_from [] s.

(** [s.replace(a, b)] for one-character [a] and [b] *)
Definition replace_char (a b : N) (s : ustr) : ustr :=
  List.map (fun c => if (c =? a)%N then b else c) s.

(** [s.lstrip(chars)] *)
Fixpoint lstrip (chars : N -> bool) (s : ustr) : ustr :=
  match s with
  | [] => []
  | c :: rest => if chars c then lstrip chars rest else s
  end.

(** [s.rstrip(chars)] *)
Definition rstrip (chars : N -> bool) (s : ustr) : ustr :=
  List.rev (lstrip chars (List.rev s)).

(** [s.strip(chars)] *)
Definition strip (chars : N -> bool) (s : ustr) : ustr :=
  rstrip chars (lstrip chars s).

End Unicode.

(** ** [posixpath] *)

Module Posixpath.

Definition sep : ascii := "/"%char.

(** [posixpath.isabs] *)
Definition isabs (p : string) : bool := Str.startswith p "/".

(** [posixpath.basename]: [i = p.rfind(sep) + 1; return p[i:]] *)
Definition basename (p : string) : string :=
  let i := (Str.rfind sep p + 1)%Z in
  Str.drop (Z.to_nat i) p.

(** [posixpath.dirname] *)
Definition dirname (p : string) : string :=
  let i := (Str.rfind sep p + 1)%Z in
  let head := Str.take (Z.to_nat i) p in
  if negb (Str.is_empty head)
     && negb (String.eqb head (Str.repeat sep (String.length head)))
  then Str.rstrip (Ascii.eqb sep) head
  else head.

(** one step of [posixpath.join]'s loop *)
Definition join2 (path b : string) : string :=
  if Str.startswith b "/" then b
  else if Str.is_empty path || Str.endswith path "/" then path +:+ b
  else path +:+ "/" +:+ b.

(** [posixpath.join(a, *p)] *)
Definition join (a : string) (p : list string) : string := fold_left join2 p a.

(** the loop of [posixpath.normpath] over the components, [new_comps] kept in
    reverse (its last element first) *)
Fixpoint normpath_loop (initial_slashes : nat) (comps : list string)
    (new_comps_rev : list string) : list string :=
  match comps with
  | [] => List.rev new_comps_rev
  | comp :: rest =>
      if String.eqb comp "" || String.eqb comp "." then
        normpath_loop initial_slashes rest new_comps_rev
      else if negb (String.eqb comp "..")
              || (Nat.eqb initial_slashes 0
                  && match new_comps_rev with [] => true | _ => false end)
              || match new_comps_rev with
                 | last :: _ => String.eqb last ".."
                 | [] => false
                 end
      then normpath_loop initial_slashes rest (comp :: new_comps_rev)
      else match new_comps_rev with
           | _ :: popped => normpath_loop initial_slashes rest popped
           | [] => normpath_loop initial_slashes rest new_comps_rev
           end
  end.

(** [posixpath.normpath] *)
Definition normpath (path : string) : string :=
  if Str.is_empty path then "."
  else
    let initial_slashes :=
      if Str.startswith path "/" then
        if Str.startswith path "//" && negb (Str.startswith path "///")
        then 2%nat else 1%nat
      else 0%nat in
    let comps := normpath_loop initial_slashes (Str.split sep path) [] in
    let joined := Str.join "/" comps in
    let path' :=
      if Nat.eqb initial_slashes 0 then joined
      else Str.repeat sep initial_slashes +:+ joined in
    if Str.is_empty path' then "." else path'.

(** [posixpath.abspath], with the current directory as an argument *)
Definition abspath (cwd path : string) : string :=
  normpath (if isabs path then path else join cwd [path]).

(** [len(commonprefix([l1, l2]))]: the length of the longest common prefix
    of two lists of components *)
Fixpoint common_len (l1 l2 : list string) : nat :=
  match l1, l2 with
  | a :: l1', b :: l2' => if String.eqb a b then S (common_len l1' l2') else 0
  | _, _ => 0
  end.

Definition nonempty_parts (p : string) : list string :=
  List.filter (fun x => negb (Str.is_empty x)) (Str.split sep p).

(** [posixpath.relpath(path, start)]; raises [ValueError] on an empty path *)
Definition relpath (cwd path start : string) : result string :=
  if Str.is_empty path then Raise ValueError
  else
    let start_list := nonempty_parts (abspath cwd start) in
    let path_list := nonempty_parts (abspath cwd path) in
    let i := common_len start_list path_list in
    let rel_list :=
      List.repeat ".." (List.length start_list - i) ++ List.skipn i path_list in
    match rel_list with
    | [] => Ok "."
    | a :: p => Ok (join a p)
    end.

End Posixpath.

(** ** [urllib.parse] *)

Module Urllib.

Definition uses_relative : list string :=
  [""; "ftp"; "http"; "gopher"; "nntp"; "imap";
   "wais"; "file"; "https"; "shttp"; "mms";
   "prospero"; "rtsp"; "rtspu"; "sftp";
   "svn"; "svn+ssh"; "ws"; "wss"].

Definition uses_netloc : list string :=
  [""; "ftp"; "http"; "gopher"; "nntp"; "telnet";
   "imap"; "wais"; "file"; "mms"; "https"; "shttp";
   "snews"; "prospero"; "rtsp"; "rtspu"; "rsync";
   "svn"; "svn+ssh"; "sftp"; "nfs"; "git"; "git+ssh";
   "ws"; "wss"].

Definition uses_params : list string :=
  [""; "ftp"; "hdl"; "prospero"; "http"; "imap";
   "https"; "shttp"; "rtsp"; "rtspu"; "sip"; "sips";
   "mms"; "sftp"; "tel"].

Definition scheme_chars : string :=
  "abcdefghijklmnopqrstuvwxyzABCDEFGHIJKLMNOPQRSTUVWXYZ0123456789+-.".

(** membership in [_WHATWG_C0_CONTROL_OR_SPACE]: code points 0 to 32 *)
Definition c0_control_or_space (c : ascii) : bool := (Str.code c <=? 32)%N.

(** removal of [_UNSAFE_URL_BYTES_TO_REMOVE]: tab, carriage return, newline *)
Definition remove_unsafe (s : string) : string :=
  Str.remove_char (ascii_of_N 10)
    (Str.remove_char (ascii_of_N 13) (Str.remove_char (ascii_of_N 9) s)).

Record SplitResult : Type := mkSplit {
  s_scheme : string;
  s_netloc : string;
  s_path : string;
  s_query : string;
  s_fragment : string
}.

Record ParseResult : Type := mkParse {
  scheme : string;
  netloc : string;
  path : string;
  params : string;
  query : string;
  fragment : string
}.

(** [parsed._replace(fragment=f)] *)
Definition replace_fragment (p : ParseResult) (f : string) : ParseResult :=
  {| scheme := scheme p; netloc := netloc p; path := path p;
     params := params p; query := query p; fragment := f |}.

(** [_splitnetloc(url, start)] *)
Definition splitnetloc (url : string) (start : nat) : string * string :=
  let step (delim : Z) (c : ascii) : Z :=
    let wdelim := Str.find c url start in
    if (0 <=? wdelim)%Z then Z.min delim wdelim else delim in
  let delim :=
    fold_left step ["/"%char; "?"%char; "#"%char]
      (Z.of_nat (String.length url)) in
  (Str.take (Z.to_nat delim - start) (Str.drop start url),
   Str.drop (Z.to_nat delim) url).

(** [_splitparams(url)], called only when [';' in url] *)
Definition splitparams (url : string) : string * string :=
  let cut (i : Z) :=
    (Str.take (Z.to_nat i) url, Str.drop (Z.to_nat (i + 1)) url) in
  if Str.contains "/" url then
    let i := Str.find ";" url (Z.to_nat (Str.rfind "/" url)) in
    if (i <? 0)%Z then (url, "") else cut i
  else cut (Str.find ";" url 0).

Section Parse.

(** The two netloc validations of [urlsplit] that consult other library
    modules are parameters: [_check_bracketed_netloc] ([ipaddress], [re]),
    reached only when the netloc has both brackets, and the NFKC test of
    [_checknetloc] ([unicodedata]), reached only when the netloc has a
    non-ASCII character.  [true] means that no [ValueError] is raised. *)
Variable check_bracketed_netloc : string -> bool.
Variable nfkc_netloc_ok : string -> bool.

(** [_checknetloc(netloc)] *)
Definition checknetloc (netloc : string) : bool :=
  if Str.is_empty netloc || Str.forallb Str.isascii netloc then true
  else nfkc_netloc_ok netloc.

(** [urlsplit(url, scheme)] with [allow_fragments=True] *)
Definition urlsplit (url scheme : string) : result SplitResult :=
  let url := Str.lstrip c0_control_or_space url in
  let scheme := Str.strip c0_control_or_space scheme in
  let url := remove_unsafe url in
  let scheme := remove_unsafe scheme in
  let i := Str.find ":" url 0 in
  let '(scheme, url) :=
    if (0 <? i)%Z
       && match url with
          | String c0 _ => Str.isascii c0 && Str.isalpha c0
          | "" => false
          end
       && Str.forallb (fun c => Str.contains c scheme_chars)
            (Str.take (Z.to_nat i) url)
    then (Str.lower (Str.take (Z.to_nat i) url), Str.drop (Z.to_nat (i + 1)) url)
    else (scheme, url) in
  do located <-
    (if String.eqb (Str.take 2 url) "//" then
       let '(netloc, url) := splitnetloc url 2 in
       let lb := Str.contains "[" netloc in
       let rb := Str.contains "]" netloc in
       if (lb && negb rb) || (rb && negb lb) then Raise ValueError
       else if lb && rb && negb (check_bracketed_netloc netloc)
       then Raise ValueError
       else Ok (netloc, url)
     else Ok ("", url));
  let '(netloc, url) := located in
  let '(url, fragment) :=
    match Str.split1 "#" url with
    | Some (u, f) => (u, f)
    | None => (url, "")
    end in
  let '(url, query) :=
    match Str.split1 "?" url with
    | Some (u, q) => (u, q)
    | None => (url, "")
    end in
  if checknetloc netloc then Ok (mkSplit scheme netloc url query fragment)
  else Raise ValueError.

(** [urlparse(url, scheme)] *)
Definition urlparse (url scheme : string) : result ParseResult :=
  do sr <- urlsplit url scheme;
  let '(url, params) :=
    if Str.mem (s_scheme sr) uses_params && Str.contains ";" (s_path sr)
    then splitparams (s_path sr)
    else (s_path sr, "") in
  Ok (mkParse (s_scheme sr) (s_netloc sr) url params (s_query sr)
        (s_fragment sr)).

(** [urlunsplit((scheme, netloc, url, query, fragment))] *)
Definition urlunsplit (scheme netloc url query fragment : string) : string :=
  let url :=
    if negb (Str.is_empty netloc)
       || (negb (Str.is_empty scheme) && Str.mem scheme uses_netloc
           && negb (String.eqb (Str.take 2 url) "//"))
    then
      let url :=
        if negb (Str.is_empty url) && negb (String.eqb (Str.take 1 url) "/")
        then "/" +:+ url else url in
      "//" +:+ netloc +:+ url
    else url in
  let url := if negb (Str.is_empty scheme) then scheme +:+ ":" +:+ url else url in
  let url := if negb (Str.is_empty query) then url +:+ "?" +:+ query else url in
  if negb (Str.is_empty fragment) then url +:+ "#" +:+ fragment else url.

(** [urlunparse(components)] *)
Definition urlunparse (p : ParseResult) : string :=
  let url :=
    if negb (Str.is_empty (params p)) then path p +:+ ";" +:+ params p
    else path p in
  urlunsplit (scheme p) (netloc p) url (query p) (fragment p).

(** [segments[1:-1] = filter(None, segments[1:-1])] *)
Definition filter_inner (segments : list string) : list string :=
  match segments with
  | [] => []
  | first :: rest =>
      match List.rev rest with
      | [] => [first]
      | last :: inner_rev =>
          first
          :: List.filter (fun x => negb (Str.is_empty x)) (List.rev inner_rev)
          ++ [last]
      end
  end.

(** the loop of [urljoin] over the segments, [resolved_path] kept in
    reverse *)
Fixpoint resolve (segments : list string) (resolved_rev : list string)
    : list string :=
  match segments with
  | [] => List.rev resolved_rev
  | seg :: rest =>
      if String.eqb seg ".." then
        resolve rest (match resolved_rev with _ :: r => r | [] => [] end)
      else if String.eqb seg "." then resolve rest resolved_rev
      else resolve rest (seg :: resolved_rev)
  end.

(** [urljoin(base, url)] *)
Definition urljoin (base url : string) : result string :=
  if Str.is_empty base then Ok url
  else if Str.is_empty url then Ok base
  else
    do b <- urlparse base "";
    do u <- urlparse url (scheme b);
    if negb (String.eqb (scheme u) (scheme b))
       || negb (Str.mem (scheme u) uses_relative)
    then Ok url
    else if Str.mem (scheme u) uses_netloc && negb (Str.is_empty (netloc u))
    then Ok (urlunparse u)
    else
      let netloc' :=
        if Str.mem (scheme u) uses_netloc then netloc b else netloc u in
      if Str.is_empty (path u) && Str.is_empty (params u) then
        Ok (urlunparse
              (mkParse (scheme u) netloc' (path b) (params b)
                 (if Str.is_empty (query u) then query b else query u)
                 (fragment u)))
      else
        let base_parts := Str.split "/" (path b) in
        let base_parts :=
          if negb (String.eqb (List.last base_parts "") "")
          then List.removelast base_parts else base_parts in
        let segments :=
          if String.eqb (Str.take 1 (path u)) "/" then Str.split "/" (path u)
          else filter_inner (base_parts ++ Str.split "/" (path u)) in
        let resolved_path := resolve segments [] in
        let resolved_path :=
          if Str.mem (List.last segments "") ["."; ".."]
          then resolved_path ++ [""] else resolved_path in
        let joined := Str.join "/" resolved_path in
        Ok (urlunparse
              (mkParse (scheme u) netloc'
                 (if Str.is_empty joined then "/" else joined)
                 (params u) (query u) (fragment u))).

End Parse.

End Urllib.

(** ** [bytes.decode]: codecs and error handlers *)

Module Codec.

(** decoded text: a sequence of Unicode code points *)
Definition text : Type := list N.

(** A decoder cuts its input into decoded characters and byte ranges that it
    cannot decode; each such range, of [n] bytes, is handed to the error
    handler, and decoding resumes after it. *)
Inductive Chunk : Type :=
| Decoded (cp : N)
| Undecodable (n : nat).

(** A codec can also refuse its input with an exception, whatever the error
    handler is: so do [undefined] and [idna] with [errors='ignore']. *)
Definition codec : Type := list Byte.byte -> result (list Chunk).

Definition cont (b : Byte.byte) : bool :=
  ((128 <=? Byte.to_N b) && (Byte.to_N b <=? 191))%N.

Definition low6 (b : Byte.byte) : N := (Byte.to_N b - 128)%N.

(** the UTF-8 decoder of CPython: well-formed sequences only (no overlong
    forms, no surrogates, nothing above U+10FFFF); an ill-formed sequence is
    reported up to, and not including, its first offending byte, a truncated
    one up to the end of the input *)
Fixpoint utf_8 (bs : list Byte.byte) : list Chunk :=
  match bs with
  | [] => []
  | b0 :: t0 =>
      let c0 := Byte.to_N b0 in
      if (c0 <? 128)%N then Decoded c0 :: utf_8 t0
      else if (c0 <? 194)%N then Undecodable 1 :: utf_8 t0
      else if (c0 <? 224)%N then
        match t0 with
        | [] => [Undecodable 1]
        | b1 :: t1 =>
            if cont b1 then Decoded ((c0 - 192) * 64 + low6 b1)%N :: utf_8 t1
            else Undecodable 1 :: utf_8 t0
        end
      else if (c0 <? 240)%N then
        match t0 with
        | [] => [Undecodable 1]
        | b1 :: t1 =>
            if negb (cont b1)
               || ((c0 =? 224)%N && (Byte.to_N b1 <? 160)%N)
               || ((c0 =? 237)%N && (160 <=? Byte.to_N b1)%N)
            then Undecodable 1 :: utf_8 t0
            else
              match t1 with
              | [] => [Undecodable 2]
              | b2 :: t2 =>
                  if cont b2 then
                    Decoded ((c0 - 224) * 4096 + low6 b1 * 64 + low6 b2)%N
                    :: utf_8 t2
                  else Undecodable 2 :: utf_8 t1
              end
        end
      else if (c0 <? 245)%N then
        match t0 with
        | [] => [Undecodable 1]
        | b1 :: t1 =>
            if negb (cont b1)
               || ((c0 =? 240)%N && (Byte.to_N b1 <? 144)%N)
               || ((c0 =? 244)%N && (144 <=? Byte.to_N b1)%N)
            then Undecodable 1 :: utf_8 t0
            else
              match t1 with
              | [] => [Undecodable 2]
              | b2 :: t2 =>
                  if negb (cont b2) then Undecodable 2 :: utf_8 t1
                  else
                    match t2 with
                    | [] => [Undecodable 3]
                    | b3 :: t3 =>
                        if cont b3 then
                          Decoded ((c0 - 240) * 262144 + low6 b1 * 4096
                                   + low6 b2 * 64 + low6 b3)%N
                          :: utf_8 t3
                        else Undecodable 3 :: utf_8 t2
                    end
              end
        end
      else Undecodable 1 :: utf_8 t0
  end.

(** [errors='ignore']: an undecodable range contributes nothing *)
Fixpoint ignore (chunks : list Chunk) : text :=
  match chunks with
  | [] => []
  | Decoded cp :: rest => cp :: ignore rest
  | Undecodable _ :: rest => ignore rest
  end.

(** the substitution character U+FFFD *)
Definition replacement_character : N := 65533%N.

(** [errors='replace']: an undecodable range becomes one U+FFFD *)
Fixpoint replace (chunks : list Chunk) : text :=
  match chunks with
  | [] => []
  | Decoded cp :: rest => cp :: replace rest
  | Undecodable _ :: rest => replacement_character :: replace rest
  end.

Definition undecodable_ranges (chunks : list Chunk) : nat :=
  List.length (List.filter (fun c => match c with Undecodable _ => true | _ => false end) chunks).

Section Registry.

(** the codec registry apart from the name ["utf-8"]; [None] is an unknown
    encoding, or one that is not a text encoding, for which the lookup
    raises [LookupError] *)
Variable other_codecs : string -> option codec.

Definition lookup (encoding : string) : option codec :=
  if String.eqb encoding "utf-8" then Some (fun bs => Ok (utf_8 bs))
  else other_codecs encoding.

(** [bytes.decode(encoding, errors)] with the error handler [handler]: an
    empty input gives the empty text before any codec is looked up *)
Definition decode (handler : list Chunk -> text) (content : list Byte.byte)
    (encoding : string) : result text :=
  match content with
  | [] => Ok []
  | _ :: _ =>
      match lookup encoding with
      | Some c => do chunks <- c content; Ok (handler chunks)
      | None => Raise LookupError
      end
  end.

(** [content.decode(encoding, errors='ignore')] *)
Definition decode_ignore (content : list Byte.byte) (encoding : string)
    : result text :=
  decode ignore content encoding.

(** [content.decode(encoding, errors='replace')] *)
Definition decode_replace (content : list Byte.byte) (encoding : string)
    : result text :=
  decode replace content encoding.

End Registry.

End Codec.

(** ** [web_processor.process_document] *)

Module WebProcessor.

Import Codec.

(** *** The parsed documents, as far as the program queries them *)

(** an anchor of the link-source element: [link.get('href')] and
    [link.get_text(strip=True)] *)
Record Tag : Type := mkTag {
  href : string;
  link_text : string
}.

(** an element: [str(element)], [len(element.get_text(strip=True))] and
    [element.find_all('a', href=True)] in document order *)
Record Element : Type := mkElement {
  str_html : text;
  text_length : nat;
  anchors : list Tag
}.

(** a parsed document: [soup.find(id=s)], [soup.find(class_=s)],
    [soup.select_one(s)], [soup.find_all(['div', 'article', 'main'])] and
    [soup.find('body')]; an element is always truthy, so [not element] holds
    for [None] only *)
Record Soup : Type := mkSoup {
  find_id : string -> option Element;
  find_class : string -> option Element;
  select_one : string -> option Element;
  find_all_containers : list Element;
  find_body : option Element
}.

(** *** The environment *)

(** an HTTP response that passed [raise_for_status]: [response.encoding] and
    [response.content] *)
Record Response : Type := mkResponse {
  encoding : option string;
  content : list Byte.byte
}.

(** the outcome of one [requests.get] followed by [raise_for_status]: a
    response after [took] seconds; a [RequestException] after [took]
    seconds, in which case [slept] is the value that [random.uniform] draws
    for the back-off sleep; or, after [took] seconds, an exception of another
    class, which the [except] clause of the loop does not catch (so does
    urllib3's [LocationParseError] for a host with an empty label) *)
Inductive Attempt : Type :=
| Success (took : Q) (r : Response)
| Failure (took : Q) (slept : Q)
| Uncaught (took : Q).

Inductive Page : Type := StartingPage | LinkedPage.

Inductive Level : Type := INFO | WARNING | ERROR.

Inductive Message : Type :=
| FetchingStartingPage (url : string)
| FetchingLinkedPage (url : string)
| FailedAfter (page : Page) (url : string) (seconds : Q)
| FailedRetrying (page : Page) (url : string)
| LinkSourceNotFound (selector url : string)
| FoundLinkSource (found_by selector : string)
| SearchingLinks
| NoLinksFound (selector : string)
| FoundPotentialLinks (n : nat)
| FilteringLinks (parent_url_base : string)
| NoUniqueLinks (parent_url_base : string)
| FoundUniqueLinks (n : nat)
| SelectorNotFound (selector url : string)
| HeuristicFound (characters : nat) (url : string)
| HeuristicFailed (url : string)
| NoMainContent (url : string)
| NotRelative (link_path base_path : string)
| Saved (markdown_filename : string)
| ErrorSaving (markdown_filename : string).

(** what the run does to the outside, oldest first *)
Inductive Event : Type :=
| Log (level : Level) (msg : Message)
| Get (url : string) (timeout : Q)
| Sleep (seconds : Q)
| Makedirs (dir : string)
| Write (markdown_filename : string).

(** the clock ([time.time()]), the files under the output tree (path to
    content) and the events so far; only requests and sleeps take time *)
Record World : Type := mkWorld {
  now : Q;
  files : gmap string text;
  trace : list Event
}.

Definition emit (e : Event) (w : World) : World :=
  mkWorld (now w) (files w) (trace w ++ [e]).

Definition advance (d : Q) (w : World) : World :=
  mkWorld (now w + d)%Q (files w) (trace w).

Definition store (markdown_filename : string) (markdown_content : text)
    (w : World) : World :=
  mkWorld (now w) (<[markdown_filename := markdown_content]> (files w))
    (trace w).

(** the arguments of [process_document] *)
Record Args : Type := mkArgs {
  start_url : string;
  link_source_selector : string;
  main_content_selector : option string;
  output_dir : string;
  timeout : Q;
  min_delay : Q;
  max_delay : Q;
  max_retry_duration : Q
}.

(** the ways in which [process_document] returns *)
Inductive Outcome : Type :=
| StartFetchFailed
| NoLinkSource
| NoLinks
| NoInScopeLinks
| Completed.

(** [response.encoding or 'utf-8'] *)
Definition encoding_or_utf8 (r : Response) : string :=
  match encoding r with
  | Some e => if Str.is_empty e then "utf-8" else e
  | None => "utf-8"
  end.

(** *** Filename sanitization (lines 247-256) *)

Definition underscore_or_hyphen (c : ascii) : bool :=
  Ascii.eqb c "_" || Ascii.eqb c "-".

Definition sanitize (filename_base : string) : string :=
  let filename := Str.lower filename_base in
  let filename := Str.replace_char " " "_" filename in
  let filename :=
    Str.filter (fun c => Str.isalnum c || underscore_or_hyphen c) filename in
  let filename := Str.strip underscore_or_hyphen filename in
  if Str.is_empty filename then "untitled_page" else filename.

(** *** Filename sanitization on any string (lines 247-256) *)

Definition underscore_or_hyphen_code (c : N) : bool :=
  ((c =? 95) || (c =? 45))%N.

(** the same statements as [sanitize], on a string of any code points *)
Definition sanitize_ustr (filename_base : Unicode.ustr) : Unicode.ustr :=
  let filename := Unicode.lower filename_base in
  let filename := Unicode.replace_char 32 95 filename in
  let filename :=
    List.filter (fun c => Unicode.isalnum c || underscore_or_hyphen_code c)
      filename in
  let filename := Unicode.strip underscore_or_hyphen_code filename in
  match filename with
  | [] => Unicode.of_string "untitled_page"
  | _ :: _ => filename
  end.

(** *** Filename uniqueness (lines 294-301) *)

(** [os.path.join(file_output_dir, f"{filename}.md")] *)
Definition md_path (file_output_dir filename : string) : string :=
  Posixpath.join file_output_dir [filename +:+ ".md"].

(** [f"{original_filename}_{counter}"] *)
Definition numbered (original_filename : string) (counter : nat) : string :=
  original_filename +:+ "_" +:+ Str.of_nat counter.

(** the [while os.path.exists(markdown_filename)] loop; [fuel] bounds the
    number of iterations *)
Fixpoint unique_loop (fuel : nat) (present : string -> bool)
    (file_output_dir original_filename markdown_filename : string)
    (counter : nat) : option string :=
  if present markdown_filename then
    match fuel with
    | O => None
    | S fuel' =>
        unique_loop fuel' present file_output_dir original_filename
          (md_path file_output_dir (numbered original_filename counter))
          (S counter)
    end
  else Some markdown_filename.

(** lines 290-301, run with one more iteration than there are files *)
Definition unique_name (fs : gmap string text)
    (file_output_dir filename : string) : option string :=
  unique_loop (S (size fs)) (fun p => bool_decide (is_Some (fs !! p)))
    file_output_dir filename (md_path file_output_dir filename) 1.

(** *** Main-content extraction (lines 187-221) *)

Definition irrelevant_selectors : list string :=
  ["nav"; "footer"; "script"; "style"; "header";
   ".header"; ".footer"; ".navigation"; ".sidebar";
   ".menu"; ".comments"].

(** the heuristic loop: the first element with the greatest text length
    among those with more than 100 characters *)
Fixpoint heuristic (potential_content_elements : list Element)
    (best_element : option Element) (max_text_length : nat)
    : option Element * nat :=
  match potential_content_elements with
  | [] => (best_element, max_text_length)
  | element :: rest =>
      let text_length := text_length element in
      if (100 <? text_length)%nat && (max_text_length <? text_length)%nat
      then heuristic rest (Some element) text_length
      else heuristic rest best_element max_text_length
  end.

(** truthiness of the optional selector argument *)
Definition selector_given (s : option string) : option string :=
  match s with
  | Some sel => if Str.is_empty sel then None else Some sel
  | None => None
  end.

Definition main_content (main_content_selector : option string)
    (url_without_fragment : string) (link_soup : Soup) (w : World)
    : option Element * World :=
  let '(main_content_element, w) :=
    match selector_given main_content_selector with
    | Some sel =>
        match select_one link_soup sel with
        | Some e => (Some e, w)
        | None =>
            (None, emit (Log WARNING (SelectorNotFound sel url_without_fragment)) w)
        end
    | None => (None, w)
    end in
  match main_content_element with
  | Some e => (Some e, w)
  | None =>
      match heuristic (find_all_containers link_soup) None 0 with
      | (Some best_element, max_text_length) =>
          (Some best_element,
           emit (Log INFO (HeuristicFound max_text_length url_without_fragment)) w)
      | (None, _) =>
          (find_body link_soup,
           emit (Log WARNING (HeuristicFailed url_without_fragment)) w)
      end
  end.

Section Program.

(** The parameters of the model: the two netloc validations of [urlsplit],
    the codec registry apart from UTF-8, the current directory, the HTML
    parser, the removal of every element matching a list of selectors (the
    [decompose] loops of lines 180-182), the Markdown converter and whether
    a path can be opened for writing. *)
Variable check_bracketed_netloc : string -> bool.
Variable nfkc_netloc_ok : string -> bool.
Variable other_codecs : string -> option codec.
Variable cwd : string.
Variable BeautifulSoup : text -> Soup.
Variable decompose_all : list string -> Soup -> Soup.
Variable html2text : text -> text.
Variable can_write : string -> bool.

Definition urlparse (url : string) : result Urllib.ParseResult :=
  Urllib.urlparse check_bracketed_netloc nfkc_netloc_ok url "".

Definition urljoin (base url : string) : result string :=
  Urllib.urljoin check_bracketed_netloc nfkc_netloc_ok base url.

(** *** Scope and link collection (lines 83-112) *)

(** [urlunparse(urlparse(link_url)._replace(fragment=''))] *)
Definition url_without_fragment (link_url : string) : result string :=
  do parsed_link_url <- urlparse link_url;
  Ok (Urllib.urlunparse (Urllib.replace_fragment parsed_link_url "")).

(** lines 83-89 *)
Definition parent_url_base (start_url : string) : result string :=
  do parsed_start_url <- urlparse start_url;
  let parent_path := Posixpath.dirname (Urllib.path parsed_start_url) in
  let parent_path :=
    if negb (Str.endswith parent_path "/") then parent_path +:+ "/"
    else parent_path in
  Ok (Urllib.urlunparse
        (Urllib.mkParse (Urllib.scheme parsed_start_url)
           (Urllib.netloc parsed_start_url) parent_path "" "" "")).

(** [unique_links_map]: a dictionary in insertion order, from the URL
    without fragment to the anchor and its resolved URL *)
Definition links_map : Type := list (string * (Tag * string)).

(** [key in unique_links_map] *)
Definition has_key (key : string) (m : links_map) : bool :=
  existsb (fun kv => String.eqb key (fst kv)) m.

(** the loop of lines 96-109 *)
Fixpoint collect_loop (start_url parent_url_base : string) (links : list Tag)
    (unique_links_map : links_map) : result links_map :=
  match links with
  | [] => Ok unique_links_map
  | link :: rest =>
      if Str.is_empty (href link) then
        collect_loop start_url parent_url_base rest unique_links_map
      else
        do link_url <- urljoin start_url (href link);
        do url_without_fragment <- url_without_fragment link_url;
        if Str.startswith url_without_fragment parent_url_base
           && negb (has_key url_without_fragment unique_links_map)
        then
          collect_loop start_url parent_url_base rest
            (unique_links_map ++ [(url_without_fragment, (link, link_url))])
        else collect_loop start_url parent_url_base rest unique_links_map
  end.

(** lines 83-112: [list(unique_links_map.values())] *)
Definition unique_links (start_url : string) (links : list Tag)
    : result links_map :=
  do base <- parent_url_base start_url;
  collect_loop start_url base links [].

Definition filtered_links_info (start_url : string) (links : list Tag)
    : result (list (Tag * string)) :=
  do m <- unique_links start_url links;
  Ok (List.map snd m).

(** *** Output paths (lines 126-138 and 258-290) *)

(** lines 126-134 *)
Definition base_path_for_relative (start_url : string) : result string :=
  do parsed <- urlparse start_url;
  let base := Posixpath.dirname (Urllib.path parsed) in
  let base := if Str.is_empty base then "/" else base in
  Ok (if negb (Str.endswith base "/") then base +:+ "/" else base).

(** line 138 *)
Definition output_root_name (base_path_for_relative : string) : string :=
  Posixpath.basename (Posixpath.normpath base_path_for_relative).

(** line 265 *)
Definition relative_link_path (link_path base_path_for_relative : string)
    : result string :=
  Posixpath.relpath cwd link_path base_path_for_relative.

(** lines 272-284 *)
Definition file_output_dir (output_dir output_root_name
    relative_link_path : string) : string :=
  let relative_output_subdir := Posixpath.dirname relative_link_path in
  let dir :=
    if negb (Str.is_empty output_root_name)
    then Posixpath.join output_dir [output_root_name; relative_output_subdir]
    else Posixpath.join output_dir [relative_output_subdir] in
  if Str.startswith dir "./" || Str.startswith dir ".\"
  then Str.drop 2 dir else dir.

(** lines 236-242 *)
Definition filename_base (link_tag : Tag) (url_without_fragment : string)
    : result string :=
  if negb (Str.is_empty (link_text link_tag)) then Ok (link_text link_tag)
  else
    do parsed <- urlparse url_without_fragment;
    Ok (Str.replace_char "." "_" (Posixpath.basename (Urllib.path parsed))).

(** *** The retrying fetch (lines 37-52 and 150-166) *)

(** [content.decode(response.encoding or 'utf-8', errors='ignore')] *)
Definition decode_body (r : Response) : result text :=
  decode_ignore other_codecs (content r) (encoding_or_utf8 r).

(** The [while True] loop, the same for the starting page and for a linked
    page up to the log texts.  [net] holds the outcomes of the requests still
    to come; the loop is stuck ([None]) when it needs one more than [net]
    holds.  The result is the decoded page, or [None] once the loop gave
    up. *)
Fixpoint retry_loop (page : Page) (url : string) (timeout max_retry_duration
    start_time : Q) (net : list Attempt) (w : World)
    : option (result (option text) * list Attempt * World) :=
  let elapsed_time := (now w - start_time)%Q in
  if negb (Qle_bool elapsed_time max_retry_duration) then
    Some (Ok None, net,
          emit (Log ERROR (FailedAfter page url max_retry_duration)) w)
  else
    match net with
    | [] => None
    | Success took r :: net' =>
        let w := advance took (emit (Get url timeout) w) in
        Some (match decode_body r with
              | Ok html_content => Ok (Some html_content)
              | Raise e => Raise e
              end, net', w)
    | Failure took slept :: net' =>
        let w := advance took (emit (Get url timeout) w) in
        let w := emit (Log ERROR (FailedRetrying page url)) w in
        let w := advance slept (emit (Sleep slept) w) in
        retry_loop page url timeout max_retry_duration start_time net' w
    | Uncaught took :: net' =>
        Some (Raise OtherException, net',
              advance took (emit (Get url timeout) w))
    end.

(** [start_time = time.time()] followed by the loop.  The two readings of
    the clock, for [start_time] and for the first [elapsed_time], give the
    same value here; the loop itself, [retry_loop], is defined for any start
    time and any clock, and what is proved for any first reading is stated
    on it. *)
Definition fetch (page : Page) (url : string) (a : Args)
    (net : list Attempt) (w : World)
    : option (result (option text) * list Attempt * World) :=
  retry_loop page url (timeout a) (max_retry_duration a) (now w) net w.

(** *** One linked page (the body of the [for] loop, lines 143-309) *)

(** [Ok tt] stands for the end of the iteration, by [continue] or by
    reaching the end of the body. *)
Definition process_link (a : Args) (base_path_for_relative
    output_root_name : string) (link_tag : Tag) (link_url : string)
    (net : list Attempt) (w : World)
    : option (result unit * list Attempt * World) :=
  let w := emit (Log INFO (FetchingLinkedPage link_url)) w in
  match url_without_fragment link_url with
  | Raise e => Some (Raise e, net, w)
  | Ok url_without_fragment =>
  match fetch LinkedPage link_url a net w with
  | None => None
  | Some (Raise e, net, w) => Some (Raise e, net, w)
  | Some (Ok None, net, w) => Some (Ok tt, net, w)
  | Some (Ok (Some linked_page_html), net, w) =>
  let link_soup :=
    decompose_all irrelevant_selectors (BeautifulSoup linked_page_html) in
  match main_content (main_content_selector a) url_without_fragment
          link_soup w with
  | (None, w) =>
      Some (Ok tt, net, emit (Log WARNING (NoMainContent url_without_fragment)) w)
  | (Some main_content_element, w) =>
  let markdown_content := html2text (str_html main_content_element) in
  match filename_base link_tag url_without_fragment with
  | Raise e => Some (Raise e, net, w)
  | Ok filename_base =>
  let filename := sanitize filename_base in
  match urlparse url_without_fragment with
  | Raise e => Some (Raise e, net, w)
  | Ok parsed_link_url_without_fragment =>
  let link_path := Urllib.path parsed_link_url_without_fragment in
  match relative_link_path link_path base_path_for_relative with
  | Raise _ =>
      Some (Ok tt, net,
            emit (Log WARNING (NotRelative link_path base_path_for_relative)) w)
  | Ok relative_link_path =>
  let file_output_dir :=
    file_output_dir (output_dir a) output_root_name relative_link_path in
  let w := emit (Makedirs file_output_dir) w in
  match unique_name (files w) file_output_dir filename with
  | None => None
  | Some markdown_filename =>
      if can_write markdown_filename then
        Some (Ok tt, net,
              emit (Log INFO (Saved markdown_filename))
                (emit (Write markdown_filename)
                   (store markdown_filename markdown_content w)))
      else
        Some (Ok tt, net, emit (Log ERROR (ErrorSaving markdown_filename)) w)
  end end end end end end end.

(** the [for] loop of line 142 *)
Fixpoint process_links (a : Args) (base_path_for_relative
    output_root_name : string) (filtered_links_info : list (Tag * string))
    (net : list Attempt) (w : World)
    : option (result unit * list Attempt * World) :=
  match filtered_links_info with
  | [] => Some (Ok tt, net, w)
  | (link_tag, link_url) :: rest =>
      match process_link a base_path_for_relative output_root_name
              link_tag link_url net w with
      | None => None
      | Some (Raise e, net, w) => Some (Raise e, net, w)
      | Some (Ok _, net, w) =>
          process_links a base_path_for_relative output_root_name rest net w
      end
  end.

(** *** The whole run *)

(** lines 57-63: by id first, then by class *)
Definition find_link_source (soup : Soup) (selector : string)
    : option (string * Element) :=
  match find_id soup selector with
  | Some e => Some ("ID", e)
  | None =>
      match find_class soup selector with
      | Some e => Some ("Class", e)
      | None => None
      end
  end.

Definition process_document (a : Args) (net : list Attempt) (w : World)
    : option (result Outcome * list Attempt * World) :=
  let w := emit (Log INFO (FetchingStartingPage (start_url a))) w in
  match fetch StartingPage (start_url a) a net w with
  | None => None
  | Some (Raise e, net, w) => Some (Raise e, net, w)
  | Some (Ok None, net, w) => Some (Ok StartFetchFailed, net, w)
  | Some (Ok (Some html_content), net, w) =>
  let soup := BeautifulSoup html_content in
  match find_link_source soup (link_source_selector a) with
  | None =>
      Some (Ok NoLinkSource, net,
            emit (Log ERROR (LinkSourceNotFound (link_source_selector a)
                               (start_url a))) w)
  | Some (found_by, link_source_element) =>
  let w := emit (Log INFO (FoundLinkSource found_by (link_source_selector a))) w in
  let links := anchors link_source_element in
  let w := emit (Log INFO SearchingLinks) w in
  match links with
  | [] =>
      Some (Ok NoLinks, net,
            emit (Log WARNING (NoLinksFound (link_source_selector a))) w)
  | _ :: _ =>
  let w := emit (Log INFO (FoundPotentialLinks (List.length links))) w in
  match parent_url_base (start_url a) with
  | Raise e => Some (Raise e, net, w)
  | Ok parent_url_base =>
  let w := emit (Log INFO (FilteringLinks parent_url_base)) w in
  match collect_loop (start_url a) parent_url_base links [] with
  | Raise e => Some (Raise e, net, w)
  | Ok unique_links_map =>
  let filtered_links_info := List.map snd unique_links_map in
  match filtered_links_info with
  | [] =>
      Some (Ok NoInScopeLinks, net,
            emit (Log WARNING (NoUniqueLinks parent_url_base)) w)
  | _ :: _ =>
  let w :=
    emit (Log INFO (FoundUniqueLinks (List.length filtered_links_info))) w in
  let w := emit (Makedirs (output_dir a)) w in
  match base_path_for_relative (start_url a) with
  | Raise e => Some (Raise e, net, w)
  | Ok base_path_for_relative =>
  match process_links a base_path_for_relative
          (output_root_name base_path_for_relative) filtered_links_info
          net w with
  | None => None
  | Some (Raise e, net, w) => Some (Raise e, net, w)
  | Some (Ok _, net, w) => Some (Ok Completed, net, w)
  end end end end end end end end.

(** *** Notions used to state the properties of the link collection *)

(** the anchors that the loop of lines 96-109 looks at, that is those with a
    non-empty [href], in document order, each with its URL without fragment
    and its resolved URL *)
Fixpoint resolved_links (start_url : string) (links : list Tag)
    : result links_map :=
  match links with
  | [] => Ok []
  | link :: rest =>
      if Str.is_empty (href link) then resolved_links start_url rest
      else
        do link_url <- urljoin start_url (href link);
        do key <- url_without_fragment link_url;
        do r <- resolved_links start_url rest;
        Ok ((key, (link, link_url)) :: r)
  end.

End Program.

(** the position of the first occurrence of [key] in [keys], or the length
    of [keys] when there is none *)
Fixpoint index_of (key : string) (keys : list string) : nat :=
  match keys with
  | [] => 0
  | k :: rest => if String.eqb key k then 0 else S (index_of key rest)
  end.

(** one iteration of the loop of lines 96-109 on an anchor that is already
    resolved *)
Definition keep_link (parent_url_base : string) (m : links_map)
    (e : string * (Tag * string)) : links_map :=
  if Str.startswith (fst e) parent_url_base && negb (has_key (fst e) m)
  then m ++ [e] else m.

(** *** A small concrete environment, for running the model *)

Definition no_codecs : string -> option codec := fun _ => None.
Definition always : string -> bool := fun _ => true.

Definition empty_world : World := mkWorld 0 ∅ [].

End WebProcessor.

(** * Notions used to state the properties *)

(** the first character, if any, is not one of the stripped ones *)
Definition head_kept (q : ascii -> bool) (s : string) : Prop :=
  match s with
  | "" => True
  | String c _ => q c = false
  end.

Definition kept (c : ascii) : bool :=
  Str.isalnum c || WebProcessor.underscore_or_hyphen c.

(** A kept character is not a space and is its own lower case, when it was
    produced by lower-casing and by turning a space into an underscore. *)
Definition settled (c : ascii) : bool :=
  kept c && Ascii.eqb (Str.lower_char c) c && negb (Ascii.eqb c " ").

(** The invariant of the collection loop: [seen] are the resolved anchors
    processed so far and [m] is the dictionary built from them. *)
Record collected (scope : string) (seen m : WebProcessor.links_map) : Prop := {
  coll_nodup : NoDup (List.map fst m);
  coll_scope : forall e, In e m -> Str.startswith (fst e) scope = true;
  coll_first : forall e, In e m ->
    nth_error seen (WebProcessor.index_of (fst e) (List.map fst seen)) = Some e;
  coll_order : forall i j e1 e2, i < j ->
    nth_error m i = Some e1 -> nth_error m j = Some e2 ->
    WebProcessor.index_of (fst e1) (List.map fst seen)
    < WebProcessor.index_of (fst e2) (List.map fst seen);
  coll_all : forall c, In c seen -> Str.startswith (fst c) scope = true ->
    In (fst c) (List.map fst m)
}.

(** the keys of [unique_links_map], in insertion order *)
Definition link_set (check_bracketed_netloc nfkc_netloc_ok : string -> bool)
    (start_url : string) (links : list WebProcessor.Tag)
    : result (list string) :=
  do m <- WebProcessor.unique_links check_bracketed_netloc nfkc_netloc_ok
            start_url links;
  Ok (List.map fst m).

(** Scenario A: the start URL and the anchors of the link-source element *)
Definition scenario_A_start_url : string := "https://ex.com/docs/index.html".

Definition scenario_A_links : list WebProcessor.Tag :=
  [WebProcessor.mkTag "/docs/a.html" "A";
   WebProcessor.mkTag "/docs/b.html#sec" "B";
   WebProcessor.mkTag "../other/c.html" "C";
   WebProcessor.mkTag "https://other.com/x" "X"].

(** an absolute [href] with a dot segment, under the start URL's directory
    as a string *)
Definition dotted_link : WebProcessor.Tag :=
  WebProcessor.mkTag "https://ex.com/docs/../secret/x.html" "Secret".

Definition deep_start_url : string := "https://ex.com/a/b/index.html".

Definition deep_dotted_link : WebProcessor.Tag :=
  WebProcessor.mkTag "https://ex.com/a/b/../../x/y.html" "Y".

(** the names that the uniqueness loop tries, in order: [<stem>.md],
    [<stem>_1.md], [<stem>_2.md], ... *)
Definition candidate (file_output_dir stem : string) (k : nat) : string :=
  match k with
  | O => WebProcessor.md_path file_output_dir stem
  | S _ => WebProcessor.md_path file_output_dir (WebProcessor.numbered stem k)
  end.

(** lines 290-306 on the files alone, when the file can be written *)
Definition save (fs : gmap string Codec.text) (file_output_dir stem : string)
    (markdown_content : Codec.text) : gmap string Codec.text :=
  match WebProcessor.unique_name fs file_output_dir stem with
  | Some markdown_filename => <[markdown_filename := markdown_content]> fs
  | None => fs
  end.

(** the number of requests in a trace *)
Definition requests_made (tr : list WebProcessor.Event) : nat :=
  List.length
    (List.filter
       (fun e => match e with WebProcessor.Get _ _ => true | _ => false end)
       tr).

(** failed attempts, given their durations and the sleeps that follow *)
Definition failures (fs : list (Q * Q)) : list WebProcessor.Attempt :=
  List.map (fun f => WebProcessor.Failure (fst f) (snd f)) fs.

(** the time that failed attempts and their sleeps take *)
Fixpoint total (fs : list (Q * Q)) : Q :=
  match fs with
  | [] => 0
  | f :: rest => fst f + snd f + total rest
  end.

Definition nonnegative (fs : list (Q * Q)) : Prop :=
  List.Forall (fun f => 0 <= fst f /\ 0 <= snd f)%Q fs.

(** an attempt takes at most [D] seconds and is followed by a sleep of at
    most [S] seconds *)
Definition within (D S : Q) (a : WebProcessor.Attempt) : Prop :=
  match a with
  | WebProcessor.Success took _ => (took <= D)%Q
  | WebProcessor.Failure took slept => (took <= D /\ slept <= S)%Q
  | WebProcessor.Uncaught took => (took <= D)%Q
  end.

(** a response used in the examples: no declared encoding and the bytes
    [a], an invalid [0xff], [b] *)
Definition sample_response : WebProcessor.Response :=
  WebProcessor.mkResponse None [Byte.x61; Byte.xff; Byte.x62].

(** arguments used in the examples: the defaults of the command line *)
Definition sample_args (start_url : string) : WebProcessor.Args :=
  WebProcessor.mkArgs start_url "nav" None "output_markdowns" 10 1 5 15.

(** events that are not requests for another URL than [url] and that write
    no file *)
Definition quiet_for (url : string) (e : WebProcessor.Event) : Prop :=
  match e with
  | WebProcessor.Get u _ => u = url
  | WebProcessor.Write _ => False
  | _ => True
  end.

(** a toy parser: every page has an element with id [nav] that holds the
    given anchors, no container element, and a body unless the page is
    empty *)
Definition toy_soup (links : list WebProcessor.Tag) (html : Codec.text)
    : WebProcessor.Soup :=
  WebProcessor.mkSoup
    (fun s =>
       if String.eqb s "nav"
       then Some (WebProcessor.mkElement html (List.length html) links)
       else None)
    (fun _ => None)
    (fun _ => None)
    []
    (match html with
     | [] => None
     | _ => Some (WebProcessor.mkElement html (List.length html) [])
     end).

(** a toy environment: no element matches the irrelevant selectors, the
    Markdown of a page is its text, every file can be written *)
Definition toy_run (links : list WebProcessor.Tag) (a : WebProcessor.Args)
    (net : list WebProcessor.Attempt) (w : WebProcessor.World)
    : option (result WebProcessor.Outcome * list WebProcessor.Attempt
              * WebProcessor.World) :=
  WebProcessor.process_document WebProcessor.always WebProcessor.always
    WebProcessor.no_codecs "/" (toy_soup links) (fun _ soup => soup)
    (fun html => html) WebProcessor.always a net w.

(** a page whose bytes are the ASCII letter [c] *)
Definition page (c : Byte.byte) : WebProcessor.Response :=
  WebProcessor.mkResponse None [c].

(** an empty page *)
Definition empty_page : WebProcessor.Response := WebProcessor.mkResponse None [].

(** Scenario B: two links; every attempt on the first one fails, for more
    than 15 seconds with sleeps of 4 seconds; the second one is fetched at
    once *)
Definition scenario_B_links : list WebProcessor.Tag :=
  [WebProcessor.mkTag "/docs/a.html" "A"; WebProcessor.mkTag "/docs/b.html" "B"].

Definition scenario_B_net : list WebProcessor.Attempt :=
  [WebProcessor.Success 1 (page Byte.x73);
   WebProcessor.Failure 1 4; WebProcessor.Failure 1 4;
   WebProcessor.Failure 1 4; WebProcessor.Failure 1 4;
   WebProcessor.Success 1 (page Byte.x62)].

(** what a step adds to the world: events after the old ones, all of them
    quiet for [url], and no change to the files *)
Definition extends_quietly (url : string) (w w' : WebProcessor.World) : Prop :=
  WebProcessor.files w' = WebProcessor.files w
  /\ exists tr, WebProcessor.trace w' = WebProcessor.trace w ++ tr
       /\ List.Forall (quiet_for url) tr.

(** The decoding as the specification words it: the declared encoding, else
    UTF-8, with a substitution character for every undecodable byte
    range. *)
Definition decode_body_replacing (other_codecs : string -> option Codec.codec)
    (r : WebProcessor.Response) : result Codec.text :=
  Codec.decode_replace other_codecs (WebProcessor.content r)
    (WebProcessor.encoding_or_utf8 r).

(** a byte that cannot start a UTF-8 sequence: a continuation byte, 0xC0,
    0xC1, or 0xF5 and above *)
Definition invalid_start (b : Byte.byte) : Prop :=
  (128 <= Byte.to_N b < 194 \/ 245 <= Byte.to_N b)%N.

Definition ascii_bytes (bs : list Byte.byte) : Prop :=
  List.Forall (fun b => (Byte.to_N b < 128)%N) bs.

(** ** Notions used for the sanitization of any string *)

Definition kept_code (c : N) : bool :=
  Unicode.isalnum c || WebProcessor.underscore_or_hyphen_code c.

(** A kept code point that lower-casing leaves alone: it is its own lower
    case, and it is neither a space nor the capital sigma, whose lower case
    depends on its neighbours. *)
Definition settled_code (c : N) : bool :=
  kept_code c
  && match Unicode.to_lower_full c with
     | [d] => (d =? c)%N
     | _ => false
     end
  && negb (c =? 32)%N && negb (c =? 931)%N.

(** what [replace(' ', '_')] makes of a code point *)
Definition underscored (c : N) : N := if (c =? 32)%N then 95%N else c.

(** a code point that is settled once the space is replaced, if it is
    kept *)
Definition settles (c : N) : bool :=
  implb (kept_code (underscored c)) (settled_code (underscored c)).

(** the code points of a run of the lower-case table *)
Definition run_members (r : N * N * N * N) : list N :=
  let '(first, last, step, _) := r in
  List.map (fun k => (first + N.of_nat k * step)%N)
    (List.seq 0 (S (N.to_nat ((last - first) / step)))).

(** the code points that [_PyUnicode_ToLowerFull] changes *)
Definition lower_changed : list N :=
  304%N :: List.flat_map run_members Unicode.lower_runs.

(** ** Notions used for the further properties *)

(** The state of the heuristic loop after the elements [seen]: either no
    element had more than 100 characters, or [best] is the first element of
    [seen] with the greatest text length, [longest]. *)
Definition best_of (seen : list WebProcessor.Element)
    (best : option WebProcessor.Element) (longest : nat) : Prop :=
  match best with
  | None =>
      longest = 0
      /\ forall e, In e seen -> WebProcessor.text_length e <= 100
  | Some b =>
      WebProcessor.text_length b = longest
      /\ 100 < longest
      /\ (forall e, In e seen -> WebProcessor.text_length e <= longest)
      /\ exists i, nth_error seen i = Some b
           /\ forall j e, j < i -> nth_error seen j = Some e ->
                WebProcessor.text_length e < longest
  end.

(** a page whose only queryable element is matched by the selector
    [main] *)
Definition selectable_soup (e : WebProcessor.Element) : WebProcessor.Soup :=
  WebProcessor.mkSoup (fun _ => None) (fun _ => None)
    (fun s => if String.eqb s "main" then Some e else None) [] None.

(** [os.path.join(dir, name)] for a name that does not start with a slash:
    the directory, a separating slash unless the directory is empty or ends
    with one, and the name *)
Definition inside (dir name : string) : string :=
  if Str.is_empty dir || Str.endswith dir "/" then dir +:+ name
  else dir +:+ "/" +:+ name.

(** the paths written, the URLs requested and the linked pages announced
    (line 143) in a trace, oldest first *)
Definition writes (tr : list WebProcessor.Event) : list string :=
  List.flat_map
    (fun e => match e with WebProcessor.Write p => [p] | _ => [] end) tr.

Definition requested (tr : list WebProcessor.Event) : list string :=
  List.flat_map
    (fun e => match e with WebProcessor.Get u _ => [u] | _ => [] end) tr.

Definition announced (tr : list WebProcessor.Event) : list string :=
  List.flat_map
    (fun e =>
       match e with
       | WebProcessor.Log _ (WebProcessor.FetchingLinkedPage u) => [u]
       | _ => []
       end) tr.

(** an event that is neither a write, nor the announcement of a linked
    page, nor a request for another URL than [url] *)
Definition inner_event (url : string) (e : WebProcessor.Event) : Prop :=
  match e with
  | WebProcessor.Get u _ => u = url
  | WebProcessor.Write _ => False
  | WebProcessor.Log _ (WebProcessor.FetchingLinkedPage _) => False
  | _ => True
  end.

(** a step that changes no file and adds inner events only *)
Definition grows_inner (url : string) (w w' : WebProcessor.World) : Prop :=
  WebProcessor.files w' = WebProcessor.files w
  /\ exists tr, WebProcessor.trace w' = WebProcessor.trace w ++ tr
       /\ List.Forall (inner_event url) tr.

(** a failed attempt takes no negative time and is followed by a sleep of at
    least [delta] seconds, as [random.uniform(min_delay, max_delay)] is
    with [delta = min_delay <= max_delay] *)
Definition paced (delta : Q) (a : WebProcessor.Attempt) : Prop :=
  match a with
  | WebProcessor.Success _ _ => True
  | WebProcessor.Failure took slept => (0 <= took /\ delta <= slept)%Q
  | WebProcessor.Uncaught _ => True
  end.

(** a natural number as a rational *)
Definition Qnat (n : nat) : Q := inject_Z (Z.of_nat n).

(** ** Notions used for the mapping of URL paths to output paths *)

(** a path component that normalisation keeps as it is: not empty, not a
    dot segment, and without a slash *)
Definition plain (comp : string) : bool :=
  negb (Str.is_empty comp) && negb (String.eqb comp ".")
  && negb (String.eqb comp "..") && negb (Str.contains "/" comp).

(** the absolute path with the given components *)
Definition rooted (comps : list string) : string :=
  "/" +:+ Str.join "/" comps.

(** the absolute path of a directory, with its trailing slash; [/] when
    there is no component *)
Definition directory (comps : list string) : string := rooted (comps ++ [""]).

(** the output root name of a directory: its last component, if any *)
Definition root_dirs (comps : list string) : list string :=
  match comps with
  | [] => []
  | _ :: _ => [List.last comps ""]
  end.

(** where the page of a link is saved when no file of that name exists:
    under the output directory, in the output root and the directories of
    the link below the base, as [<stem>.md] *)
Definition mirrored (out : string) (bs ds : list string) (stem : string)
    : string :=
  inside out (Str.join "/" (root_dirs bs ++ ds ++ [stem +:+ ".md"])).

(** the stem of the file of a link: the sanitized text of the anchor, or
    the sanitized last component of the path, with its dots replaced, when
    the anchor has no text (lines 236-256) *)
Definition link_stem (tag : WebProcessor.Tag) (name : string) : string :=
  WebProcessor.sanitize
    (if negb (Str.is_empty (WebProcessor.link_text tag))
     then WebProcessor.link_text tag
     else Str.replace_char "." "_" name).

(** * Properties *)

(** ** Strings *)

Lemma append_cons (c : ascii) (s t : string) :
  String c s +:+ t = String c (s +:+ t).
Proof. reflexivity. Qed.

Lemma append_empty_r (s : string) : s +:+ "" = s.
Proof.
  induction s as [|c s IH]; [reflexivity|]. now rewrite append_cons, IH.
Qed.

Lemma append_assoc (s t u : string) : (s +:+ t) +:+ u = s +:+ (t +:+ u).
Proof.
  induction s as [|c s IH]; [reflexivity|]. now rewrite !append_cons, IH.
Qed.

Lemma rev_onto_app (s acc : string) :
  Str.rev_onto s acc = Str.rev s +:+ acc.
Proof.
  unfold Str.rev. revert acc.
  induction s as [|c s IH]; intros acc; [reflexivity|].
  cbn [Str.rev_onto]. rewrite IH, (IH (String c "")).
  now rewrite append_assoc.
Qed.

Lemma rev_cons (c : ascii) (s : string) :
  Str.rev (String c s) = Str.rev s +:+ String c "".
Proof. unfold Str.rev at 1. cbn [Str.rev_onto]. apply rev_onto_app. Qed.

Lemma rev_append (s t : string) : Str.rev (s +:+ t) = Str.rev t +:+ Str.rev s.
Proof.
  induction s as [|c s IH].
  - now rewrite append_empty_r.
  - now rewrite append_cons, !rev_cons, IH, append_assoc.
Qed.

Lemma rev_involutive (s : string) : Str.rev (Str.rev s) = s.
Proof.
  induction s as [|c s IH]; [reflexivity|].
  now rewrite rev_cons, rev_append, IH.
Qed.

Lemma forallb_append (p : ascii -> bool) (s t : string) :
  Str.forallb p (s +:+ t) = Str.forallb p s && Str.forallb p t.
Proof.
  induction s as [|c s IH]; [reflexivity|].
  rewrite append_cons. cbn [Str.forallb]. now rewrite IH, andb_assoc.
Qed.

Lemma forallb_rev (p : ascii -> bool) (s : string) :
  Str.forallb p (Str.rev s) = Str.forallb p s.
Proof.
  induction s as [|c s IH]; [reflexivity|].
  rewrite rev_cons, forallb_append, IH. cbn [Str.forallb].
  rewrite andb_true_r. apply andb_comm.
Qed.

(** what [lstrip] removes and what it keeps make up the string *)
Lemma lstrip_split (q : ascii -> bool) (s : string) :
  exists d, s = d +:+ Str.lstrip q s.
Proof.
  induction s as [|c s [d IH]]; simpl.
  - now exists "".
  - destruct (q c).
    + exists (String c d). now rewrite append_cons, <- IH.
    + now exists "".
Qed.

Lemma forallb_lstrip (p q : ascii -> bool) (s : string) :
  Str.forallb p s = true -> Str.forallb p (Str.lstrip q s) = true.
Proof.
  intros H. destruct (lstrip_split q s) as [d Hd].
  rewrite Hd, forallb_append in H. now apply andb_prop in H.
Qed.

Lemma forallb_rstrip (p q : ascii -> bool) (s : string) :
  Str.forallb p s = true -> Str.forallb p (Str.rstrip q s) = true.
Proof.
  intros H. unfold Str.rstrip.
  rewrite forallb_rev. apply forallb_lstrip. now rewrite forallb_rev.
Qed.

Lemma forallb_strip (p q : ascii -> bool) (s : string) :
  Str.forallb p s = true -> Str.forallb p (Str.strip q s) = true.
Proof. intros H. now apply forallb_rstrip, forallb_lstrip. Qed.

Lemma lstrip_head_kept (q : ascii -> bool) (s : string) :
  head_kept q (Str.lstrip q s).
Proof.
  induction s as [|c s IH]; simpl; [exact I|].
  destruct (q c) eqn:E; [exact IH | exact E].
Qed.

Lemma lstrip_id (q : ascii -> bool) (s : string) :
  head_kept q s -> Str.lstrip q s = s.
Proof. destruct s as [|c s]; simpl; [reflexivity|]. now intros ->. Qed.

Lemma rstrip_split (q : ascii -> bool) (s : string) :
  exists d, s = Str.rstrip q s +:+ d.
Proof.
  destruct (lstrip_split q (Str.rev s)) as [d Hd].
  exists (Str.rev d). unfold Str.rstrip.
  rewrite <- rev_append, <- Hd. symmetry. apply rev_involutive.
Qed.

Lemma rstrip_head_kept (q : ascii -> bool) (s : string) :
  head_kept q s -> head_kept q (Str.rstrip q s).
Proof.
  intros H. destruct (rstrip_split q s) as [d Hd].
  destruct (Str.rstrip q s) as [|c r]; [exact I|].
  rewrite Hd in H. exact H.
Qed.

Lemma rstrip_idempotent (q : ascii -> bool) (s : string) :
  Str.rstrip q (Str.rstrip q s) = Str.rstrip q s.
Proof.
  unfold Str.rstrip. rewrite rev_involutive.
  now rewrite (lstrip_id q _ (lstrip_head_kept q _)).
Qed.

Lemma strip_idempotent (q : ascii -> bool) (s : string) :
  Str.strip q (Str.strip q s) = Str.strip q s.
Proof.
  unfold Str.strip.
  rewrite (lstrip_id q (Str.rstrip q (Str.lstrip q s))).
  - apply rstrip_idempotent.
  - apply rstrip_head_kept, lstrip_head_kept.
Qed.

Lemma map_id_on (f : ascii -> ascii) (s : string) :
  Str.forallb (fun c => Ascii.eqb (f c) c) s = true -> Str.map f s = s.
Proof.
  induction s as [|c s IH]; simpl; [reflexivity|].
  intros [Hc Hs]%andb_prop. apply Ascii.eqb_eq in Hc. now rewrite Hc, IH.
Qed.

Lemma filter_id_on (p : ascii -> bool) (s : string) :
  Str.forallb p s = true -> Str.filter p s = s.
Proof.
  induction s as [|c s IH]; simpl; [reflexivity|].
  intros [Hc Hs]%andb_prop. now rewrite Hc, IH.
Qed.

Lemma forallb_impl (p q : ascii -> bool) (s : string) :
  (forall c, p c = true -> q c = true) ->
  Str.forallb p s = true -> Str.forallb q s = true.
Proof.
  intros Hpq. induction s as [|c s IH]; simpl; [reflexivity|].
  intros [Hc Hs]%andb_prop. now rewrite (Hpq c Hc), IH.
Qed.

Lemma contains_append (c : ascii) (s t : string) :
  Str.contains c (s +:+ t) = Str.contains c s || Str.contains c t.
Proof.
  induction s as [|a s IH]; [reflexivity|].
  rewrite append_cons. cbn [Str.contains]. now rewrite IH, orb_assoc.
Qed.

Lemma length_append (s t : string) :
  String.length (s +:+ t) = String.length s + String.length t.
Proof.
  induction s as [|c s IH]; [reflexivity|].
  rewrite append_cons. cbn [String.length]. now rewrite IH.
Qed.

Lemma drop_append (s t : string) : Str.drop (String.length s) (s +:+ t) = t.
Proof. induction s as [|c s IH]; [now destruct t | exact IH]. Qed.

Lemma take_drop (n : nat) (s : string) : Str.take n s +:+ Str.drop n s = s.
Proof.
  revert s. induction n as [|n IH]; intros [|c s]; try reflexivity.
  cbn [Str.take Str.drop]. now rewrite append_cons, IH.
Qed.

Lemma endswith_suffix (s p : string) :
  Str.endswith s p = true <-> exists q, s = q +:+ p.
Proof.
  unfold Str.endswith. split.
  - intros [_ H]%andb_prop. apply String.eqb_eq in H.
    exists (Str.take (String.length s - String.length p) s).
    rewrite <- H at 2. symmetry. apply take_drop.
  - intros [q ->]. rewrite length_append. apply andb_true_intro. split.
    + apply Nat.leb_le. lia.
    + replace (String.length q + String.length p - String.length p)
        with (String.length q) by lia.
      rewrite drop_append. apply String.eqb_refl.
Qed.

Lemma endswith_prepend (t s p : string) :
  Str.endswith s p = true -> Str.endswith (t +:+ s) p = true.
Proof.
  intros [q ->]%endswith_suffix. apply endswith_suffix.
  exists (t +:+ q). now rewrite append_assoc.
Qed.

Lemma contains_take (c : ascii) (n : nat) (s : string) :
  Str.contains c s = false -> Str.contains c (Str.take n s) = false.
Proof.
  intros H. rewrite <- (take_drop n s), contains_append in H.
  now apply orb_false_elim in H.
Qed.

Lemma contains_drop (c : ascii) (n : nat) (s : string) :
  Str.contains c s = false -> Str.contains c (Str.drop n s) = false.
Proof.
  intros H. rewrite <- (take_drop n s), contains_append in H.
  now apply orb_false_elim in H.
Qed.

Lemma contains_rstrip (c : ascii) (q : ascii -> bool) (s : string) :
  Str.contains c s = false -> Str.contains c (Str.rstrip q s) = false.
Proof.
  intros H. destruct (rstrip_split q s) as [d Hd].
  rewrite Hd, contains_append in H. now apply orb_false_elim in H.
Qed.

Lemma contains_lstrip (c : ascii) (q : ascii -> bool) (s : string) :
  Str.contains c s = false -> Str.contains c (Str.lstrip q s) = false.
Proof.
  intros H. destruct (lstrip_split q s) as [d Hd].
  rewrite Hd, contains_append in H. now apply orb_false_elim in H.
Qed.

Lemma contains_filter (c : ascii) (p : ascii -> bool) (s : string) :
  Str.contains c s = false -> Str.contains c (Str.filter p s) = false.
Proof.
  induction s as [|a s IH]; [reflexivity|].
  cbn [Str.contains Str.filter]. intros [Ha Hs]%orb_false_elim.
  destruct (p a); cbn [Str.contains]; [rewrite Ha|]; now apply IH.
Qed.

(** [split('c', 1)]: the text before the first [c] has no [c], and the
    string is that text, [c] and the rest; without a [c] there is no
    split. *)
Lemma split1_spec (c : ascii) (s : string) :
  match Str.split1 c s with
  | Some (l, r) => s = l +:+ String c r /\ Str.contains c l = false
  | None => Str.contains c s = false
  end.
Proof.
  induction s as [|a s IH]; [reflexivity|].
  cbn [Str.split1 Str.contains].
  destruct (Ascii.eqb a c) eqn:E.
  - apply Ascii.eqb_eq in E as ->. now split.
  - destruct (Str.split1 c s) as [[l r]|].
    + destruct IH as [-> Hl]. split; [reflexivity|].
      cbn [Str.contains]. now rewrite E.
    + exact IH.
Qed.

(** the first [c] at or after the head of [s]: nothing before it is a [c] *)
Lemma find_from_spec (c : ascii) (s : string) (i : Z) :
  (0 <= i)%Z ->
  (Str.find_from c s i = -1 /\ Str.contains c s = false)%Z
  \/ (i <= Str.find_from c s i
      /\ Str.contains c (Str.take (Z.to_nat (Str.find_from c s i - i)) s)
         = false)%Z.
Proof.
  revert i. induction s as [|a s IH]; intros i Hi; [now left|].
  cbn [Str.find_from Str.contains].
  destruct (Ascii.eqb a c) eqn:E.
  - right. split; [lia|]. now rewrite Z.sub_diag.
  - destruct (IH (i + 1)%Z ltac:(lia)) as [[H1 H2]|[H1 H2]].
    + left. now split.
    + right. split; [lia|].
      replace (Z.to_nat (Str.find_from c s (i + 1) - i))
        with (S (Z.to_nat (Str.find_from c s (i + 1) - (i + 1)))) by lia.
      cbn [Str.take Str.contains]. now rewrite E.
Qed.

Lemma contains_take_le (c : ascii) (m n : nat) (s : string) :
  m <= n -> Str.contains c (Str.take n s) = false ->
  Str.contains c (Str.take m s) = false.
Proof.
  revert n s. induction m as [|m IH]; intros n s Hmn H.
  - now destruct s.
  - destruct n as [|n]; [lia|]. destruct s as [|a s]; [reflexivity|].
    cbn [Str.take Str.contains] in *.
    apply orb_false_elim in H as [Ha Hs]. rewrite Ha.
    apply (IH n); [lia | exact Hs].
Qed.

(** the part of [url] from [start] up to a position that is not after the
    first [c] has no [c] *)
Lemma before_find (c : ascii) (url : string) (start : nat) (delim : Z) :
  start <= String.length url ->
  (delim <= Z.of_nat (String.length url))%Z ->
  (0 <= Str.find c url start -> delim <= Str.find c url start)%Z ->
  Str.contains c (Str.take (Z.to_nat delim - start) (Str.drop start url))
  = false.
Proof.
  intros Hstart Hlen Hdelim. unfold Str.find in Hdelim.
  rewrite Nat.min_l in Hdelim by exact Hstart.
  destruct (find_from_spec c (Str.drop start url) (Z.of_nat start)
              ltac:(lia)) as [[H1 H2]|[H1 H2]].
  - now apply contains_take.
  - eapply contains_take_le; [|exact H2]. lia.
Qed.

Lemma splitnetloc_netloc (url : string) (c : ascii) :
  2 <= String.length url ->
  In c ["/"%char; "?"%char; "#"%char] ->
  Str.contains c (fst (Urllib.splitnetloc url 2)) = false.
Proof.
  intros Hlen Hc. unfold Urllib.splitnetloc. cbn [fst fold_left].
  apply before_find; [exact Hlen | |].
  - destruct (0 <=? Str.find "/" url 2)%Z, (0 <=? Str.find "?" url 2)%Z,
      (0 <=? Str.find "#" url 2)%Z; lia.
  - intros Hfound. apply Z.leb_le in Hfound.
    destruct Hc as [<-|[<-|[<-|[]]]]; rewrite ?Hfound;
      destruct (0 <=? Str.find "/" url 2)%Z, (0 <=? Str.find "?" url 2)%Z,
        (0 <=? Str.find "#" url 2)%Z; try discriminate Hfound; lia.
Qed.

Lemma scheme_char_lower (c a : ascii) :
  c = "?"%char \/ c = "#"%char ->
  Str.contains a Urllib.scheme_chars = true ->
  Ascii.eqb (Str.lower_char a) c = false.
Proof.
  intros [-> | ->];
    destruct a as [[] [] [] [] [] [] [] []]; vm_compute; intros H;
    first [reflexivity | discriminate H].
Qed.

Lemma scheme_lower_clean (c : ascii) (s : string) :
  c = "?"%char \/ c = "#"%char ->
  Str.forallb (fun a => Str.contains a Urllib.scheme_chars) s = true ->
  Str.contains c (Str.lower s) = false.
Proof.
  intros Hc. unfold Str.lower.
  induction s as [|a s IH]; [reflexivity|].
  cbn [Str.forallb Str.map Str.contains]. intros [Ha Hs]%andb_prop.
  now rewrite (scheme_char_lower c a Hc Ha), IH.
Qed.

(** ** Filename sanitization *)

Lemma kept_settled (c : ascii) :
  let c' := (if Ascii.eqb (Str.lower_char c) " " then "_"%char
             else Str.lower_char c) in
  kept c' = true -> settled c' = true.
Proof.
  destruct c as [[] [] [] [] [] [] [] []]; vm_compute; intros H;
    first [reflexivity | discriminate H].
Qed.

Lemma filtered_settled (x : string) :
  Str.forallb settled
    (Str.filter kept (Str.replace_char " " "_" (Str.lower x))) = true.
Proof.
  unfold Str.replace_char, Str.lower.
  induction x as [|c x IH]; simpl; [reflexivity|].
  pose proof (kept_settled c) as Hc. simpl in Hc.
  destruct (kept _) eqn:E; [|exact IH].
  simpl. now rewrite (Hc eq_refl), IH.
Qed.

(** the sanitization of the run, on the Latin-1 range, is idempotent *)
Lemma sanitize_latin1_idempotent (x : string) :
  WebProcessor.sanitize (WebProcessor.sanitize x) = WebProcessor.sanitize x.
Proof.
  unfold WebProcessor.sanitize at 2 3.
  fold kept.
  set (y := Str.filter kept (Str.replace_char " " "_" (Str.lower x))).
  assert (Hy : Str.forallb settled y = true) by apply filtered_settled.
  set (f := Str.strip WebProcessor.underscore_or_hyphen y).
  assert (Hf : Str.forallb settled f = true) by now apply forallb_strip.
  destruct (Str.is_empty f) eqn:Ef; [reflexivity|].
  unfold WebProcessor.sanitize. fold kept.
  assert (Hlow : Str.lower f = f).
  { apply map_id_on. revert Hf. apply forallb_impl.
    intros c. unfold settled. now intros [[_ H]%andb_prop _]%andb_prop. }
  assert (Hrep : Str.replace_char " " "_" f = f).
  { apply map_id_on. revert Hf. apply forallb_impl.
    intros c. unfold settled. intros [_ H]%andb_prop.
    destruct (Ascii.eqb c " "); [discriminate H | apply Ascii.eqb_refl]. }
  assert (Hfil : Str.filter kept f = f).
  { apply filter_id_on. revert Hf. apply forallb_impl.
    intros c. unfold settled. now intros [[H _]%andb_prop _]%andb_prop. }
  assert (Hstr : Str.strip WebProcessor.underscore_or_hyphen f = f)
    by apply strip_idempotent.
  now rewrite Hlow, Hrep, Hfil, Hstr, Ef.
Qed.

Lemma in_run_member (c : N) (r : N * N * N * N) :
  Unicode.in_run c r = true -> In c (run_members r).
Proof.
  destruct r as [[[first last] step] image]. unfold Unicode.in_run, run_members.
  intros [[H1 H2]%andb_prop H3]%andb_prop.
  apply N.leb_le in H1, H2. apply N.eqb_eq in H3.
  apply List.in_map_iff. exists (N.to_nat ((c - first) / step)). split.
  - rewrite N2Nat.id.
    pose proof (N.Div0.div_mod (c - first) step) as Hdm.
    rewrite H3 in Hdm. lia.
  - apply List.in_seq. split; [apply Nat.le_0_l|].
    assert (Hle : ((c - first) / step <= (last - first) / step)%N)
      by (apply N.Div0.div_le_mono; lia).
    revert Hle. generalize ((c - first) / step)%N ((last - first) / step)%N.
    intros a b Hle. lia.
Qed.

(** every code point that lower-casing changes is in the table *)
Lemma to_lower_full_changed (c : N) :
  Unicode.to_lower_full c = [c] \/ In c lower_changed.
Proof.
  unfold Unicode.to_lower_full, lower_changed.
  destruct (c =? 304)%N eqn:E.
  - right. left. apply N.eqb_eq in E. now symmetry.
  - destruct (List.find (Unicode.in_run c) Unicode.lower_runs)
      as [r|] eqn:Ef; [|now left].
    right. right. apply List.find_some in Ef as [Hin Hrun].
    apply List.in_flat_map. exists r. split; [exact Hin|].
    now apply in_run_member.
Qed.

Lemma changed_settle :
  List.forallb (fun c => List.forallb settles (Unicode.to_lower_full c))
    lower_changed = true.
Proof. vm_compute. reflexivity. Qed.

(** Whatever a code point becomes in lower case is, after the replacement
    of the space, either dropped by the filter or settled. *)
Lemma to_lower_full_settles (c : N) :
  List.forallb settles (Unicode.to_lower_full c) = true.
Proof.
  destruct (to_lower_full_changed c) as [Hc|Hin].
  - rewrite Hc. cbn [List.forallb]. rewrite andb_true_r.
    unfold settles, underscored. destruct (c =? 32)%N eqn:E32.
    + vm_compute. reflexivity.
    + destruct (kept_code c) eqn:Ek; [|reflexivity]. cbn [implb].
      unfold settled_code. rewrite Ek, Hc, N.eqb_refl, E32. cbn [andb negb].
      destruct (c =? 931)%N eqn:E; [|reflexivity].
      apply N.eqb_eq in E. subst c. vm_compute in Hc. discriminate Hc.
  - pose proof changed_settle as H. rewrite List.forallb_forall in H.
    exact (H c Hin).
Qed.

Lemma lower_from_settles (before s : Unicode.ustr) :
  List.forallb settles (Unicode.lower_from before s) = true.
Proof.
  revert before. induction s as [|c rest IH]; intros before; [reflexivity|].
  cbn [Unicode.lower_from]. rewrite List.forallb_app, IH, andb_true_r.
  unfold Unicode.lower_at. destruct (c =? 931)%N.
  - destruct (Unicode.final_sigma before rest); vm_compute; reflexivity.
  - apply to_lower_full_settles.
Qed.

Lemma filtered_settled_code (s : Unicode.ustr) :
  List.forallb settles s = true ->
  List.forallb settled_code
    (List.filter kept_code (Unicode.replace_char 32 95 s)) = true.
Proof.
  unfold Unicode.replace_char.
  induction s as [|c s IH]; [reflexivity|].
  cbn [List.forallb List.map List.filter]. intros [Hc Hs]%andb_prop.
  unfold settles, underscored in Hc.
  destruct (kept_code (if (c =? 32)%N then 95%N else c)) eqn:Ek;
    [|now apply IH].
  cbn [implb] in Hc. cbn [List.forallb]. now rewrite Hc, IH.
Qed.

Lemma ulstrip_split (q : N -> bool) (s : Unicode.ustr) :
  exists d, s = d ++ Unicode.lstrip q s.
Proof.
  induction s as [|c s [d IH]]; cbn [Unicode.lstrip].
  - now exists [].
  - destruct (q c).
    + exists (c :: d). cbn [app]. now rewrite <- IH.
    + now exists [].
Qed.

Lemma urstrip_split (q : N -> bool) (s : Unicode.ustr) :
  exists d, s = Unicode.rstrip q s ++ d.
Proof.
  destruct (ulstrip_split q (List.rev s)) as [d Hd].
  exists (List.rev d). unfold Unicode.rstrip.
  rewrite <- List.rev_app_distr, <- Hd. symmetry. apply List.rev_involutive.
Qed.

Lemma forallb_ustrip (p q : N -> bool) (s : Unicode.ustr) :
  List.forallb p s = true -> List.forallb p (Unicode.strip q s) = true.
Proof.
  intros H. unfold Unicode.strip.
  destruct (ulstrip_split q s) as [d Hd].
  destruct (urstrip_split q (Unicode.lstrip q s)) as [e He].
  rewrite Hd, He, !List.forallb_app in H.
  now apply andb_prop in H as [_ [H _]%andb_prop].
Qed.

(** the first code point, if any, is not one of the stripped ones *)
Lemma ulstrip_head (q : N -> bool) (s : Unicode.ustr) :
  match Unicode.lstrip q s with
  | [] => True
  | c :: _ => q c = false
  end.
Proof.
  induction s as [|c s IH]; [exact I|]. cbn [Unicode.lstrip].
  destruct (q c) eqn:E; [exact IH | exact E].
Qed.

Lemma ulstrip_id (q : N -> bool) (s : Unicode.ustr) :
  match s with [] => True | c :: _ => q c = false end ->
  Unicode.lstrip q s = s.
Proof. destruct s as [|c s]; [reflexivity|]. cbn. now intros ->. Qed.

Lemma ulstrip_idempotent (q : N -> bool) (s : Unicode.ustr) :
  Unicode.lstrip q (Unicode.lstrip q s) = Unicode.lstrip q s.
Proof. apply ulstrip_id, ulstrip_head. Qed.

Lemma ustrip_idempotent (q : N -> bool) (s : Unicode.ustr) :
  Unicode.strip q (Unicode.strip q s) = Unicode.strip q s.
Proof.
  unfold Unicode.strip.
  set (m := Unicode.lstrip q s).
  assert (Hhead : match Unicode.rstrip q m with
                  | [] => True
                  | c :: _ => q c = false
                  end).
  { destruct (urstrip_split q m) as [d Hd].
    pose proof (ulstrip_head q s) as Hm. fold m in Hm.
    destruct (Unicode.rstrip q m) as [|c r]; [exact I|].
    rewrite Hd in Hm. exact Hm. }
  rewrite (ulstrip_id q _ Hhead). unfold Unicode.rstrip.
  now rewrite List.rev_involutive, ulstrip_idempotent.
Qed.

Lemma settled_code_facts (c : N) :
  settled_code c = true ->
  kept_code c = true /\ Unicode.to_lower_full c = [c]
  /\ (c =? 32)%N = false /\ (c =? 931)%N = false.
Proof.
  unfold settled_code.
  intros [[[Hk Hl]%andb_prop H32]%andb_prop Hs]%andb_prop.
  apply negb_true_iff in H32, Hs. repeat split; try assumption.
  destruct (Unicode.to_lower_full c) as [|d [|e l]]; try discriminate Hl.
  apply N.eqb_eq in Hl. now subst d.
Qed.

Lemma lower_settled (before s : Unicode.ustr) :
  List.forallb settled_code s = true -> Unicode.lower_from before s = s.
Proof.
  revert before. induction s as [|c s IH]; intros before; [reflexivity|].
  cbn [List.forallb Unicode.lower_from]. intros [Hc Hs]%andb_prop.
  destruct (settled_code_facts c Hc) as (_ & Hl & _ & Hsig).
  unfold Unicode.lower_at. rewrite Hsig, Hl. cbn [app]. now rewrite IH.
Qed.

Lemma replace_settled (s : Unicode.ustr) :
  List.forallb settled_code s = true -> Unicode.replace_char 32 95 s = s.
Proof.
  unfold Unicode.replace_char. induction s as [|c s IH]; [reflexivity|].
  cbn [List.forallb List.map]. intros [Hc Hs]%andb_prop.
  destruct (settled_code_facts c Hc) as (_ & _ & -> & _). now rewrite IH.
Qed.

Lemma filter_settled (s : Unicode.ustr) :
  List.forallb settled_code s = true -> List.filter kept_code s = s.
Proof.
  induction s as [|c s IH]; [reflexivity|].
  cbn [List.forallb List.filter]. intros [Hc Hs]%andb_prop.
  destruct (settled_code_facts c Hc) as (-> & _). now rewrite IH.
Qed.

(** The sanitized name is the fallback, or it is what the stripping leaves,
    which is not empty; all its code points are settled and stripping it
    again changes nothing. *)
Lemma sanitize_ustr_settled (x : Unicode.ustr) :
  WebProcessor.sanitize_ustr x <> []
  /\ List.forallb settled_code (WebProcessor.sanitize_ustr x) = true
  /\ Unicode.strip WebProcessor.underscore_or_hyphen_code (WebProcessor.sanitize_ustr x)
     = WebProcessor.sanitize_ustr x.
Proof.
  unfold WebProcessor.sanitize_ustr. fold kept_code.
  set (f := List.filter kept_code _).
  assert (Hf : List.forallb settled_code f = true)
    by apply filtered_settled_code, lower_from_settles.
  pose proof (forallb_ustrip settled_code WebProcessor.underscore_or_hyphen_code f Hf)
    as Hs.
  pose proof (ustrip_idempotent WebProcessor.underscore_or_hyphen_code f) as Hi.
  destruct (Unicode.strip WebProcessor.underscore_or_hyphen_code f) as [|c l].
  - split; [discriminate|]. split; vm_compute; reflexivity.
  - split; [discriminate|]. now split.
Qed.

Lemma sanitize_ustr_idempotent (x : Unicode.ustr) :
  WebProcessor.sanitize_ustr (WebProcessor.sanitize_ustr x) = WebProcessor.sanitize_ustr x.
Proof.
  destruct (sanitize_ustr_settled x) as (Hne & Hs & Hstrip).
  set (y := WebProcessor.sanitize_ustr x) in *.
  unfold WebProcessor.sanitize_ustr at 1. fold kept_code.
  unfold Unicode.lower. rewrite (lower_settled [] y Hs), (replace_settled y Hs),
    (filter_settled y Hs), Hstrip.
  destruct y; [congruence | reflexivity].
Qed.

(** *** Agreement with the sanitization of the run, on the Latin-1 range *)

Lemma of_string_cons (c : ascii) (s : string) :
  Unicode.of_string (String c s) = N_of_ascii c :: Unicode.of_string s.
Proof. reflexivity. Qed.

Lemma of_string_append (s t : string) :
  Unicode.of_string (s +:+ t) = Unicode.of_string s ++ Unicode.of_string t.
Proof.
  induction s as [|c s IH]; [reflexivity|].
  rewrite append_cons, !of_string_cons, IH. reflexivity.
Qed.

Lemma of_string_rev (s : string) :
  Unicode.of_string (Str.rev s) = List.rev (Unicode.of_string s).
Proof.
  induction s as [|c s IH]; [reflexivity|].
  rewrite rev_cons, of_string_append, IH, of_string_cons. reflexivity.
Qed.

Lemma of_string_inj (s t : string) :
  Unicode.of_string s = Unicode.of_string t -> s = t.
Proof.
  revert t. induction s as [|c s IH]; intros [|d t] H; try discriminate H.
  - reflexivity.
  - rewrite !of_string_cons in H. injection H as Hc Hs.
    f_equal; [|now apply IH].
    rewrite <- (ascii_N_embedding c), <- (ascii_N_embedding d).
    now rewrite Hc.
Qed.

Lemma lower_char_agrees (c : ascii) :
  (N_of_ascii c =? 931)%N = false
  /\ Unicode.to_lower_full (N_of_ascii c) = [N_of_ascii (Str.lower_char c)].
Proof.
  destruct c as [[] [] [] [] [] [] [] []]; split; vm_compute; reflexivity.
Qed.

Lemma underscored_agrees (c : ascii) :
  (if (N_of_ascii c =? 32)%N then 95%N else N_of_ascii c)
  = N_of_ascii (if Ascii.eqb c " " then "_"%char else c).
Proof. destruct c as [[] [] [] [] [] [] [] []]; vm_compute; reflexivity. Qed.

Lemma kept_agrees (c : ascii) :
  kept_code (N_of_ascii c)
  = Str.isalnum c || WebProcessor.underscore_or_hyphen c.
Proof. destruct c as [[] [] [] [] [] [] [] []]; vm_compute; reflexivity. Qed.

Lemma stripped_agrees (c : ascii) :
  WebProcessor.underscore_or_hyphen_code (N_of_ascii c)
  = WebProcessor.underscore_or_hyphen c.
Proof. destruct c as [[] [] [] [] [] [] [] []]; vm_compute; reflexivity. Qed.

Lemma lower_agrees (before : Unicode.ustr) (s : string) :
  Unicode.lower_from before (Unicode.of_string s)
  = Unicode.of_string (Str.lower s).
Proof.
  revert before. unfold Str.lower.
  induction s as [|c s IH]; intros before; [reflexivity|].
  cbn [Str.map]. rewrite !of_string_cons. cbn [Unicode.lower_from].
  unfold Unicode.lower_at.
  destruct (lower_char_agrees c) as [-> ->]. cbn [app]. now rewrite IH.
Qed.

Lemma replace_agrees (s : string) :
  Unicode.replace_char 32 95 (Unicode.of_string s)
  = Unicode.of_string (Str.replace_char " " "_" s).
Proof.
  unfold Unicode.replace_char, Str.replace_char.
  induction s as [|c s IH]; [reflexivity|].
  cbn [Str.map]. rewrite !of_string_cons. cbn [List.map].
  now rewrite underscored_agrees, IH.
Qed.

Lemma filter_agrees (s : string) :
  List.filter kept_code (Unicode.of_string s)
  = Unicode.of_string
      (Str.filter
         (fun c => Str.isalnum c || WebProcessor.underscore_or_hyphen c) s).
Proof.
  induction s as [|c s IH]; [reflexivity|].
  cbn [Str.filter]. rewrite of_string_cons. cbn [List.filter].
  rewrite kept_agrees.
  destruct (Str.isalnum c || WebProcessor.underscore_or_hyphen c);
    [rewrite of_string_cons|]; now rewrite IH.
Qed.

Lemma lstrip_agrees (s : string) :
  Unicode.lstrip WebProcessor.underscore_or_hyphen_code (Unicode.of_string s)
  = Unicode.of_string (Str.lstrip WebProcessor.underscore_or_hyphen s).
Proof.
  induction s as [|c s IH]; [reflexivity|].
  cbn [Str.lstrip]. rewrite of_string_cons. cbn [Unicode.lstrip].
  rewrite stripped_agrees.
  destruct (WebProcessor.underscore_or_hyphen c);
    [exact IH | now rewrite of_string_cons].
Qed.

Lemma strip_agrees (s : string) :
  Unicode.strip WebProcessor.underscore_or_hyphen_code (Unicode.of_string s)
  = Unicode.of_string (Str.strip WebProcessor.underscore_or_hyphen s).
Proof.
  unfold Unicode.strip, Str.strip, Unicode.rstrip, Str.rstrip.
  now rewrite lstrip_agrees, <- of_string_rev, lstrip_agrees, of_string_rev.
Qed.

(** On a string of the Latin-1 range the two sanitizations give the same
    name. *)
Lemma sanitize_agrees (s : string) :
  Unicode.of_string (WebProcessor.sanitize s)
  = WebProcessor.sanitize_ustr (Unicode.of_string s).
Proof.
  unfold WebProcessor.sanitize_ustr, WebProcessor.sanitize, Unicode.lower.
  fold kept_code.
  rewrite lower_agrees, replace_agrees, filter_agrees, strip_agrees.
  destruct (Str.strip _ _) as [|c r]; reflexivity.
Qed.

(** C9. Filename sanitization is idempotent: for every string [x] of
    Unicode code points, with the case mapping and the character classes of
    Python on all of them, sanitizing the sanitized name gives the
    sanitized name again.  The sanitization that the model of the run uses
    is the same function on the strings of the Latin-1 range, and so it is
    idempotent too. *)
Theorem sanitize_idempotent :
  (forall x : Unicode.ustr,
      WebProcessor.sanitize_ustr (WebProcessor.sanitize_ustr x)
      = WebProcessor.sanitize_ustr x)
  /\ (forall s : string,
        Unicode.of_string (WebProcessor.sanitize s)
        = WebProcessor.sanitize_ustr (Unicode.of_string s))
  /\ (forall s : string,
        WebProcessor.sanitize (WebProcessor.sanitize s)
        = WebProcessor.sanitize s).
Proof.
  split; [exact sanitize_ustr_idempotent|].
  split; [exact sanitize_agrees | exact sanitize_latin1_idempotent].
Qed.

(** ** URLs without fragment *)

Section Fragments.

Variable check_bracketed_netloc : string -> bool.
Variable nfkc_netloc_ok : string -> bool.

(** No component that [urlsplit] returns for the scheme, the host or the
    path holds a question mark or a hash, and the query holds no hash. *)
Lemma urlsplit_clean (url : string) (sr : Urllib.SplitResult) (c : ascii) :
  c = "?"%char \/ c = "#"%char ->
  Urllib.urlsplit check_bracketed_netloc nfkc_netloc_ok url "" = Ok sr ->
  Str.contains c (Urllib.s_scheme sr) = false
  /\ Str.contains c (Urllib.s_netloc sr) = false
  /\ Str.contains c (Urllib.s_path sr) = false
  /\ Str.contains "#" (Urllib.s_query sr) = false.
Proof.
  intros Hc. unfold Urllib.urlsplit.
  set (url1 := Urllib.remove_unsafe (Str.lstrip Urllib.c0_control_or_space url)).
  change (Urllib.remove_unsafe (Str.strip Urllib.c0_control_or_space ""))
    with "".
  set (i := Str.find ":" url1 0).
  set (cond := (0 <? i)%Z && _ && _).
  assert (Hscheme : Str.contains c (fst (if cond
            then (Str.lower (Str.take (Z.to_nat i) url1),
                  Str.drop (Z.to_nat (i + 1)) url1)
            else ("", url1))) = false).
  { destruct cond eqn:Econd; [|reflexivity]. cbn [fst].
    apply scheme_lower_clean; [exact Hc|].
    unfold cond in Econd. now apply andb_prop in Econd as [_ H]. }
  destruct (if cond then _ else _) as [sch url2]. cbn [fst] in Hscheme.
  assert (Hnetloc : forall nl rest,
            (if String.eqb (Str.take 2 url2) "//" then
               let '(netloc, url) := Urllib.splitnetloc url2 2 in
               let lb := Str.contains "[" netloc in
               let rb := Str.contains "]" netloc in
               if (lb && negb rb) || (rb && negb lb) then Raise ValueError
               else if lb && rb && negb (check_bracketed_netloc netloc)
               then Raise ValueError
               else Ok (netloc, url)
             else Ok ("", url2)) = Ok (nl, rest) ->
            Str.contains c nl = false).
  { intros nl rest. destruct (String.eqb (Str.take 2 url2) "//") eqn:E2.
    - assert (Hlen : 2 <= String.length url2).
      { apply String.eqb_eq in E2.
        destruct url2 as [|a [|b u]]; try discriminate E2.
        cbn [String.length]. lia. }
      pose proof (splitnetloc_netloc url2 c Hlen) as Hn.
      destruct (Urllib.splitnetloc url2 2) as [netloc u]. cbn [fst] in Hn.
      cbn zeta.
      destruct ((Str.contains "[" netloc && negb (Str.contains "]" netloc))
                || (Str.contains "]" netloc && negb (Str.contains "[" netloc)));
        [discriminate|].
      destruct (Str.contains "[" netloc && Str.contains "]" netloc
                && negb (check_bracketed_netloc netloc)); [discriminate|].
      intros H. injection H as <- <-. apply Hn.
      destruct Hc as [-> | ->]; cbn; tauto.
    - intros H. now injection H as <- <-. }
  destruct (if String.eqb (Str.take 2 url2) "//" then _ else _)
    as [[netloc url3]|e]; [|discriminate].
  specialize (Hnetloc netloc url3 eq_refl).
  cbn [rbind].
  assert (Hpath : forall u f,
            match Str.split1 "#" url3 with
            | Some (u, f) => (u, f)
            | None => (url3, "")
            end = (u, f) ->
            Str.contains c
              (fst (match Str.split1 "?" u with
                    | Some (u', q) => (u', q)
                    | None => (u, "")
                    end)) = false
            /\ Str.contains "#"
                 (snd (match Str.split1 "?" u with
                       | Some (u', q) => (u', q)
                       | None => (u, "")
                       end)) = false).
  { intros u f Hsplit.
    assert (Hu : Str.contains "#" u = false).
    { pose proof (split1_spec "#" url3) as Hh.
      destruct (Str.split1 "#" url3) as [[u0 f0]|].
      - injection Hsplit as <- <-. apply Hh.
      - now injection Hsplit as <- <-. }
    pose proof (split1_spec "?" u) as Hq.
    destruct (Str.split1 "?" u) as [[u' q]|]; cbn [fst snd].
    - destruct Hq as [-> Hu']. rewrite contains_append in Hu.
      apply orb_false_elim in Hu as [Hu1 Hu2]. cbn [Str.contains] in Hu2.
      split; [destruct Hc as [-> | ->]; assumption | exact Hu2].
    - split; [destruct Hc as [-> | ->]; assumption | reflexivity]. }
  destruct (match Str.split1 "#" url3 with
            | Some (u, f) => (u, f)
            | None => (url3, "")
            end) as [u f].
  specialize (Hpath u f eq_refl).
  destruct (match Str.split1 "?" u with
            | Some (u', q) => (u', q)
            | None => (u, "")
            end) as [u' q].
  cbn [fst snd] in Hpath. destruct Hpath as [Hp Hq].
  destruct (Urllib.checknetloc nfkc_netloc_ok netloc); [|discriminate].
  intros H. injection H as <-. cbn. now repeat split.
Qed.

Lemma urlparse_clean (url : string) (p : Urllib.ParseResult) (c : ascii) :
  c = "?"%char \/ c = "#"%char ->
  WebProcessor.urlparse check_bracketed_netloc nfkc_netloc_ok url = Ok p ->
  Str.contains c (Urllib.scheme p) = false
  /\ Str.contains c (Urllib.netloc p) = false
  /\ Str.contains c (Urllib.path p) = false
  /\ Str.contains "#" (Urllib.params p) = false
  /\ Str.contains "#" (Urllib.query p) = false.
Proof.
  intros Hc. unfold WebProcessor.urlparse, Urllib.urlparse.
  destruct (Urllib.urlsplit _ _ url "") as [sr|e] eqn:Es; [|discriminate].
  destruct (urlsplit_clean url sr c Hc Es) as (H1 & H2 & H3 & H4).
  destruct (urlsplit_clean url sr "#" (or_intror eq_refl) Es)
    as (_ & _ & H3' & _).
  cbn [rbind].
  assert (Hp : Str.contains c
            (fst (if Str.mem (Urllib.s_scheme sr) Urllib.uses_params
                     && Str.contains ";" (Urllib.s_path sr)
                  then Urllib.splitparams (Urllib.s_path sr)
                  else (Urllib.s_path sr, ""))) = false
          /\ Str.contains "#"
            (snd (if Str.mem (Urllib.s_scheme sr) Urllib.uses_params
                     && Str.contains ";" (Urllib.s_path sr)
                  then Urllib.splitparams (Urllib.s_path sr)
                  else (Urllib.s_path sr, ""))) = false).
  { destruct (_ && _); [|now split]. unfold Urllib.splitparams.
    destruct (Str.contains "/" (Urllib.s_path sr)).
    - destruct (_ <? 0)%Z; cbn [fst snd];
        [now split | split; [now apply contains_take | now apply contains_drop]].
    - cbn [fst snd]. split; [now apply contains_take | now apply contains_drop]. }
  destruct (if Str.mem (Urllib.s_scheme sr) Urllib.uses_params
                 && Str.contains ";" (Urllib.s_path sr)
            then Urllib.splitparams (Urllib.s_path sr)
            else (Urllib.s_path sr, "")) as [u params].
  cbn [fst snd] in Hp. destruct Hp as [Hp Hpar].
  intros H. injection H as <-. cbn. now repeat split.
Qed.

(** [urlunsplit] without fragment adds no hash *)
Lemma urlunsplit_no_hash (sch nl url q : string) :
  Str.contains "#" sch = false -> Str.contains "#" nl = false ->
  Str.contains "#" url = false -> Str.contains "#" q = false ->
  Str.contains "#" (Urllib.urlunsplit sch nl url q "") = false.
Proof.
  intros Hs Hn Hu Hq. unfold Urllib.urlunsplit. cbn [Str.is_empty negb].
  repeat match goal with
         | |- context [if ?b then _ else _] => destruct b
         end;
    rewrite ?contains_append, ?Hs, ?Hn, ?Hu, ?Hq; reflexivity.
Qed.

(** The URL without fragment has no hash in it. *)
Lemma url_without_fragment_no_hash (url key : string) :
  WebProcessor.url_without_fragment check_bracketed_netloc nfkc_netloc_ok url
  = Ok key ->
  Str.contains "#" key = false.
Proof.
  unfold WebProcessor.url_without_fragment. intros H.
  destruct (WebProcessor.urlparse _ _ url) as [p|e] eqn:Ep; [|discriminate H].
  cbn [rbind] in H. injection H as <-.
  destruct (urlparse_clean url p "#" (or_intror eq_refl) Ep)
    as (H1 & H2 & H3 & H4 & H5).
  unfold Urllib.urlunparse, Urllib.replace_fragment.
  cbn [Urllib.scheme Urllib.netloc Urllib.path Urllib.params Urllib.query
       Urllib.fragment].
  apply urlunsplit_no_hash; try assumption.
  destruct (negb _); [|exact H3].
  rewrite !contains_append, H3, H4. reflexivity.
Qed.

(** A URL without a hash has no fragment. *)
Lemma no_hash_no_fragment (url : string) (p : Urllib.ParseResult) :
  Str.contains "#" url = false ->
  WebProcessor.urlparse check_bracketed_netloc nfkc_netloc_ok url = Ok p ->
  Urllib.fragment p = "".
Proof.
  intros Hurl. unfold WebProcessor.urlparse, Urllib.urlparse, Urllib.urlsplit.
  set (url1 := Urllib.remove_unsafe (Str.lstrip Urllib.c0_control_or_space url)).
  assert (H1 : Str.contains "#" url1 = false).
  { unfold url1, Urllib.remove_unsafe, Str.remove_char.
    now apply contains_filter, contains_filter, contains_filter,
      contains_lstrip. }
  clearbody url1.
  change (Urllib.remove_unsafe (Str.strip Urllib.c0_control_or_space ""))
    with "".
  set (i := Str.find ":" url1 0).
  set (cond := (0 <? i)%Z && _ && _).
  assert (H2 : Str.contains "#" (snd (if cond
            then (Str.lower (Str.take (Z.to_nat i) url1),
                  Str.drop (Z.to_nat (i + 1)) url1)
            else ("", url1))) = false).
  { destruct cond; cbn [snd]; [now apply contains_drop | exact H1]. }
  destruct (if cond then _ else _) as [sch url2]. cbn [snd] in H2.
  assert (H3 : forall nl rest,
            (if String.eqb (Str.take 2 url2) "//" then
               let '(netloc, url) := Urllib.splitnetloc url2 2 in
               let lb := Str.contains "[" netloc in
               let rb := Str.contains "]" netloc in
               if (lb && negb rb) || (rb && negb lb) then Raise ValueError
               else if lb && rb && negb (check_bracketed_netloc netloc)
               then Raise ValueError
               else Ok (netloc, url)
             else Ok ("", url2)) = Ok (nl, rest) ->
            Str.contains "#" rest = false).
  { intros nl rest. destruct (String.eqb (Str.take 2 url2) "//").
    - unfold Urllib.splitnetloc. cbn zeta.
      destruct (_ || _); [discriminate|].
      destruct (_ && negb (check_bracketed_netloc _)); [discriminate|].
      intros H. injection H as <- <-. now apply contains_drop.
    - intros H. now injection H as <- <-. }
  destruct (if String.eqb (Str.take 2 url2) "//" then _ else _)
    as [[netloc url3]|e]; [|discriminate].
  specialize (H3 netloc url3 eq_refl). cbn [rbind].
  pose proof (split1_spec "#" url3) as Hh.
  destruct (Str.split1 "#" url3) as [[u f]|].
  { destruct Hh as [-> _]. rewrite contains_append in H3.
    cbn [Str.contains] in H3. rewrite Ascii.eqb_refl, orb_true_r in H3.
    discriminate H3. }
  destruct (match Str.split1 "?" url3 with
            | Some (u', q) => (u', q)
            | None => (url3, "")
            end) as [u' q].
  destruct (Urllib.checknetloc nfkc_netloc_ok netloc); [|discriminate].
  cbn [rbind Urllib.s_scheme Urllib.s_path Urllib.s_fragment].
  destruct (if _ && _ then _ else _) as [u params].
  intros H. now injection H as <-.
Qed.

End Fragments.

(** ** Link collection *)

Lemma startswith_prefix (s p : string) :
  Str.startswith s p = true <-> exists rest, s = p +:+ rest.
Proof.
  revert s. induction p as [|a p IH]; intros s.
  - split; [intros _; now exists s | now destruct s].
  - destruct s as [|b s]; cbn [Str.startswith].
    + split; [discriminate | intros [r Hr]; discriminate Hr].
    + rewrite andb_true_iff, Ascii.eqb_eq, IH. split.
      * intros [-> [r ->]]. now exists r.
      * intros [r Hr]. rewrite append_cons in Hr. injection Hr as -> ->.
        split; [reflexivity | now exists r].
Qed.

Lemma has_key_In (key : string) (m : WebProcessor.links_map) :
  WebProcessor.has_key key m = true <-> In key (List.map fst m).
Proof.
  unfold WebProcessor.has_key. rewrite existsb_exists, in_map_iff. split.
  - intros [kv [Hin Heq]]. apply String.eqb_eq in Heq. now exists kv.
  - intros [kv [Heq Hin]]. exists kv. split; [exact Hin|].
    now apply String.eqb_eq.
Qed.

Lemma index_of_In (key : string) (keys : list string) :
  In key keys ->
  WebProcessor.index_of key keys < List.length keys
  /\ nth_error keys (WebProcessor.index_of key keys) = Some key.
Proof.
  induction keys as [|k keys IH]; [intros []|].
  intros Hin. cbn [WebProcessor.index_of].
  destruct (String.eqb key k) eqn:E.
  - apply String.eqb_eq in E as ->. simpl. split; [lia | reflexivity].
  - apply String.eqb_neq in E.
    destruct Hin as [->|Hin]; [congruence|].
    destruct (IH Hin) as [H1 H2]. simpl. split; [lia | exact H2].
Qed.

Lemma index_of_app_In (key : string) (keys more : list string) :
  In key keys ->
  WebProcessor.index_of key (keys ++ more) = WebProcessor.index_of key keys.
Proof.
  induction keys as [|k keys IH]; [intros []|].
  intros Hin. cbn [WebProcessor.index_of app].
  destruct (String.eqb key k) eqn:E; [reflexivity|].
  apply String.eqb_neq in E.
  destruct Hin as [->|Hin]; [congruence|]. now rewrite IH.
Qed.

Lemma index_of_app_fresh (key : string) (keys more : list string) :
  ~ In key keys ->
  WebProcessor.index_of key (keys ++ key :: more) = List.length keys.
Proof.
  induction keys as [|k keys IH]; intros Hnin.
  - cbn. now rewrite String.eqb_refl.
  - cbn [WebProcessor.index_of app List.length].
    destruct (String.eqb key k) eqn:E.
    + apply String.eqb_eq in E as ->. exfalso. apply Hnin. now left.
    + rewrite IH; [reflexivity|]. intros H. apply Hnin. now right.
Qed.

Lemma collected_key_seen scope seen m e :
  collected scope seen m -> In e m -> In (fst e) (List.map fst seen).
Proof.
  intros H Hin. apply in_map_iff. exists e. split; [reflexivity|].
  eapply nth_error_In, (coll_first _ _ _ H e Hin).
Qed.

Lemma collected_nil scope : collected scope [] [].
Proof.
  split.
  - constructor.
  - intros e [].
  - intros e [].
  - intros i j e1 e2 _ H. destruct i; discriminate H.
  - intros c [].
Qed.

Lemma collected_step scope seen m e :
  collected scope seen m ->
  collected scope (seen ++ [e]) (WebProcessor.keep_link scope m e).
Proof.
  intros H. unfold WebProcessor.keep_link.
  assert (Hold : forall e', In e' m ->
            WebProcessor.index_of (fst e') (List.map fst (seen ++ [e]))
            = WebProcessor.index_of (fst e') (List.map fst seen)
            /\ WebProcessor.index_of (fst e') (List.map fst seen)
               < List.length seen).
  { intros e' Hin. rewrite List.map_app.
    pose proof (collected_key_seen _ _ _ _ H Hin) as Hk.
    split; [now apply index_of_app_In|].
    destruct (index_of_In _ _ Hk) as [Hlt _].
    now rewrite List.length_map in Hlt. }
  destruct (Str.startswith (fst e) scope) eqn:Es;
    [destruct (WebProcessor.has_key (fst e) m) eqn:Ek|]; cbn [andb negb].
  - (* in scope, key already present *)
    apply has_key_In in Ek. split.
    + apply (coll_nodup _ _ _ H).
    + apply (coll_scope _ _ _ H).
    + intros e' Hin. destruct (Hold e' Hin) as [-> Hlt].
      rewrite nth_error_app1 by exact Hlt. now apply (coll_first _ _ _ H).
    + intros i j e1 e2 Hij H1 H2.
      destruct (Hold e1 (nth_error_In _ _ H1)) as [-> _].
      destruct (Hold e2 (nth_error_In _ _ H2)) as [-> _].
      now apply (coll_order _ _ _ H i j).
    + intros c [Hc|Hc]%in_app_or Hs.
      * now apply (coll_all _ _ _ H).
      * destruct Hc as [<-|[]]. exact Ek.
  - (* in scope, new key *)
    assert (Hnew : ~ In (fst e) (List.map fst m)).
    { intros Hin. apply has_key_In in Hin. congruence. }
    assert (Hfresh : ~ In (fst e) (List.map fst seen)).
    { intros [c [Hc Hin]]%in_map_iff. apply Hnew. rewrite <- Hc.
      apply (coll_all _ _ _ H c Hin). now rewrite Hc. }
    assert (Hidx : WebProcessor.index_of (fst e) (List.map fst (seen ++ [e]))
                   = List.length seen).
    { rewrite List.map_app. cbn [List.map].
      rewrite index_of_app_fresh by exact Hfresh. apply List.length_map. }
    split.
    + rewrite List.map_app. cbn [List.map].
      apply NoDup_app. split; [apply (coll_nodup _ _ _ H)|].
      split; [|apply NoDup_singleton].
      intros k Hk ->%list_elem_of_singleton.
      now apply Hnew, list_elem_of_In.
    + intros e' [Hin|[<-|[]]]%in_app_or; [|exact Es].
      now apply (coll_scope _ _ _ H).
    + intros e' [Hin|[<-|[]]]%in_app_or.
      * destruct (Hold e' Hin) as [-> Hlt].
        rewrite nth_error_app1 by exact Hlt. now apply (coll_first _ _ _ H).
      * rewrite Hidx, nth_error_app2 by lia.
        now rewrite Nat.sub_diag.
    + intros i j e1 e2 Hij H1 H2.
      assert (Hi : i < List.length m).
      { assert (Hj : j < List.length (m ++ [e]))
          by (apply nth_error_Some; congruence).
        rewrite List.length_app in Hj. cbn in Hj. lia. }
      rewrite nth_error_app1 in H1 by exact Hi.
      destruct (Hold e1 (nth_error_In _ _ H1)) as [-> Hlt1].
      destruct (Nat.lt_ge_cases j (List.length m)) as [Hj|Hj].
      * rewrite nth_error_app1 in H2 by exact Hj.
        destruct (Hold e2 (nth_error_In _ _ H2)) as [-> _].
        now apply (coll_order _ _ _ H i j).
      * rewrite nth_error_app2 in H2 by exact Hj.
        destruct (j - List.length m) as [|n] eqn:En;
          [|destruct n; discriminate H2].
        injection H2 as <-. now rewrite Hidx.
    + intros c [Hc|Hc]%in_app_or Hs; rewrite List.map_app; apply in_or_app.
      * left. now apply (coll_all _ _ _ H).
      * destruct Hc as [<-|[]]. right. now left.
  - (* out of scope *)
    split.
    + apply (coll_nodup _ _ _ H).
    + apply (coll_scope _ _ _ H).
    + intros e' Hin. destruct (Hold e' Hin) as [-> Hlt].
      rewrite nth_error_app1 by exact Hlt. now apply (coll_first _ _ _ H).
    + intros i j e1 e2 Hij H1 H2.
      destruct (Hold e1 (nth_error_In _ _ H1)) as [-> _].
      destruct (Hold e2 (nth_error_In _ _ H2)) as [-> _].
      now apply (coll_order _ _ _ H i j).
    + intros c [Hc|Hc]%in_app_or Hs.
      * now apply (coll_all _ _ _ H).
      * destruct Hc as [<-|[]]. congruence.
Qed.

Lemma collected_fold scope rest seen m :
  collected scope seen m ->
  collected scope (seen ++ rest)
    (fold_left (WebProcessor.keep_link scope) rest m).
Proof.
  revert seen m. induction rest as [|e rest IH]; intros seen m H.
  - now rewrite List.app_nil_r.
  - cbn [fold_left].
    replace (seen ++ e :: rest) with ((seen ++ [e]) ++ rest)
      by now rewrite <- List.app_assoc.
    apply IH. now apply collected_step.
Qed.

Section Collector.

Variable check_bracketed_netloc : string -> bool.
Variable nfkc_netloc_ok : string -> bool.

Local Abbreviation urljoin := (WebProcessor.urljoin check_bracketed_netloc nfkc_netloc_ok).
Local Abbreviation url_without_fragment :=
  (WebProcessor.url_without_fragment check_bracketed_netloc nfkc_netloc_ok).
Local Abbreviation parent_url_base :=
  (WebProcessor.parent_url_base check_bracketed_netloc nfkc_netloc_ok).
Local Abbreviation collect_loop :=
  (WebProcessor.collect_loop check_bracketed_netloc nfkc_netloc_ok).
Local Abbreviation resolved_links :=
  (WebProcessor.resolved_links check_bracketed_netloc nfkc_netloc_ok).
Local Abbreviation unique_links :=
  (WebProcessor.unique_links check_bracketed_netloc nfkc_netloc_ok).
Local Abbreviation filtered_links_info :=
  (WebProcessor.filtered_links_info check_bracketed_netloc nfkc_netloc_ok).

(** The loop of the program is the fold of [keep_link] over the resolved
    anchors. *)
Lemma collect_loop_fold start_url scope links m m' :
  collect_loop start_url scope links m = Ok m' ->
  exists seen,
    resolved_links start_url links = Ok seen
    /\ m' = fold_left (WebProcessor.keep_link scope) seen m.
Proof.
  revert m. induction links as [|link rest IH]; intros m H.
  - injection H as <-. now exists [].
  - cbn [WebProcessor.collect_loop WebProcessor.resolved_links] in *.
    destruct (Str.is_empty (WebProcessor.href link)); [now apply IH|].
    destruct (urljoin start_url (WebProcessor.href link)) as [link_url|];
      [|discriminate H].
    cbn [rbind] in *.
    destruct (url_without_fragment link_url) as [key|]; [|discriminate H].
    cbn [rbind] in *.
    assert (Hstep : collect_loop start_url scope rest
              (WebProcessor.keep_link scope m (key, (link, link_url)))
            = Ok m').
    { unfold WebProcessor.keep_link. cbn [fst].
      destruct (Str.startswith key scope && negb (WebProcessor.has_key key m));
        exact H. }
    destruct (IH _ Hstep) as [seen [Hseen Hm']].
    rewrite Hseen. cbn [rbind].
    exists ((key, (link, link_url)) :: seen). split; [reflexivity|].
    exact Hm'.
Qed.

(** Every resolved anchor is an anchor of the element with a non-empty
    [href]; its URL is the [href] joined to the start URL, and its key is
    that URL without its fragment. *)
Lemma resolved_links_sound start_url links seen :
  resolved_links start_url links = Ok seen ->
  forall key tag link_url, In (key, (tag, link_url)) seen ->
    In tag links
    /\ Str.is_empty (WebProcessor.href tag) = false
    /\ urljoin start_url (WebProcessor.href tag) = Ok link_url
    /\ url_without_fragment link_url = Ok key.
Proof.
  revert seen. induction links as [|link rest IH]; intros seen H.
  - injection H as <-. intros ? ? ? [].
  - cbn [WebProcessor.resolved_links] in H.
    destruct (Str.is_empty (WebProcessor.href link)) eqn:Eh.
    { intros key tag link_url Hin.
      destruct (IH _ H _ _ _ Hin) as (? & ? & ? & ?).
      repeat split; try assumption. now right. }
    destruct (urljoin start_url (WebProcessor.href link)) as [u|] eqn:Eu;
      [|discriminate H].
    cbn [rbind] in H.
    destruct (url_without_fragment u) as [k|] eqn:Ek; [|discriminate H].
    cbn [rbind] in H.
    destruct (resolved_links start_url rest) as [r|]; [|discriminate H].
    cbn [rbind] in H. injection H as <-.
    intros key tag link_url [Heq|Hin].
    + injection Heq as <- <- <-. repeat split; try assumption. now left.
    + destruct (IH _ eq_refl _ _ _ Hin) as (? & ? & ? & ?).
      repeat split; try assumption. now right.
Qed.

Lemma unique_links_collected start_url links m :
  unique_links start_url links = Ok m ->
  exists scope seen,
    parent_url_base start_url = Ok scope
    /\ resolved_links start_url links = Ok seen
    /\ collected scope seen m.
Proof.
  unfold WebProcessor.unique_links. intros H.
  destruct (parent_url_base start_url) as [scope|]; [|discriminate H].
  cbn [rbind] in H.
  destruct (collect_loop_fold _ _ _ _ _ H) as [seen [Hseen ->]].
  exists scope, seen. split; [reflexivity|]. split; [exact Hseen|].
  apply (collected_fold scope seen [] []), collected_nil.
Qed.

(** C1. Whenever the link collection returns, for any start URL and any
    anchors of the link-source element: the URLs without fragment of the
    entries ([keys]) are pairwise distinct, each entry is the first anchor
    in document order with its key (tag and URL of that anchor), the entries
    are in the order of these first occurrences, and every key starts with
    the scope derived from the start URL.  The keys are stripped of their
    fragment: no key holds a hash, and a key that is parsed again has an
    empty fragment. *)
Theorem link_collection_properties (start_url : string)
    (links : list WebProcessor.Tag) (out : list (WebProcessor.Tag * string)) :
  filtered_links_info start_url links = Ok out ->
  exists scope seen keys,
    parent_url_base start_url = Ok scope
    /\ resolved_links start_url links = Ok seen
    /\ Forall2 (fun o k => url_without_fragment (snd o) = Ok k) out keys
    /\ NoDup keys
    /\ (forall i k o, nth_error keys i = Some k -> nth_error out i = Some o ->
          nth_error seen (WebProcessor.index_of k (List.map fst seen))
          = Some (k, o))
    /\ (forall i j k1 k2, i < j ->
          nth_error keys i = Some k1 -> nth_error keys j = Some k2 ->
          WebProcessor.index_of k1 (List.map fst seen)
          < WebProcessor.index_of k2 (List.map fst seen))
    /\ Forall (fun k => exists rest, k = scope +:+ rest) keys
    /\ Forall
         (fun k =>
            Str.contains "#" k = false
            /\ forall p,
                 WebProcessor.urlparse check_bracketed_netloc nfkc_netloc_ok k
                 = Ok p ->
                 Urllib.fragment p = "") keys.
Proof.
  unfold WebProcessor.filtered_links_info. intros H.
  destruct (unique_links start_url links) as [m|] eqn:Em; [|discriminate H].
  cbn [rbind] in H. injection H as <-.
  destruct (unique_links_collected _ _ _ Em) as (scope & seen & Hs & Hr & Hc).
  exists scope, seen, (List.map fst m).
  split; [exact Hs|]. split; [exact Hr|].
  assert (Hentry : forall i k o, nth_error (List.map fst m) i = Some k ->
            nth_error (List.map snd m) i = Some o ->
            nth_error m i = Some (k, o)).
  { intros i k o Hk Ho. rewrite nth_error_map in Hk, Ho.
    destruct (nth_error m i) as [[k' o']|]; [|discriminate Hk].
    cbn in Hk, Ho. congruence. }
  assert (Hall : forall e, In e m ->
            url_without_fragment (snd (snd e)) = Ok (fst e)).
  { intros [k [tag u]] Hin.
    pose proof (coll_first _ _ _ Hc _ Hin) as Hnth.
    apply nth_error_In in Hnth.
    now destruct (resolved_links_sound _ _ _ Hr _ _ _ Hnth) as (_ & _ & _ & ?). }
  split; [|split; [|split; [|split; [|split]]]].
  6:{ apply List.Forall_forall. intros k [e [<- Hin]]%in_map_iff.
      pose proof (url_without_fragment_no_hash _ _ _ _ (Hall e Hin)) as Hk.
      split; [exact Hk|]. intros p Hp.
      exact (no_hash_no_fragment _ _ _ _ Hk Hp). }
  - clear -Hall. induction m as [|e m IH]; cbn [List.map]; constructor.
    + apply Hall. now left.
    + apply IH. intros e' He'. apply Hall. now right.
  - apply (coll_nodup _ _ _ Hc).
  - intros i k o Hk Ho. pose proof (Hentry _ _ _ Hk Ho) as He.
    apply (coll_first _ _ _ Hc (k, o)). eapply nth_error_In, He.
  - intros i j k1 k2 Hij H1 H2. rewrite nth_error_map in H1, H2.
    destruct (nth_error m i) as [e1|] eqn:E1; [|discriminate H1].
    destruct (nth_error m j) as [e2|] eqn:E2; [|discriminate H2].
    cbn in H1, H2. injection H1 as <-. injection H2 as <-.
    now apply (coll_order _ _ _ Hc i j).
  - apply List.Forall_forall. intros k [e [<- Hin]]%in_map_iff.
    apply startswith_prefix, (coll_scope _ _ _ Hc e Hin).
Qed.

End Collector.

(** ** Scenario A *)

(** C2. For the start URL https://ex.com/docs/index.html and anchors to
    /docs/a.html, /docs/b.html#sec, ../other/c.html and https://other.com/x,
    the scope is https://ex.com/docs/ and the collected link set is
    https://ex.com/docs/a.html, https://ex.com/docs/b.html in that order:
    c.html and the external link are left out, and the key of the second
    entry has no fragment; stripping the fragment of each collected entry,
    as the processing loop does, gives the same two URLs. *)
Theorem scenario_A_link_set (check_bracketed_netloc nfkc_netloc_ok
    : string -> bool) :
  WebProcessor.parent_url_base check_bracketed_netloc nfkc_netloc_ok
    scenario_A_start_url = Ok "https://ex.com/docs/"
  /\ link_set check_bracketed_netloc nfkc_netloc_ok scenario_A_start_url
       scenario_A_links
     = Ok ["https://ex.com/docs/a.html"; "https://ex.com/docs/b.html"]
  /\ exists out,
       WebProcessor.filtered_links_info check_bracketed_netloc nfkc_netloc_ok
         scenario_A_start_url scenario_A_links = Ok out
       /\ List.map
            (fun o => WebProcessor.url_without_fragment check_bracketed_netloc
                        nfkc_netloc_ok (snd o)) out
          = [Ok "https://ex.com/docs/a.html"; Ok "https://ex.com/docs/b.html"]
       /\ List.map (fun o => WebProcessor.link_text (fst o)) out = ["A"; "B"].
Proof.
  split; [vm_compute; reflexivity|].
  split; [vm_compute; reflexivity|].
  eexists. split; [vm_compute; reflexivity|].
  split; vm_compute; reflexivity.
Qed.

Lemma link_collection_properties_witness :
  exists scope seen keys,
    WebProcessor.parent_url_base WebProcessor.always WebProcessor.always
      scenario_A_start_url = Ok scope
    /\ WebProcessor.resolved_links WebProcessor.always WebProcessor.always
         scenario_A_start_url scenario_A_links = Ok seen
    /\ Forall2
         (fun o k =>
            WebProcessor.url_without_fragment WebProcessor.always
              WebProcessor.always (snd o) = Ok k)
         [(WebProcessor.mkTag "/docs/a.html" "A", "https://ex.com/docs/a.html");
          (WebProcessor.mkTag "/docs/b.html#sec" "B",
           "https://ex.com/docs/b.html#sec")]
         keys
    /\ NoDup keys
    /\ (forall i k o, nth_error keys i = Some k ->
          nth_error
            [(WebProcessor.mkTag "/docs/a.html" "A",
              "https://ex.com/docs/a.html");
             (WebProcessor.mkTag "/docs/b.html#sec" "B",
              "https://ex.com/docs/b.html#sec")] i = Some o ->
          nth_error seen (WebProcessor.index_of k (List.map fst seen))
          = Some (k, o))
    /\ (forall i j k1 k2, i < j ->
          nth_error keys i = Some k1 -> nth_error keys j = Some k2 ->
          WebProcessor.index_of k1 (List.map fst seen)
          < WebProcessor.index_of k2 (List.map fst seen))
    /\ Forall (fun k => exists rest, k = scope +:+ rest) keys
    /\ Forall
         (fun k =>
            Str.contains "#" k = false
            /\ forall p,
                 WebProcessor.urlparse WebProcessor.always WebProcessor.always
                   k = Ok p ->
                 Urllib.fragment p = "") keys.
Proof.
  apply (link_collection_properties WebProcessor.always WebProcessor.always
           scenario_A_start_url scenario_A_links).
  vm_compute. reflexivity.
Defined.

(** ** Filename uniqueness *)

Lemma append_inj_r (s t u : string) : s +:+ u = t +:+ u -> s = t.
Proof.
  intros H. apply (f_equal Str.rev) in H. rewrite !rev_append in H.
  apply (inj (String.app (Str.rev u))) in H.
  apply (f_equal Str.rev) in H. now rewrite !rev_involutive in H.
Qed.

Lemma of_nat_inj (j k : nat) : Str.of_nat j = Str.of_nat k -> j = k.
Proof.
  unfold Str.of_nat. intros H.
  apply (f_equal NilEmpty.uint_of_string) in H.
  rewrite !NilEmpty.usu in H. injection H as H.
  apply (f_equal Nat.of_uint) in H. now rewrite !DecimalNat.Unsigned.of_to in H.
Qed.

(** [os.path.join(dir, b)] keeps [b] apart for names that agree on whether
    they start with a slash. *)
Lemma join2_inj (dir b b' : string) :
  Str.startswith b "/" = Str.startswith b' "/" ->
  Posixpath.join2 dir b = Posixpath.join2 dir b' -> b = b'.
Proof.
  unfold Posixpath.join2. intros <-.
  destruct (Str.startswith b "/"); [tauto|].
  destruct (Str.is_empty dir || Str.endswith dir "/").
  - apply (inj (String.app dir)).
  - intros H. apply (inj (String.app dir)) in H.
    now apply (inj (String.app "/")) in H.
Qed.

Lemma startswith_slash_cons (c : ascii) (s : string) :
  Str.startswith (String c s) "/" = Ascii.eqb "/" c.
Proof. cbn [Str.startswith]. destruct s; apply andb_true_r. Qed.

Lemma candidate_slash (dir stem : string) (k : nat) :
  exists name, candidate dir stem k = Posixpath.join2 dir (name +:+ ".md")
    /\ Str.startswith (name +:+ ".md") "/" = Str.startswith (stem +:+ ".md") "/"
    /\ name = match k with O => stem | S _ => WebProcessor.numbered stem k end.
Proof.
  destruct k as [|k].
  - now exists stem.
  - exists (WebProcessor.numbered stem (S k)). split; [reflexivity|].
    split; [|reflexivity]. unfold WebProcessor.numbered.
    destruct stem as [|c stem]; [reflexivity|].
    now rewrite !append_cons, !startswith_slash_cons.
Qed.

Lemma numbered_inj (stem : string) (j k : nat) :
  WebProcessor.numbered stem j = WebProcessor.numbered stem k -> j = k.
Proof.
  unfold WebProcessor.numbered. intros H.
  apply (inj (String.app stem)) in H.
  apply (inj (String.app "_")) in H. now apply of_nat_inj.
Qed.

Lemma numbered_not_stem (stem : string) (k : nat) :
  WebProcessor.numbered stem k +:+ ".md" <> stem +:+ ".md".
Proof.
  unfold WebProcessor.numbered. rewrite append_assoc. intros H.
  apply (inj (String.app stem)) in H.
  rewrite append_cons in H. discriminate H.
Qed.

Lemma candidate_inj (dir stem : string) (j k : nat) :
  candidate dir stem j = candidate dir stem k -> j = k.
Proof.
  destruct (candidate_slash dir stem j) as (nj & -> & Hj & Ej).
  destruct (candidate_slash dir stem k) as (nk & -> & Hk & Ek).
  intros H. apply join2_inj in H; [|congruence].
  destruct j as [|j], k as [|k]; subst nj nk; [reflexivity| | |].
  - symmetry in H. now apply numbered_not_stem in H.
  - now apply numbered_not_stem in H.
  - apply append_inj_r in H. now apply numbered_inj in H.
Qed.

(** The loop returns the first free candidate, when its fuel reaches it. *)
Lemma unique_loop_first_free (present : string -> bool) (dir stem : string)
    (k : nat) :
  present (candidate dir stem k) = false ->
  forall fuel j, j <= k -> k - j <= fuel ->
    (forall i, j <= i -> i < k -> present (candidate dir stem i) = true) ->
    WebProcessor.unique_loop fuel present dir stem (candidate dir stem j) (S j)
    = Some (candidate dir stem k).
Proof.
  intros Hfree fuel. induction fuel as [|fuel IH]; intros j Hjk Hfuel Hocc.
  - assert (j = k) as -> by lia. cbn [WebProcessor.unique_loop].
    now rewrite Hfree.
  - cbn [WebProcessor.unique_loop].
    destruct (Nat.eq_dec j k) as [->|Hne]; [now rewrite Hfree|].
    rewrite (Hocc j) by lia.
    change (WebProcessor.md_path dir (WebProcessor.numbered stem (S j)))
      with (candidate dir stem (S j)).
    apply IH; [lia | lia |]. intros i Hi Hik. apply Hocc; lia.
Qed.

(** A finite file system cannot hold all of the first [size + 1]
    candidates. *)
Lemma candidates_not_all_present (fs : gmap string Codec.text)
    (dir stem : string) :
  ~ (forall i, i <= size fs -> is_Some (fs !! candidate dir stem i)).
Proof.
  intros Hall.
  set (names := candidate dir stem <$> seq 0 (S (size fs))).
  assert (Hnodup : NoDup names).
  { apply NoDup_fmap_2_strong; [|apply NoDup_seq].
    intros i j _ _. apply candidate_inj. }
  assert (Hsub : (list_to_set names : gset string) ⊆ dom fs).
  { intros p [i [-> Hi]]%elem_of_list_to_set%list_elem_of_fmap.
    apply elem_of_dom, Hall. apply elem_of_seq in Hi. lia. }
  apply subseteq_size in Hsub.
  rewrite size_list_to_set, size_dom in Hsub by exact Hnodup.
  unfold names in Hsub. rewrite length_fmap, length_seq in Hsub. lia.
Qed.

Lemma first_free_candidate (fs : gmap string Codec.text) (dir stem : string) :
  exists k, k <= size fs
    /\ fs !! candidate dir stem k = None
    /\ forall i, i < k -> is_Some (fs !! candidate dir stem i).
Proof.
  assert (Hsearch : forall n,
            (exists k, k < n /\ fs !! candidate dir stem k = None
               /\ forall i, i < k -> is_Some (fs !! candidate dir stem i))
            \/ (forall i, i < n -> is_Some (fs !! candidate dir stem i))).
  { induction n as [|n [Hfound|Hocc]].
    - right. intros i Hi. lia.
    - left. destruct Hfound as (k & Hk & Hrest). exists k. split; [lia|exact Hrest].
    - destruct (fs !! candidate dir stem n) as [c|] eqn:En.
      + right. intros i Hi. destruct (Nat.eq_dec i n) as [->|Hne].
        * rewrite En. now exists c.
        * apply Hocc. lia.
      + left. exists n. split; [lia|]. split; [exact En | exact Hocc]. }
  destruct (Hsearch (S (size fs))) as [(k & Hk & Hrest)|Hocc].
  - exists k. split; [lia | exact Hrest].
  - exfalso. apply (candidates_not_all_present fs dir stem).
    intros i Hi. apply Hocc. lia.
Qed.

Lemma present_false (fs : gmap string Codec.text) (p : string) :
  bool_decide (is_Some (fs !! p)) = false <-> fs !! p = None.
Proof.
  rewrite bool_decide_eq_false, <- eq_None_not_Some. reflexivity.
Qed.

Lemma present_true (fs : gmap string Codec.text) (p : string) :
  bool_decide (is_Some (fs !! p)) = true <-> is_Some (fs !! p).
Proof. apply bool_decide_eq_true. Qed.

(** The uniqueness step always returns, and returns the first candidate
    that does not exist. *)
Lemma unique_name_first_free (fs : gmap string Codec.text) (dir stem : string) :
  exists k,
    WebProcessor.unique_name fs dir stem = Some (candidate dir stem k)
    /\ fs !! candidate dir stem k = None
    /\ forall i, i < k -> is_Some (fs !! candidate dir stem i).
Proof.
  destruct (first_free_candidate fs dir stem) as (k & Hk & Hfree & Hocc).
  exists k. split; [|split; assumption].
  unfold WebProcessor.unique_name.
  change (WebProcessor.md_path dir stem) with (candidate dir stem 0).
  apply unique_loop_first_free.
  - now apply present_false.
  - lia.
  - lia.
  - intros i _ Hi. now apply present_true, Hocc.
Qed.

(** The result of the uniqueness step depends on the candidates of its own
    directory only. *)
Lemma unique_name_per_directory (fs fs' : gmap string Codec.text)
    (dir stem : string) :
  (forall k, is_Some (fs' !! candidate dir stem k)
             <-> is_Some (fs !! candidate dir stem k)) ->
  WebProcessor.unique_name fs' dir stem = WebProcessor.unique_name fs dir stem.
Proof.
  intros Hsame.
  destruct (unique_name_first_free fs dir stem) as (k & -> & Hfree & Hocc).
  destruct (unique_name_first_free fs' dir stem) as (k' & -> & Hfree' & Hocc').
  f_equal. f_equal.
  destruct (Nat.lt_trichotomy k' k) as [Hlt|[Heq|Hgt]]; [|exact Heq|].
  - apply Hocc, Hsame in Hlt. rewrite Hfree' in Hlt. now destruct Hlt.
  - apply Hocc', Hsame in Hgt. rewrite Hfree in Hgt. now destruct Hgt.
Qed.

(** After the returned name is written, the next call with the same
    directory and stem returns a later candidate. *)
Lemma unique_name_increasing (fs : gmap string Codec.text) (dir stem : string)
    (k : nat) (content : Codec.text) :
  WebProcessor.unique_name fs dir stem = Some (candidate dir stem k) ->
  exists k', k < k'
    /\ WebProcessor.unique_name (<[candidate dir stem k := content]> fs)
         dir stem = Some (candidate dir stem k').
Proof.
  intros Hk.
  destruct (unique_name_first_free fs dir stem) as (k0 & Hk0 & Hfree & Hocc).
  assert (k0 = k) as -> by (apply (candidate_inj dir stem); congruence).
  destruct (unique_name_first_free (<[candidate dir stem k := content]> fs)
              dir stem) as (k' & Hk' & Hfree' & Hocc').
  exists k'. split; [|exact Hk'].
  destruct (Nat.lt_trichotomy k' k) as [Hlt|[Heq|Hgt]]; [| |exact Hgt].
  - destruct (Hocc _ Hlt) as [c Hc].
    rewrite lookup_insert_ne in Hfree'; [congruence|].
    intros Heq. apply candidate_inj in Heq. lia.
  - subst k'. rewrite lookup_insert_eq in Hfree'. discriminate Hfree'.
Qed.

Lemma save_keeps (fs : gmap string Codec.text) (dir stem : string)
    (content : Codec.text) (p : string) (old : Codec.text) :
  fs !! p = Some old -> save fs dir stem content !! p = Some old.
Proof.
  intros Hp. unfold save.
  destruct (unique_name_first_free fs dir stem) as (k & -> & Hfree & _).
  rewrite lookup_insert_ne; [exact Hp|]. intros <-. congruence.
Qed.

(** C8. The filename-uniqueness step never overwrites an existing file.
    For any files [fs], directory and stem it returns the first of
    [<stem>.md], [<stem>_1.md], [<stem>_2.md], ... that does not exist, all
    earlier ones existing; once that file is written, the next call with the
    same directory and stem returns a strictly later one; the result
    depends on the candidates of the target directory only; writing under
    the returned name leaves every existing file as it was; and two
    documents saved with the same stem in one directory, neither candidate
    existing before, end up as [<stem>.md] and [<stem>_1.md]. *)
Theorem unique_name_never_overwrites (fs : gmap string Codec.text)
    (dir stem : string) :
  (exists k,
      WebProcessor.unique_name fs dir stem = Some (candidate dir stem k)
      /\ fs !! candidate dir stem k = None
      /\ (forall i, i < k -> is_Some (fs !! candidate dir stem i))
      /\ forall content, exists k', k < k'
           /\ WebProcessor.unique_name
                (<[candidate dir stem k := content]> fs) dir stem
              = Some (candidate dir stem k'))
  /\ (forall fs' : gmap string Codec.text,
        (forall k, is_Some (fs' !! candidate dir stem k)
                   <-> is_Some (fs !! candidate dir stem k)) ->
        WebProcessor.unique_name fs' dir stem
        = WebProcessor.unique_name fs dir stem)
  /\ (forall content p old, fs !! p = Some old ->
        save fs dir stem content !! p = Some old)
  /\ (forall first second,
        fs !! candidate dir stem 0 = None ->
        fs !! candidate dir stem 1 = None ->
        let fs2 := save (save fs dir stem first) dir stem second in
        fs2 !! candidate dir stem 0 = Some first
        /\ fs2 !! candidate dir stem 1 = Some second).
Proof.
  split; [|split; [|split]].
  - destruct (unique_name_first_free fs dir stem) as (k & Hk & Hfree & Hocc).
    exists k. repeat split; try assumption.
    intros content. now apply unique_name_increasing.
  - intros fs'. apply unique_name_per_directory.
  - intros content p old. apply save_keeps.
  - intros first second H0 H1.
    assert (Hfirst : save fs dir stem first
                     = <[candidate dir stem 0 := first]> fs).
    { unfold save.
      destruct (unique_name_first_free fs dir stem) as (k & -> & _ & Hocc).
      destruct k as [|k]; [reflexivity|].
      destruct (Hocc 0) as [c Hc]; [lia | congruence]. }
    assert (Hsecond : save (save fs dir stem first) dir stem second
                      = <[candidate dir stem 1 := second]>
                          (<[candidate dir stem 0 := first]> fs)).
    { rewrite Hfirst. unfold save.
      destruct (unique_name_first_free
                  (<[candidate dir stem 0 := first]> fs) dir stem)
        as (k & -> & Hfree & Hocc).
      destruct k as [|[|k]]; [|reflexivity|].
      - rewrite lookup_insert_eq in Hfree. discriminate Hfree.
      - destruct (Hocc 1) as [c Hc]; [lia|].
        rewrite lookup_insert_ne in Hc; [congruence|].
        intros Heq. apply candidate_inj in Heq. discriminate Heq. }
    cbn zeta. rewrite Hsecond. split.
    + rewrite lookup_insert_ne, lookup_insert_eq; [reflexivity|].
      intros Heq. apply candidate_inj in Heq. discriminate Heq.
    + apply lookup_insert_eq.
Qed.

(** Scenario E, in the directory [output_markdowns/docs] of an empty
    output tree: the two documents end up in [intro.md] and [intro_1.md]. *)
Lemma unique_name_never_overwrites_witness :
  save (save ∅ "output_markdowns/docs" "intro" [1%N])
    "output_markdowns/docs" "intro" [2%N]
  !! "output_markdowns/docs/intro.md" = Some [1%N]
  /\ save (save ∅ "output_markdowns/docs" "intro" [1%N])
       "output_markdowns/docs" "intro" [2%N]
     !! "output_markdowns/docs/intro_1.md" = Some [2%N].
Proof.
  destruct (unique_name_never_overwrites ∅ "output_markdowns/docs" "intro")
    as (_ & _ & _ & H).
  apply (H [1%N] [2%N]); reflexivity.
Defined.

(** ** The retrying fetch *)

Section Fetch.

Variable other_codecs : string -> option Codec.codec.

Local Abbreviation retry_loop := (WebProcessor.retry_loop other_codecs).
Local Abbreviation fetch := (WebProcessor.fetch other_codecs).
Local Abbreviation decode_body := (WebProcessor.decode_body other_codecs).

Lemma over_budget (elapsed budget : Q) :
  negb (Qle_bool elapsed budget) = true <-> (budget < elapsed)%Q.
Proof.
  rewrite negb_true_iff. split.
  - intros H. apply Qnot_le_lt. intros Hle.
    apply Qle_bool_iff in Hle. congruence.
  - intros H. destruct (Qle_bool elapsed budget) eqn:E; [|reflexivity].
    apply Qle_bool_iff in E. exfalso. apply (Qlt_not_le _ _ H E).
Qed.

Lemma in_budget (elapsed budget : Q) :
  negb (Qle_bool elapsed budget) = false <-> (elapsed <= budget)%Q.
Proof. rewrite negb_false_iff. apply Qle_bool_iff. Qed.

(** At the top of an iteration the loop gives up exactly when the elapsed
    time is greater than the budget. *)
Lemma retry_loop_gives_up page url timeout budget start net w :
  (budget < WebProcessor.now w - start)%Q ->
  retry_loop page url timeout budget start net w
  = Some (Ok None, net,
          WebProcessor.emit
            (WebProcessor.Log WebProcessor.ERROR
               (WebProcessor.FailedAfter page url budget)) w).
Proof.
  intros H. apply over_budget in H.
  destruct net as [|[]]; cbn [WebProcessor.retry_loop]; now rewrite H.
Qed.

Lemma retry_loop_attempts page url timeout budget start a net w :
  (WebProcessor.now w - start <= budget)%Q ->
  retry_loop page url timeout budget start (a :: net) w
  = match a with
    | WebProcessor.Success took r =>
        Some (match decode_body r with
              | Ok html_content => Ok (Some html_content)
              | Raise e => Raise e
              end, net,
              WebProcessor.advance took
                (WebProcessor.emit (WebProcessor.Get url timeout) w))
    | WebProcessor.Failure took slept =>
        retry_loop page url timeout budget start net
          (WebProcessor.advance slept
             (WebProcessor.emit (WebProcessor.Sleep slept)
                (WebProcessor.emit
                   (WebProcessor.Log WebProcessor.ERROR
                      (WebProcessor.FailedRetrying page url))
                   (WebProcessor.advance took
                      (WebProcessor.emit (WebProcessor.Get url timeout) w)))))
    | WebProcessor.Uncaught took =>
        Some (Raise OtherException, net,
              WebProcessor.advance took
                (WebProcessor.emit (WebProcessor.Get url timeout) w))
    end.
Proof.
  intros H. apply in_budget in H.
  destruct a; cbn [WebProcessor.retry_loop]; now rewrite H.
Qed.

Lemma requests_made_app (tr tr' : list WebProcessor.Event) :
  requests_made (tr ++ tr') = requests_made tr + requests_made tr'.
Proof.
  unfold requests_made. now rewrite List.filter_app, List.length_app.
Qed.

(** Any number of failed attempts that fit in the budget is followed by one
    more attempt. *)
Lemma retry_loop_unbounded page url timeout budget start
    (fs : list (Q * Q)) took r rest w :
  nonnegative fs ->
  (WebProcessor.now w - start + total fs <= budget)%Q ->
  exists w',
    retry_loop page url timeout budget start
      (failures fs ++ WebProcessor.Success took r :: rest) w
    = Some (match decode_body r with
            | Ok html_content => Ok (Some html_content)
            | Raise e => Raise e
            end, rest, w')
    /\ requests_made (WebProcessor.trace w')
       = requests_made (WebProcessor.trace w) + List.length fs + 1.
Proof.
  revert w. induction fs as [|[t s] fs IH]; intros w Hnn Hfit.
  - cbn [failures List.map app total] in *.
    rewrite retry_loop_attempts by lra.
    eexists. split; [reflexivity|].
    cbn [WebProcessor.advance WebProcessor.emit WebProcessor.trace].
    rewrite requests_made_app. cbn. lia.
  - cbn [failures List.map app total fst snd] in *.
    apply List.Forall_cons_iff in Hnn as [[Ht Hs] Hnn]. cbn [fst snd] in *.
    assert (Htot : (0 <= total fs)%Q).
    { clear -Hnn. induction Hnn as [|[t s] fs [Ht Hs] _ IH]; cbn [total].
      - lra.
      - cbn [fst snd] in *. lra. }
    rewrite retry_loop_attempts by lra.
    match goal with |- context [retry_loop _ _ _ _ _ _ ?w1] =>
      destruct (IH w1 Hnn) as (w' & Hrun & Hcount) end.
    { cbn [WebProcessor.advance WebProcessor.emit WebProcessor.now]. lra. }
    exists w'. split; [exact Hrun|]. rewrite Hcount.
    cbn [WebProcessor.advance WebProcessor.emit WebProcessor.trace].
    rewrite !requests_made_app. cbn. lia.
Qed.

(** The clock at the end of the loop is at most the budget plus one attempt
    plus one sleep after the start. *)
Lemma retry_loop_time page url timeout budget start D S net w res net' w' :
  (0 <= S)%Q ->
  List.Forall (within D S) net ->
  (WebProcessor.now w - start <= budget + D + S)%Q ->
  retry_loop page url timeout budget start net w = Some (res, net', w') ->
  (WebProcessor.now w' - start <= budget + D + S)%Q.
Proof.
  intros HS. revert w. induction net as [|a net IH]; intros w Hin Hnow Hrun.
  - cbn [WebProcessor.retry_loop] in Hrun.
    destruct (negb _); [|discriminate Hrun].
    injection Hrun as <- <- <-. exact Hnow.
  - destruct (Qlt_le_dec budget (WebProcessor.now w - start)) as [Hover|Hle].
    + rewrite retry_loop_gives_up in Hrun by exact Hover.
      injection Hrun as <- <- <-. exact Hnow.
    + rewrite retry_loop_attempts in Hrun by exact Hle.
      apply List.Forall_cons_iff in Hin as [Ha Hin].
      destruct a as [took r|took slept|took]; cbn [within] in Ha.
      * injection Hrun as <- <- <-.
        cbn [WebProcessor.advance WebProcessor.emit WebProcessor.now]. lra.
      * apply IH in Hrun; [exact Hrun | exact Hin |].
        cbn [WebProcessor.advance WebProcessor.emit WebProcessor.now]. lra.
      * injection Hrun as <- <- <-.
        cbn [WebProcessor.advance WebProcessor.emit WebProcessor.now]. lra.
Qed.

(** C3 (amended). The retrying fetch is bounded by time and not by a number
    of attempts.  At the top of each iteration it gives up when the elapsed
    time is greater than [max_retry_duration], and makes another attempt
    otherwise, also when the elapsed time equals [max_retry_duration]; any
    number of failed attempts that fit in the budget is followed by one more
    attempt; and with a budget that is not negative, attempts of at most [D]
    seconds and sleeps of at most [S] seconds, a fetch ends at most
    [max_retry_duration + D + S] seconds after it started. *)
Theorem retry_is_time_bounded page url (a : WebProcessor.Args) :
  (forall start net w,
      (WebProcessor.max_retry_duration a < WebProcessor.now w - start)%Q ->
      exists w',
        retry_loop page url (WebProcessor.timeout a)
          (WebProcessor.max_retry_duration a) start net w
        = Some (Ok None, net, w')
        /\ requests_made (WebProcessor.trace w')
           = requests_made (WebProcessor.trace w))
  /\ (forall start took slept r net w,
        (WebProcessor.now w - start <= WebProcessor.max_retry_duration a)%Q ->
        (exists w',
            retry_loop page url (WebProcessor.timeout a)
              (WebProcessor.max_retry_duration a) start
              (WebProcessor.Success took r :: net) w
            = Some (match decode_body r with
                    | Ok html_content => Ok (Some html_content)
                    | Raise e => Raise e
                    end, net, w')
            /\ requests_made (WebProcessor.trace w')
               = requests_made (WebProcessor.trace w) + 1)
        /\ (exists w1,
              retry_loop page url (WebProcessor.timeout a)
                (WebProcessor.max_retry_duration a) start
                (WebProcessor.Failure took slept :: net) w
              = retry_loop page url (WebProcessor.timeout a)
                  (WebProcessor.max_retry_duration a) start net w1
              /\ requests_made (WebProcessor.trace w1)
                 = requests_made (WebProcessor.trace w) + 1
              /\ WebProcessor.now w1 = (WebProcessor.now w + took + slept)%Q))
  /\ (forall fs took r rest w,
        nonnegative fs ->
        (total fs <= WebProcessor.max_retry_duration a)%Q ->
        exists w',
          fetch page url a
            (failures fs ++ WebProcessor.Success took r :: rest) w
          = Some (match decode_body r with
                  | Ok html_content => Ok (Some html_content)
                  | Raise e => Raise e
                  end, rest, w')
          /\ requests_made (WebProcessor.trace w')
             = requests_made (WebProcessor.trace w) + List.length fs + 1)
  /\ (forall D S net w res net' w',
        (0 <= WebProcessor.max_retry_duration a)%Q ->
        (0 <= D)%Q -> (0 <= S)%Q ->
        List.Forall (within D S) net ->
        fetch page url a net w = Some (res, net', w') ->
        (WebProcessor.now w' - WebProcessor.now w
         <= WebProcessor.max_retry_duration a + D + S)%Q).
Proof.
  split; [|split; [|split]].
  - intros start net w H. rewrite retry_loop_gives_up by exact H.
    eexists. split; [reflexivity|].
    cbn [WebProcessor.emit WebProcessor.trace].
    rewrite requests_made_app. cbn. lia.
  - intros start took slept r net w H. split.
    + rewrite retry_loop_attempts by exact H.
      eexists. split; [reflexivity|].
      cbn [WebProcessor.advance WebProcessor.emit WebProcessor.trace].
      rewrite requests_made_app. cbn. lia.
    + rewrite retry_loop_attempts by exact H.
      eexists. split; [reflexivity|]. split.
      * cbn [WebProcessor.advance WebProcessor.emit WebProcessor.trace].
        rewrite !requests_made_app. cbn. lia.
      * reflexivity.
  - intros fs took r rest w Hnn Hfit. unfold WebProcessor.fetch.
    apply retry_loop_unbounded; [exact Hnn | lra].
  - intros D S net w res net' w' Hb HD HS Hin Hrun.
    unfold WebProcessor.fetch in Hrun.
    eapply retry_loop_time in Hrun; [exact Hrun | exact HS | exact Hin |].
    lra.
Qed.

End Fetch.

(** C3 (as stated) fails.  With an elapsed time equal to the budget the loop
    does not give up: it makes another request.  In a run with a budget of
    15 seconds whose first attempt fails after 10 seconds and is followed by
    a sleep of 5 seconds, the second request starts at 15 seconds and the
    page is returned.  With a negative budget no attempt is made, and the
    fetch ends later than the budget. *)
Lemma retry_attempts_at_the_limit :
  ~ (forall page url timeout budget start net w,
        (budget <= WebProcessor.now w - start)%Q ->
        exists w',
          WebProcessor.retry_loop WebProcessor.no_codecs page url timeout
            budget start net w = Some (Ok None, net, w'))
  /\ (exists w',
        WebProcessor.fetch WebProcessor.no_codecs WebProcessor.LinkedPage
          "https://ex.com/docs/a.html" (sample_args scenario_A_start_url)
          [WebProcessor.Failure 10 5; WebProcessor.Success 1 sample_response]
          WebProcessor.empty_world
        = Some (Ok (Some [97%N; 98%N]), [], w')
        /\ requests_made (WebProcessor.trace w') = 2
        /\ (WebProcessor.now w' == 16)%Q)
  /\ (exists w',
        WebProcessor.retry_loop WebProcessor.no_codecs WebProcessor.LinkedPage
          "https://ex.com/docs/a.html" 10 (-1) 0 [] WebProcessor.empty_world
        = Some (Ok None, [], w')
        /\ ~ (WebProcessor.now w' - 0 <= -1 + 0 + 0)%Q).
Proof.
  split; [|split].
  - intros H.
    destruct (H WebProcessor.LinkedPage "https://ex.com/docs/a.html" 10%Q
                15%Q 0%Q [WebProcessor.Success 1 sample_response]
                (WebProcessor.mkWorld 15 ∅ [])) as [w' Hw'].
    + vm_compute. discriminate.
    + vm_compute in Hw'. discriminate Hw'.
  - eexists. split; [vm_compute; reflexivity|].
    split; [reflexivity | vm_compute; reflexivity].
  - eexists. split; [vm_compute; reflexivity|].
    vm_compute. intros H. now apply H.
Qed.

Lemma retry_is_time_bounded_witness :
  exists res net' w',
    WebProcessor.fetch WebProcessor.no_codecs WebProcessor.LinkedPage
      "https://ex.com/docs/a.html" (sample_args scenario_A_start_url)
      [WebProcessor.Failure 10 5; WebProcessor.Failure 10 5]
      WebProcessor.empty_world
    = Some (res, net', w')
    /\ (WebProcessor.now w' - WebProcessor.now WebProcessor.empty_world
        <= 15 + 10 + 5)%Q.
Proof.
  eexists _, _, _. split; [vm_compute; reflexivity|].
  destruct (retry_is_time_bounded WebProcessor.no_codecs
              WebProcessor.LinkedPage "https://ex.com/docs/a.html"
              (sample_args scenario_A_start_url)) as (_ & _ & _ & H).
  apply (H 10%Q 5%Q
           [WebProcessor.Failure 10 5; WebProcessor.Failure 10 5]
           WebProcessor.empty_world (Ok None) []).
  - vm_compute. discriminate.
  - vm_compute. discriminate.
  - vm_compute. discriminate.
  - repeat constructor; vm_compute; discriminate.
  - vm_compute. reflexivity.
Defined.

(** ** The run *)

Section Run.

Variable check_bracketed_netloc : string -> bool.
Variable nfkc_netloc_ok : string -> bool.
Variable other_codecs : string -> option Codec.codec.
Variable cwd : string.
Variable BeautifulSoup : Codec.text -> WebProcessor.Soup.
Variable decompose_all : list string -> WebProcessor.Soup -> WebProcessor.Soup.
Variable html2text : Codec.text -> Codec.text.
Variable can_write : string -> bool.

Local Abbreviation retry_loop := (WebProcessor.retry_loop other_codecs).
Local Abbreviation fetch := (WebProcessor.fetch other_codecs).
Local Abbreviation url_without_fragment :=
  (WebProcessor.url_without_fragment check_bracketed_netloc nfkc_netloc_ok).
Local Abbreviation process_link :=
  (WebProcessor.process_link check_bracketed_netloc nfkc_netloc_ok
     other_codecs cwd BeautifulSoup decompose_all html2text can_write).
Local Abbreviation process_links :=
  (WebProcessor.process_links check_bracketed_netloc nfkc_netloc_ok
     other_codecs cwd BeautifulSoup decompose_all html2text can_write).
Local Abbreviation process_document :=
  (WebProcessor.process_document check_bracketed_netloc nfkc_netloc_ok
     other_codecs cwd BeautifulSoup decompose_all html2text can_write).

Lemma extends_quietly_refl url w : extends_quietly url w w.
Proof. split; [reflexivity|]. exists []. now rewrite List.app_nil_r. Qed.

Lemma extends_quietly_trans url w1 w2 w3 :
  extends_quietly url w1 w2 -> extends_quietly url w2 w3 ->
  extends_quietly url w1 w3.
Proof.
  intros [Hf1 (tr1 & Ht1 & Hq1)] [Hf2 (tr2 & Ht2 & Hq2)].
  split; [congruence|]. exists (tr1 ++ tr2). split.
  - now rewrite Ht2, Ht1, List.app_assoc.
  - now apply List.Forall_app.
Qed.

Lemma extends_quietly_emit url e w :
  quiet_for url e -> extends_quietly url w (WebProcessor.emit e w).
Proof.
  intros He. split; [reflexivity|]. exists [e]. split; [reflexivity|].
  now constructor.
Qed.

Ltac quiet_event := apply extends_quietly_emit; cbn; auto.

Lemma extends_quietly_advance url d w :
  extends_quietly url w (WebProcessor.advance d w).
Proof. split; [reflexivity|]. exists []. now rewrite List.app_nil_r. Qed.

Lemma retry_loop_quiet page url timeout budget start net w res net' w' :
  retry_loop page url timeout budget start net w = Some (res, net', w') ->
  extends_quietly url w w'.
Proof.
  revert w. induction net as [|a net IH]; intros w Hrun;
    cbn [WebProcessor.retry_loop] in Hrun;
    destruct (negb _).
  - injection Hrun as <- <- <-. quiet_event.
  - discriminate Hrun.
  - injection Hrun as <- <- <-. quiet_event.
  - destruct a as [took r|took slept|took].
    + injection Hrun as <- <- <-.
      eapply extends_quietly_trans; [|apply extends_quietly_advance].
      quiet_event.
    + apply IH in Hrun.
      eapply extends_quietly_trans; [|exact Hrun].
      eapply extends_quietly_trans; [|apply extends_quietly_advance].
      eapply extends_quietly_trans; [|quiet_event].
      eapply extends_quietly_trans; [|quiet_event].
      eapply extends_quietly_trans; [|apply extends_quietly_advance].
      quiet_event.
    + injection Hrun as <- <- <-.
      eapply extends_quietly_trans; [|apply extends_quietly_advance].
      quiet_event.
Qed.

Lemma main_content_quiet url sel uwf soup w el w' :
  WebProcessor.main_content sel uwf soup w = (el, w') ->
  extends_quietly url w w'.
Proof.
  unfold WebProcessor.main_content. intros H.
  destruct (WebProcessor.selector_given sel) as [s|].
  - destruct (WebProcessor.select_one soup s) as [e|].
    + injection H as <- <-. apply extends_quietly_refl.
    + destruct (WebProcessor.heuristic _ None 0) as [[best|] n];
        injection H as <- <-;
        (eapply extends_quietly_trans; [|quiet_event]; quiet_event).
  - destruct (WebProcessor.heuristic _ None 0) as [[best|] n];
      injection H as <- <-; quiet_event.
Qed.

Lemma fetch_quiet page url a net w res net' w' :
  fetch page url a net w = Some (res, net', w') -> extends_quietly url w w'.
Proof. unfold WebProcessor.fetch. apply retry_loop_quiet. Qed.

(** One iteration of the processing loop requests the stored URL of its
    link only, and either leaves the files as they are or adds one file
    under a name that did not exist. *)
Lemma process_link_effect a base root tag url net w res net' w' :
  process_link a base root tag url net w = Some (res, net', w') ->
  extends_quietly url w w'
  \/ exists w0 p md,
       extends_quietly url w w0
       /\ WebProcessor.files w0 !! p = None
       /\ can_write p = true
       /\ res = Ok tt
       /\ w' = WebProcessor.emit
                 (WebProcessor.Log WebProcessor.INFO (WebProcessor.Saved p))
                 (WebProcessor.emit (WebProcessor.Write p)
                    (WebProcessor.store p md w0)).
Proof.
  unfold WebProcessor.process_link. intros H.
  set (w1 := WebProcessor.emit _ w) in H.
  assert (H1 : extends_quietly url w w1) by (subst w1; quiet_event).
  clearbody w1.
  destruct (url_without_fragment url) as [uwf|e].
  2:{ injection H as <- <- <-. now left. }
  destruct (fetch _ url a net w1) as [[[r net1] w2]|] eqn:Ef;
    [|discriminate H].
  apply fetch_quiet in Ef.
  assert (H2 : extends_quietly url w w2)
    by (eapply extends_quietly_trans; eassumption).
  clear H1 Ef w1.
  destruct r as [[html|]|e].
  2:{ injection H as <- <- <-. now left. }
  2:{ injection H as <- <- <-. now left. }
  destruct (WebProcessor.main_content _ uwf _ w2) as [[el|] w3] eqn:Em.
  2:{ injection H as <- <- <-. left.
      apply (main_content_quiet url) in Em.
      eapply extends_quietly_trans; [exact H2|].
      eapply extends_quietly_trans; [exact Em|]. quiet_event. }
  apply (main_content_quiet url) in Em.
  assert (H3 : extends_quietly url w w3)
    by (eapply extends_quietly_trans; eassumption).
  clear H2 Em w2.
  destruct (WebProcessor.filename_base _ _ tag uwf) as [fb|e].
  2:{ injection H as <- <- <-. now left. }
  destruct (WebProcessor.urlparse _ _ uwf) as [parsed|e].
  2:{ injection H as <- <- <-. now left. }
  destruct (WebProcessor.relative_link_path cwd _ base) as [rel|e].
  2:{ injection H as <- <- <-. left.
      eapply extends_quietly_trans; [exact H3|]. quiet_event. }
  set (dir := WebProcessor.file_output_dir _ root rel) in H.
  set (w4 := WebProcessor.emit (WebProcessor.Makedirs dir) w3) in H.
  assert (H4 : extends_quietly url w w4).
  { eapply extends_quietly_trans; [exact H3|]. subst w4. quiet_event. }
  clearbody w4.
  destruct (unique_name_first_free (WebProcessor.files w4) dir
              (WebProcessor.sanitize fb)) as (k & Hk & Hfree & _).
  rewrite Hk in H.
  destruct (can_write (candidate dir (WebProcessor.sanitize fb) k)) eqn:Ew.
  - injection H as <- <- <-. right.
    exists w4, (candidate dir (WebProcessor.sanitize fb) k),
      (html2text (WebProcessor.str_html el)).
    split; [exact H4|]. split; [exact Hfree|]. split; [exact Ew|].
    split; reflexivity.
  - injection H as <- <- <-. left.
    eapply extends_quietly_trans; [exact H4|]. quiet_event.
Qed.

(** Existing files keep their content through the processing loop. *)
Lemma process_links_keep_files a base root infos net w res net' w' p old :
  process_links a base root infos net w = Some (res, net', w') ->
  WebProcessor.files w !! p = Some old ->
  WebProcessor.files w' !! p = Some old.
Proof.
  revert net w. induction infos as [|[tag url] rest IH]; intros net w Hrun Hp.
  - injection Hrun as <- <- <-. exact Hp.
  - cbn [WebProcessor.process_links] in Hrun.
    destruct (process_link a base root tag url net w)
      as [[[r net1] w1]|] eqn:El; [|discriminate Hrun].
    assert (Hp1 : WebProcessor.files w1 !! p = Some old).
    { destruct (process_link_effect _ _ _ _ _ _ _ _ _ _ El)
        as [[Hf _]|(w0 & q & md & [Hf _] & Hq & _ & _ & ->)].
      - now rewrite Hf.
      - cbn [WebProcessor.emit WebProcessor.store WebProcessor.files].
        rewrite lookup_insert_ne; [now rewrite Hf|].
        intros <-. rewrite Hf in Hq. congruence. }
    destruct r as [[]|e].
    + now apply (IH _ _ Hrun).
    + injection Hrun as <- <- <-. exact Hp1.
Qed.

Lemma extends_quietly_requests url w w' :
  extends_quietly url w w' ->
  requests_made (WebProcessor.trace w) <= requests_made (WebProcessor.trace w')
  /\ exists tr, WebProcessor.trace w' = WebProcessor.trace w ++ tr
       /\ forall u t, In (WebProcessor.Get u t) tr -> u = url.
Proof.
  intros [_ (tr & Htr & Hq)]. split.
  - rewrite Htr, requests_made_app. lia.
  - exists tr. split; [exact Htr|]. intros u t Hin.
    rewrite List.Forall_forall in Hq. exact (Hq _ Hin).
Qed.

(** When the loop gave up, the failure was logged last. *)
Lemma retry_loop_gave_up_logged page url timeout budget start net w net' w' :
  retry_loop page url timeout budget start net w = Some (Ok None, net', w') ->
  exists w0,
    w' = WebProcessor.emit
           (WebProcessor.Log WebProcessor.ERROR
              (WebProcessor.FailedAfter page url budget)) w0.
Proof.
  revert w. induction net as [|a net IH]; intros w Hrun;
    cbn [WebProcessor.retry_loop] in Hrun; destruct (negb _).
  - injection Hrun as <- <-. now exists w.
  - discriminate Hrun.
  - injection Hrun as <- <-. now exists w.
  - destruct a as [took r|took slept|took].
    + destruct (WebProcessor.decode_body other_codecs r); discriminate Hrun.
    + exact (IH _ Hrun).
    + discriminate Hrun.
Qed.

(** Failed attempts that outlast the budget make the loop give up, after at
    least one request when the elapsed time is within the budget. *)
Lemma retry_loop_exhausts page url timeout budget start fs rest w :
  nonnegative fs ->
  (budget < WebProcessor.now w - start + total fs)%Q ->
  exists net' w',
    retry_loop page url timeout budget start (failures fs ++ rest) w
    = Some (Ok None, net', w')
    /\ ((WebProcessor.now w - start <= budget)%Q ->
        requests_made (WebProcessor.trace w)
        < requests_made (WebProcessor.trace w')).
Proof.
  revert w. induction fs as [|[t s] fs IH]; intros w Hnn Hout.
  - cbn [total] in Hout. rewrite retry_loop_gives_up by lra.
    eexists _, _. split; [reflexivity|]. intros Hle. lra.
  - destruct (Qlt_le_dec budget (WebProcessor.now w - start)) as [Hover|Hle].
    + rewrite retry_loop_gives_up by exact Hover.
      eexists _, _. split; [reflexivity|]. intros Hle. lra.
    + cbn [failures List.map app fst snd].
      rewrite retry_loop_attempts by exact Hle.
      apply List.Forall_cons_iff in Hnn as [_ Hnn].
      cbn [total fst snd] in Hout.
      match goal with |- context [retry_loop _ _ _ _ _ _ ?w1] =>
        destruct (IH w1 Hnn) as (net' & w' & Hrun & _) end.
      { cbn [WebProcessor.advance WebProcessor.emit WebProcessor.now]. lra. }
      exists net', w'. split; [exact Hrun|]. intros _.
      apply (retry_loop_quiet) in Hrun.
      apply extends_quietly_requests in Hrun as [Hmono _].
      cbn [WebProcessor.advance WebProcessor.emit WebProcessor.trace] in Hmono.
      rewrite !requests_made_app in Hmono. cbn in Hmono. lia.
Qed.

(** A processed link whose page is fetched, has a main-content element and
    can be written is saved under a name that did not exist. *)
Lemma process_link_saves a base root tag url net w uwf html net1 w1 el w2
    fb parsed rel :
  url_without_fragment url = Ok uwf ->
  fetch WebProcessor.LinkedPage url a net
    (WebProcessor.emit
       (WebProcessor.Log WebProcessor.INFO (WebProcessor.FetchingLinkedPage url))
       w)
  = Some (Ok (Some html), net1, w1) ->
  WebProcessor.main_content (WebProcessor.main_content_selector a) uwf
    (decompose_all WebProcessor.irrelevant_selectors (BeautifulSoup html)) w1
  = (Some el, w2) ->
  WebProcessor.filename_base check_bracketed_netloc nfkc_netloc_ok tag uwf
  = Ok fb ->
  WebProcessor.urlparse check_bracketed_netloc nfkc_netloc_ok uwf = Ok parsed ->
  WebProcessor.relative_link_path cwd (Urllib.path parsed) base = Ok rel ->
  (forall p, can_write p = true) ->
  exists p,
    WebProcessor.files w !! p = None
    /\ process_link a base root tag url net w
       = Some (Ok tt, net1,
               WebProcessor.emit
                 (WebProcessor.Log WebProcessor.INFO (WebProcessor.Saved p))
                 (WebProcessor.emit (WebProcessor.Write p)
                    (WebProcessor.store p
                       (html2text (WebProcessor.str_html el))
                       (WebProcessor.emit
                          (WebProcessor.Makedirs
                             (WebProcessor.file_output_dir
                                (WebProcessor.output_dir a) root rel))
                          w2)))).
Proof.
  intros Hu Hf Hm Hb Hp Hr Hw. unfold WebProcessor.process_link.
  rewrite Hu, Hf, Hm, Hb, Hp, Hr.
  set (dir := WebProcessor.file_output_dir _ root rel).
  cbn [WebProcessor.emit WebProcessor.files].
  destruct (unique_name_first_free (WebProcessor.files w2) dir
              (WebProcessor.sanitize fb)) as (k & -> & Hfree & _).
  rewrite Hw. eexists. split; [|reflexivity].
  apply fetch_quiet in Hf as [Hf1 _].
  apply (main_content_quiet url) in Hm as [Hf2 _].
  cbn [WebProcessor.emit WebProcessor.files] in Hf1.
  now rewrite <- Hf1, <- Hf2.
Qed.

(** C4. For a link after the start page, a fetch that gives up is logged and
    the link is skipped: the loop goes on with the next link, from the same
    files.  The same holds when no main-content element is found.  A link
    whose page is fetched, has a main-content element and can be written is
    saved under a new name.  A fetch of the start page that gives up ends the
    run, with the files as they were. *)
Theorem link_failure_is_skipped (a : WebProcessor.Args) (base root : string)
    (tag : WebProcessor.Tag) (url : string)
    (rest : list (WebProcessor.Tag * string))
    (net : list WebProcessor.Attempt) (w : WebProcessor.World) :
  (forall uwf net1 w1,
      url_without_fragment url = Ok uwf ->
      fetch WebProcessor.LinkedPage url a net
        (WebProcessor.emit
           (WebProcessor.Log WebProcessor.INFO
              (WebProcessor.FetchingLinkedPage url)) w)
      = Some (Ok None, net1, w1) ->
      process_links a base root ((tag, url) :: rest) net w
      = process_links a base root rest net1 w1
      /\ WebProcessor.files w1 = WebProcessor.files w
      /\ In (WebProcessor.Log WebProcessor.ERROR
               (WebProcessor.FailedAfter WebProcessor.LinkedPage url
                  (WebProcessor.max_retry_duration a)))
            (WebProcessor.trace w1))
  /\ (forall uwf html net1 w1 w2,
        url_without_fragment url = Ok uwf ->
        fetch WebProcessor.LinkedPage url a net
          (WebProcessor.emit
             (WebProcessor.Log WebProcessor.INFO
                (WebProcessor.FetchingLinkedPage url)) w)
        = Some (Ok (Some html), net1, w1) ->
        WebProcessor.main_content (WebProcessor.main_content_selector a) uwf
          (decompose_all WebProcessor.irrelevant_selectors
             (BeautifulSoup html)) w1
        = (None, w2) ->
        process_links a base root ((tag, url) :: rest) net w
        = process_links a base root rest net1
            (WebProcessor.emit
               (WebProcessor.Log WebProcessor.WARNING
                  (WebProcessor.NoMainContent uwf)) w2)
        /\ WebProcessor.files w2 = WebProcessor.files w)
  /\ (forall uwf html net1 w1 el w2 fb parsed rel,
        url_without_fragment url = Ok uwf ->
        fetch WebProcessor.LinkedPage url a net
          (WebProcessor.emit
             (WebProcessor.Log WebProcessor.INFO
                (WebProcessor.FetchingLinkedPage url)) w)
        = Some (Ok (Some html), net1, w1) ->
        WebProcessor.main_content (WebProcessor.main_content_selector a) uwf
          (decompose_all WebProcessor.irrelevant_selectors
             (BeautifulSoup html)) w1
        = (Some el, w2) ->
        WebProcessor.filename_base check_bracketed_netloc nfkc_netloc_ok tag
          uwf = Ok fb ->
        WebProcessor.urlparse check_bracketed_netloc nfkc_netloc_ok uwf
        = Ok parsed ->
        WebProcessor.relative_link_path cwd (Urllib.path parsed) base
        = Ok rel ->
        (forall p, can_write p = true) ->
        exists p w3,
          WebProcessor.files w !! p = None
          /\ WebProcessor.files w3
             = <[p := html2text (WebProcessor.str_html el)]>
                 (WebProcessor.files w)
          /\ process_links a base root ((tag, url) :: rest) net w
             = process_links a base root rest net1 w3)
  /\ (forall net1 w1,
        fetch WebProcessor.StartingPage (WebProcessor.start_url a) a net
          (WebProcessor.emit
             (WebProcessor.Log WebProcessor.INFO
                (WebProcessor.FetchingStartingPage (WebProcessor.start_url a)))
             w)
        = Some (Ok None, net1, w1) ->
        process_document a net w
        = Some (Ok WebProcessor.StartFetchFailed, net1, w1)
        /\ WebProcessor.files w1 = WebProcessor.files w)
  /\ (forall res net1 w1 p old,
        process_links a base root ((tag, url) :: rest) net w
        = Some (res, net1, w1) ->
        WebProcessor.files w !! p = Some old ->
        WebProcessor.files w1 !! p = Some old).
Proof.
  split; [|split; [|split; [|split]]].
  - intros uwf net1 w1 Hu Hf. split; [|split].
    + cbn [WebProcessor.process_links]. unfold WebProcessor.process_link.
      now rewrite Hu, Hf.
    + now apply fetch_quiet in Hf as [Hfiles _].
    + unfold WebProcessor.fetch in Hf.
      apply retry_loop_gave_up_logged in Hf as [w0 ->].
      cbn [WebProcessor.emit WebProcessor.trace].
      apply in_or_app. right. now left.
  - intros uwf html net1 w1 w2 Hu Hf Hm. split.
    + cbn [WebProcessor.process_links]. unfold WebProcessor.process_link.
      now rewrite Hu, Hf, Hm.
    + apply fetch_quiet in Hf as [Hf1 _].
      apply (main_content_quiet url) in Hm as [Hf2 _].
      cbn [WebProcessor.emit WebProcessor.files] in Hf1. congruence.
  - intros uwf html net1 w1 el w2 fb parsed rel Hu Hf Hm Hb Hp Hr Hw.
    destruct (process_link_saves a base root tag url net w _ _ _ _ _ _ _ _ _
                Hu Hf Hm Hb Hp Hr Hw) as (p & Hfree & Hrun).
    eexists p, _. split; [exact Hfree|]. split.
    2:{ cbn [WebProcessor.process_links]. rewrite Hrun. reflexivity. }
    cbn [WebProcessor.emit WebProcessor.store WebProcessor.files].
    apply fetch_quiet in Hf as [Hf1 _].
    apply (main_content_quiet url) in Hm as [Hf2 _].
    cbn [WebProcessor.emit WebProcessor.files] in Hf1. congruence.
  - intros net1 w1 Hf. split.
    + unfold WebProcessor.process_document. now rewrite Hf.
    + now apply fetch_quiet in Hf as [Hfiles _].
  - intros res net1 w1 p old. apply process_links_keep_files.
Qed.

(** C5 (amended). The fragment is stripped for the scope test and for the
    dictionary key only.  The URL stored in each collected entry is the
    [href] joined to the start URL as it is, its fragment included; the key
    of the entry is that URL without its fragment; and every request made
    while a link is processed is a request for the stored URL. *)
Theorem stored_url_is_the_resolved_url (start_url : string)
    (links : list WebProcessor.Tag) (out : list (WebProcessor.Tag * string)) :
  WebProcessor.filtered_links_info check_bracketed_netloc nfkc_netloc_ok
    start_url links = Ok out ->
  (forall tag url, In (tag, url) out ->
      In tag links
      /\ WebProcessor.urljoin check_bracketed_netloc nfkc_netloc_ok start_url
           (WebProcessor.href tag) = Ok url
      /\ exists key scope,
           url_without_fragment url = Ok key
           /\ WebProcessor.parent_url_base check_bracketed_netloc
                nfkc_netloc_ok start_url = Ok scope
           /\ Str.startswith key scope = true)
  /\ (forall a base root tag url net w res net' w',
        In (tag, url) out ->
        process_link a base root tag url net w = Some (res, net', w') ->
        exists tr,
          WebProcessor.trace w' = WebProcessor.trace w ++ tr
          /\ forall u t, In (WebProcessor.Get u t) tr -> u = url).
Proof.
  unfold WebProcessor.filtered_links_info. intros H.
  destruct (WebProcessor.unique_links _ _ start_url links) as [m|] eqn:Em;
    [|discriminate H].
  cbn [rbind] in H. injection H as <-.
  destruct (unique_links_collected _ _ _ _ _ Em)
    as (scope & seen & Hs & Hr & Hc).
  split.
  - intros tag url [[key [tag' url']] [Heq Hin]]%in_map_iff.
    cbn [snd] in Heq. injection Heq as -> ->.
    pose proof (coll_first _ _ _ Hc _ Hin) as Hnth.
    apply nth_error_In in Hnth.
    destruct (resolved_links_sound _ _ _ _ _ Hr _ _ _ Hnth)
      as (Htag & _ & Hjoin & Hkey).
    split; [exact Htag|]. split; [exact Hjoin|].
    exists key, scope. split; [exact Hkey|]. split; [exact Hs|].
    exact (coll_scope _ _ _ Hc _ Hin).
  - intros a base root tag url net w res net' w' _ Hrun.
    destruct (process_link_effect _ _ _ _ _ _ _ _ _ _ Hrun)
      as [Hq|(w0 & p & md & Hq & _ & _ & _ & ->)].
    + now apply extends_quietly_requests in Hq as [_ Htr].
    + apply extends_quietly_requests in Hq as [_ (tr & Htr & Hget)].
      exists (tr ++ [WebProcessor.Write p;
                     WebProcessor.Log WebProcessor.INFO (WebProcessor.Saved p)]).
      cbn [WebProcessor.emit WebProcessor.store WebProcessor.trace].
      split; [now rewrite Htr, <- !List.app_assoc|].
      intros u t [Hin|Hin]%in_app_or; [now apply (Hget u t)|].
      destruct Hin as [Heq|[Heq|[]]]; discriminate Heq.
Qed.

(** failed attempts that fit in the budget are all made, and the loop goes
    on with the next outcome *)
Lemma retry_loop_failures page url timeout budget start fs net w :
  nonnegative fs ->
  (WebProcessor.now w - start + total fs <= budget)%Q ->
  exists w1,
    retry_loop page url timeout budget start (failures fs ++ net) w
    = retry_loop page url timeout budget start net w1
    /\ (WebProcessor.now w1 == WebProcessor.now w + total fs)%Q
    /\ extends_quietly url w w1.
Proof.
  revert w. induction fs as [|[t s] fs IH]; intros w Hnn Hfit.
  - exists w. split; [reflexivity|]. cbn [total]. split; [lra|].
    apply extends_quietly_refl.
  - cbn [failures List.map app total fst snd] in *.
    apply List.Forall_cons_iff in Hnn as [[Ht Hs] Hnn]. cbn [fst snd] in *.
    assert (Htot : (0 <= total fs)%Q).
    { clear -Hnn. induction Hnn as [|[t s] fs [Ht Hs] _ IH]; cbn [total].
      - lra.
      - cbn [fst snd] in *. lra. }
    rewrite retry_loop_attempts by lra.
    match goal with |- context [retry_loop _ _ _ _ _ _ ?w0] =>
      destruct (IH w0 Hnn) as (w1 & Hrun & Hnow & Hq) end.
    { cbn [WebProcessor.advance WebProcessor.emit WebProcessor.now]. lra. }
    exists w1. split; [exact Hrun|].
    cbn [WebProcessor.advance WebProcessor.emit WebProcessor.now] in Hnow.
    split; [rewrite Hnow; lra|].
    eapply extends_quietly_trans; [|exact Hq].
    eapply extends_quietly_trans; [|apply extends_quietly_advance].
    eapply extends_quietly_trans; [|quiet_event].
    eapply extends_quietly_trans; [|quiet_event].
    eapply extends_quietly_trans; [|apply extends_quietly_advance].
    quiet_event.
Qed.

(** C6 (amended). The start URL is not validated, and no error is kept for
    a malformed one.  Whatever the start URL is, the first iteration of the
    retry loop hands it to the HTTP client, unless the first reading of the
    elapsed time is already over the budget, in which case the loop gives up
    without a request.  What follows is the answer of the client.  If it
    raises a [RequestException] at every attempt until the budget is
    exceeded, the run returns after the loop gave up, without raising, with
    the files as they were and with requests for the start URL only.  If it
    raises an exception of another class while the elapsed time is within
    the budget, the loop does not catch it, and the run raises what the
    fetch of the start page raises, having done nothing else. *)
Theorem start_url_is_not_validated (a : WebProcessor.Args) :
  (forall start net w,
      (WebProcessor.max_retry_duration a < WebProcessor.now w - start)%Q ->
      retry_loop WebProcessor.StartingPage (WebProcessor.start_url a)
        (WebProcessor.timeout a) (WebProcessor.max_retry_duration a) start
        net w
      = Some (Ok None, net,
              WebProcessor.emit
                (WebProcessor.Log WebProcessor.ERROR
                   (WebProcessor.FailedAfter WebProcessor.StartingPage
                      (WebProcessor.start_url a)
                      (WebProcessor.max_retry_duration a))) w))
  /\ (forall start x net w res net' w',
        (WebProcessor.now w - start <= WebProcessor.max_retry_duration a)%Q ->
        retry_loop WebProcessor.StartingPage (WebProcessor.start_url a)
          (WebProcessor.timeout a) (WebProcessor.max_retry_duration a) start
          (x :: net) w
        = Some (res, net', w') ->
        exists tr,
          WebProcessor.trace w'
          = WebProcessor.trace w
            ++ WebProcessor.Get (WebProcessor.start_url a)
                 (WebProcessor.timeout a) :: tr)
  /\ (forall fs rest w,
        nonnegative fs ->
        (WebProcessor.max_retry_duration a < total fs)%Q ->
        exists net' w',
          process_document a (failures fs ++ rest) w
          = Some (Ok WebProcessor.StartFetchFailed, net', w')
          /\ WebProcessor.files w' = WebProcessor.files w
          /\ exists tr,
               WebProcessor.trace w' = WebProcessor.trace w ++ tr
               /\ forall u t, In (WebProcessor.Get u t) tr ->
                    u = WebProcessor.start_url a)
  /\ (forall start fs took rest w,
        nonnegative fs ->
        (WebProcessor.now w - start + total fs
         <= WebProcessor.max_retry_duration a)%Q ->
        exists w',
          retry_loop WebProcessor.StartingPage (WebProcessor.start_url a)
            (WebProcessor.timeout a) (WebProcessor.max_retry_duration a) start
            (failures fs ++ WebProcessor.Uncaught took :: rest) w
          = Some (Raise OtherException, rest, w')
          /\ WebProcessor.files w' = WebProcessor.files w
          /\ exists tr,
               WebProcessor.trace w' = WebProcessor.trace w ++ tr
               /\ In (WebProcessor.Get (WebProcessor.start_url a)
                        (WebProcessor.timeout a)) tr
               /\ forall u t, In (WebProcessor.Get u t) tr ->
                    u = WebProcessor.start_url a)
  /\ (forall net w e net1 w1,
        fetch WebProcessor.StartingPage (WebProcessor.start_url a) a net
          (WebProcessor.emit
             (WebProcessor.Log WebProcessor.INFO
                (WebProcessor.FetchingStartingPage (WebProcessor.start_url a)))
             w)
        = Some (Raise e, net1, w1) ->
        process_document a net w = Some (Raise e, net1, w1)).
Proof.
  split; [|split; [|split; [|split]]].
  - intros start net w Hover. now apply retry_loop_gives_up.
  - intros start x net w res net' w' Hle Hrun.
    rewrite retry_loop_attempts in Hrun by exact Hle.
    destruct x as [took r|took slept|took].
    + injection Hrun as <- <- <-. now exists [].
    + apply retry_loop_quiet in Hrun as [_ (tr & Htr & _)].
      cbn [WebProcessor.advance WebProcessor.emit WebProcessor.trace] in Htr.
      eexists. rewrite Htr, <- !List.app_assoc. reflexivity.
    + injection Hrun as <- <- <-. now exists [].
  - intros fs rest w Hnn Hout. unfold WebProcessor.process_document.
    set (w0 := WebProcessor.emit _ w).
    destruct (retry_loop_exhausts WebProcessor.StartingPage
                (WebProcessor.start_url a) (WebProcessor.timeout a)
                (WebProcessor.max_retry_duration a) (WebProcessor.now w0)
                fs rest w0 Hnn) as (net' & w' & Hrun & _).
    { lra. }
    unfold WebProcessor.fetch. rewrite Hrun.
    exists net', w'. split; [reflexivity|].
    pose proof (retry_loop_quiet _ _ _ _ _ _ _ _ _ _ Hrun) as Hq.
    assert (Hq0 : extends_quietly (WebProcessor.start_url a) w w').
    { eapply extends_quietly_trans; [|exact Hq]. subst w0. quiet_event. }
    split; [apply Hq0|].
    now apply extends_quietly_requests in Hq0 as [_ Htr].
  - intros start fs took rest w Hnn Hfit.
    destruct (retry_loop_failures WebProcessor.StartingPage
                (WebProcessor.start_url a) (WebProcessor.timeout a)
                (WebProcessor.max_retry_duration a) start fs
                (WebProcessor.Uncaught took :: rest) w Hnn Hfit)
      as (w1 & Hrun & Hnow & Hq).
    rewrite Hrun, retry_loop_attempts by (rewrite Hnow; lra).
    eexists. split; [reflexivity|].
    cbn [WebProcessor.advance WebProcessor.emit WebProcessor.files
         WebProcessor.trace].
    split; [apply Hq|].
    apply extends_quietly_requests in Hq as [_ (tr & Htr & Hget)].
    exists (tr ++ [WebProcessor.Get (WebProcessor.start_url a)
                     (WebProcessor.timeout a)]).
    split; [now rewrite Htr, List.app_assoc|]. split.
    + apply List.in_or_app. right. now left.
    + intros u t [Hin|[Heq|[]]]%List.in_app_or; [now apply (Hget u t)|].
      now injection Heq as <- _.
  - intros net w e net1 w1 Hf. unfold WebProcessor.process_document.
    now rewrite Hf.
Qed.

End Run.

(** ** Decoding of the response body *)

Lemma ignore_replace_length (chunks : list Codec.Chunk) :
  List.length (Codec.ignore chunks) + Codec.undecodable_ranges chunks
  = List.length (Codec.replace chunks).
Proof.
  unfold Codec.undecodable_ranges.
  induction chunks as [|[cp|n] chunks IH]; cbn; lia.
Qed.

(** An invalid byte after ASCII text is reported alone, and decoding goes on
    after it. *)
Lemma utf_8_invalid_byte (xs ys : list Byte.byte) (b : Byte.byte) :
  ascii_bytes xs -> invalid_start b ->
  Codec.utf_8 (xs ++ b :: ys)
  = List.map (fun x => Codec.Decoded (Byte.to_N x)) xs
    ++ Codec.Undecodable 1 :: Codec.utf_8 ys.
Proof.
  intros Hxs Hb. induction Hxs as [|x xs Hx _ IH].
  - cbn [app List.map Codec.utf_8].
    destruct Hb as [[H1 H2]|H].
    + apply N.ltb_ge in H1 as ->. now apply N.ltb_lt in H2 as ->.
    + assert ((Byte.to_N b <? 128)%N = false) as -> by (apply N.ltb_ge; lia).
      assert ((Byte.to_N b <? 194)%N = false) as -> by (apply N.ltb_ge; lia).
      assert ((Byte.to_N b <? 224)%N = false) as -> by (apply N.ltb_ge; lia).
      assert ((Byte.to_N b <? 240)%N = false) as -> by (apply N.ltb_ge; lia).
      now assert ((Byte.to_N b <? 245)%N = false) as -> by (apply N.ltb_ge; lia).
  - cbn [app List.map Codec.utf_8].
    apply N.ltb_lt in Hx as ->. now rewrite IH.
Qed.

(** C7 (amended). A successful response whose body the codec of the
    declared encoding, or of UTF-8 when none is declared, accepts is decoded
    with that codec, and the decoded text is what the fetch returns.  Byte
    ranges that cannot be decoded are dropped, not replaced: the text has
    one character less, for every such range, than the text with
    substitution characters, and an invalid byte within ASCII text leaves
    the text before it and the decoding of what follows.  An empty body and
    a body without declared encoding are always decoded. *)
Theorem body_is_decoded_ignoring_errors
    (other_codecs : string -> option Codec.codec) (r : WebProcessor.Response) :
  (forall c chunks,
      WebProcessor.content r <> [] ->
      Codec.lookup other_codecs (WebProcessor.encoding_or_utf8 r) = Some c ->
      c (WebProcessor.content r) = Ok chunks ->
      WebProcessor.decode_body other_codecs r = Ok (Codec.ignore chunks)
      /\ decode_body_replacing other_codecs r = Ok (Codec.replace chunks)
      /\ List.length (Codec.ignore chunks) + Codec.undecodable_ranges chunks
         = List.length (Codec.replace chunks))
  /\ (WebProcessor.content r = [] ->
      WebProcessor.decode_body other_codecs r = Ok [])
  /\ (WebProcessor.encoding r = None ->
      WebProcessor.decode_body other_codecs r
      = Ok (Codec.ignore (Codec.utf_8 (WebProcessor.content r))))
  /\ (forall xs ys b, ascii_bytes xs -> invalid_start b ->
        Codec.ignore (Codec.utf_8 (xs ++ b :: ys))
        = List.map Byte.to_N xs ++ Codec.ignore (Codec.utf_8 ys))
  /\ (forall page url timeout budget start took net w,
        (WebProcessor.now w - start <= budget)%Q ->
        exists w',
          WebProcessor.retry_loop other_codecs page url timeout budget start
            (WebProcessor.Success took r :: net) w
          = Some (match WebProcessor.decode_body other_codecs r with
                  | Ok html_content => Ok (Some html_content)
                  | Raise e => Raise e
                  end, net, w')).
Proof.
  split; [|split; [|split; [|split]]].
  - intros c chunks Hne Hc Hchunks.
    unfold WebProcessor.decode_body, decode_body_replacing,
      Codec.decode_ignore, Codec.decode_replace, Codec.decode.
    destruct (WebProcessor.content r) as [|b bs] eqn:E; [congruence|].
    rewrite Hc, Hchunks. cbn [rbind].
    split; [reflexivity|]. split; [reflexivity|]. apply ignore_replace_length.
  - intros He. unfold WebProcessor.decode_body, Codec.decode_ignore,
      Codec.decode. now rewrite He.
  - intros He. unfold WebProcessor.decode_body, Codec.decode_ignore,
      Codec.decode, WebProcessor.encoding_or_utf8. rewrite He.
    now destruct (WebProcessor.content r).
  - intros xs ys b Hxs Hb. rewrite utf_8_invalid_byte by assumption.
    clear. induction xs as [|x xs IH]; [reflexivity|].
    cbn [List.map app Codec.ignore]. now rewrite IH.
  - intros page url timeout budget start took net w H.
    rewrite retry_loop_attempts by exact H. eexists. reflexivity.
Qed.

(** C7 (as stated) fails: the body [a], [0xff], [b] with no declared
    encoding is decoded to the two characters [a] and [b]; with a
    substitution character it would have three. *)
Lemma invalid_byte_is_dropped :
  WebProcessor.decode_body WebProcessor.no_codecs sample_response
  = Ok [97%N; 98%N]
  /\ decode_body_replacing WebProcessor.no_codecs sample_response
     = Ok [97%N; Codec.replacement_character; 98%N]
  /\ WebProcessor.decode_body WebProcessor.no_codecs sample_response
     <> decode_body_replacing WebProcessor.no_codecs sample_response.
Proof.
  split; [reflexivity|]. split; [reflexivity|]. vm_compute. discriminate.
Qed.

Lemma body_is_decoded_ignoring_errors_witness :
  WebProcessor.decode_body WebProcessor.no_codecs sample_response
  = Ok (Codec.ignore (Codec.utf_8 (WebProcessor.content sample_response)))
  /\ decode_body_replacing WebProcessor.no_codecs sample_response
     = Ok (Codec.replace (Codec.utf_8 (WebProcessor.content sample_response)))
  /\ Codec.ignore (Codec.utf_8 ([Byte.x61] ++ Byte.xff :: [Byte.x62]))
     = List.map Byte.to_N [Byte.x61] ++ Codec.ignore (Codec.utf_8 [Byte.x62]).
Proof.
  destruct (body_is_decoded_ignoring_errors WebProcessor.no_codecs
              sample_response) as (H1 & _ & _ & H4 & _).
  destruct (H1 (fun bs => Ok (Codec.utf_8 bs))
              (Codec.utf_8 (WebProcessor.content sample_response)))
    as (Hi & Hr & _); [discriminate | reflexivity | reflexivity |].
  split; [exact Hi|]. split; [exact Hr|].
  apply H4.
  - repeat constructor.
  - right. vm_compute. discriminate.
Defined.

(** ** Runs of the model *)

(** Scenario B as a whole run: the first link is given up after four failed
    attempts and is skipped; the second link is fetched and its file is
    written. *)
Lemma scenario_B_run :
  exists w',
    toy_run scenario_B_links (sample_args scenario_A_start_url)
      scenario_B_net WebProcessor.empty_world
    = Some (Ok WebProcessor.Completed, [], w')
    /\ WebProcessor.files w' = {[ "output_markdowns/docs/b.md" := [98%N] ]}
    /\ In (WebProcessor.Log WebProcessor.ERROR
             (WebProcessor.FailedAfter WebProcessor.LinkedPage
                "https://ex.com/docs/a.html" 15))
          (WebProcessor.trace w').
Proof.
  eexists. split; [vm_compute; reflexivity|].
  split; [vm_compute; reflexivity|].
  cbn [WebProcessor.trace]. repeat (first [now left | right]).
Qed.

Lemma link_failure_is_skipped_witness :
  exists w',
    WebProcessor.process_links WebProcessor.always WebProcessor.always
      WebProcessor.no_codecs "/" (toy_soup scenario_B_links)
      (fun _ soup => soup) (fun html => html) WebProcessor.always
      (sample_args scenario_A_start_url) "/docs/" "docs"
      [(WebProcessor.mkTag "/docs/a.html" "A", "https://ex.com/docs/a.html");
       (WebProcessor.mkTag "/docs/b.html" "B", "https://ex.com/docs/b.html")]
      (List.tl scenario_B_net) WebProcessor.empty_world
    = Some (Ok tt, [], w')
    /\ WebProcessor.files w' !! "output_markdowns/docs/b.md" = Some [98%N]
    /\ WebProcessor.files w' !! "output_markdowns/docs/a.md" = None.
Proof.
  destruct (link_failure_is_skipped WebProcessor.always WebProcessor.always
              WebProcessor.no_codecs "/" (toy_soup scenario_B_links)
              (fun _ soup => soup) (fun html => html) WebProcessor.always
              (sample_args scenario_A_start_url) "/docs/" "docs"
              (WebProcessor.mkTag "/docs/a.html" "A")
              "https://ex.com/docs/a.html"
              [(WebProcessor.mkTag "/docs/b.html" "B",
                "https://ex.com/docs/b.html")]
              (List.tl scenario_B_net) WebProcessor.empty_world)
    as (Hskip & _).
  edestruct Hskip as (Heq & _ & _);
    [vm_compute; reflexivity | vm_compute; reflexivity |].
  rewrite Heq. eexists. split; [vm_compute; reflexivity|].
  split; vm_compute; reflexivity.
Defined.

(** C5 (as stated) fails.  In scenario A the entry collected for the second
    anchor stores the URL with its fragment, and that URL is the one
    requested. *)
Lemma stored_url_has_fragment :
  WebProcessor.filtered_links_info WebProcessor.always WebProcessor.always
    scenario_A_start_url scenario_A_links
  = Ok [(WebProcessor.mkTag "/docs/a.html" "A", "https://ex.com/docs/a.html");
        (WebProcessor.mkTag "/docs/b.html#sec" "B",
         "https://ex.com/docs/b.html#sec")]
  /\ (do p <- WebProcessor.urlparse WebProcessor.always WebProcessor.always
                "https://ex.com/docs/b.html#sec";
      Ok (Urllib.fragment p)) = Ok "sec"
  /\ exists w',
       toy_run scenario_A_links (sample_args scenario_A_start_url)
         [WebProcessor.Success 1 (page Byte.x73);
          WebProcessor.Success 1 (page Byte.x61);
          WebProcessor.Success 1 (page Byte.x62)] WebProcessor.empty_world
       = Some (Ok WebProcessor.Completed, [], w')
       /\ In (WebProcessor.Get "https://ex.com/docs/b.html#sec" 10)
            (WebProcessor.trace w')
       /\ ~ In (WebProcessor.Get "https://ex.com/docs/b.html" 10)
              (WebProcessor.trace w').
Proof.
  split; [vm_compute; reflexivity|]. split; [vm_compute; reflexivity|].
  eexists. split; [vm_compute; reflexivity|]. cbn [WebProcessor.trace]. split.
  - repeat (first [now left | right]).
  - intros H. repeat (destruct H as [H|H]; [discriminate H|]). exact H.
Qed.

Lemma stored_url_is_the_resolved_url_witness :
  In (WebProcessor.mkTag "/docs/b.html#sec" "B") scenario_A_links
  /\ WebProcessor.urljoin WebProcessor.always WebProcessor.always
       scenario_A_start_url "/docs/b.html#sec"
     = Ok "https://ex.com/docs/b.html#sec"
  /\ exists key scope,
       WebProcessor.url_without_fragment WebProcessor.always
         WebProcessor.always "https://ex.com/docs/b.html#sec" = Ok key
       /\ WebProcessor.parent_url_base WebProcessor.always
            WebProcessor.always scenario_A_start_url = Ok scope
       /\ Str.startswith key scope = true.
Proof.
  destruct (stored_url_is_the_resolved_url WebProcessor.always
              WebProcessor.always WebProcessor.no_codecs "/"
              (toy_soup scenario_A_links) (fun _ soup => soup)
              (fun html => html) WebProcessor.always
              scenario_A_start_url scenario_A_links
              [(WebProcessor.mkTag "/docs/a.html" "A",
                "https://ex.com/docs/a.html");
               (WebProcessor.mkTag "/docs/b.html#sec" "B",
                "https://ex.com/docs/b.html#sec")]) as [H _].
  - vm_compute. reflexivity.
  - apply (H (WebProcessor.mkTag "/docs/b.html#sec" "B")
             "https://ex.com/docs/b.html#sec").
    right. left. reflexivity.
Defined.

(** C6 (as stated) fails.  The string [not a url] has neither scheme nor
    host.  With a client that rejects it at every attempt, the run requests
    it four times over twenty seconds and then returns; nothing is raised. *)
Lemma malformed_start_url_is_retried :
  (do p <- WebProcessor.urlparse WebProcessor.always WebProcessor.always
             "not a url";
   Ok (Urllib.scheme p, Urllib.netloc p)) = Ok ("", "")
  /\ exists w',
       toy_run [] (sample_args "not a url")
         (failures [(1, 4); (1, 4); (1, 4); (1, 4)]%Q) WebProcessor.empty_world
       = Some (Ok WebProcessor.StartFetchFailed, [], w')
       /\ requests_made (WebProcessor.trace w') = 4
       /\ In (WebProcessor.Get "not a url" 10) (WebProcessor.trace w')
       /\ (WebProcessor.now w' == 20)%Q.
Proof.
  split; [vm_compute; reflexivity|].
  eexists. split; [vm_compute; reflexivity|].
  split; [vm_compute; reflexivity|]. split.
  - cbn [WebProcessor.trace]. repeat (first [now left | right]).
  - vm_compute. reflexivity.
Qed.

Lemma start_url_is_not_validated_witness :
  (exists net' w',
      toy_run [] (sample_args "not a url")
        (failures [(1, 4); (1, 4); (1, 4); (1, 4)]%Q ++ [])
        WebProcessor.empty_world
      = Some (Ok WebProcessor.StartFetchFailed, net', w')
      /\ WebProcessor.files w' = WebProcessor.files WebProcessor.empty_world
      /\ exists tr,
           WebProcessor.trace w'
           = WebProcessor.trace WebProcessor.empty_world ++ tr
           /\ forall u t, In (WebProcessor.Get u t) tr ->
                u = WebProcessor.start_url (sample_args "not a url"))
  /\ exists w1,
       toy_run [] (sample_args "http://a..b/") [WebProcessor.Uncaught 1]
         WebProcessor.empty_world
       = Some (Raise OtherException, [], w1)
       /\ In (WebProcessor.Get "http://a..b/" 10) (WebProcessor.trace w1).
Proof.
  split.
  - destruct (start_url_is_not_validated WebProcessor.always
                WebProcessor.always WebProcessor.no_codecs "/" (toy_soup [])
                (fun _ soup => soup) (fun html => html) WebProcessor.always
                (sample_args "not a url")) as (_ & _ & H & _).
    apply (H [(1, 4); (1, 4); (1, 4); (1, 4)]%Q [] WebProcessor.empty_world).
    + repeat constructor; vm_compute; discriminate.
    + vm_compute. reflexivity.
  - destruct (start_url_is_not_validated WebProcessor.always
                WebProcessor.always WebProcessor.no_codecs "/" (toy_soup [])
                (fun _ soup => soup) (fun html => html) WebProcessor.always
                (sample_args "http://a..b/")) as (_ & _ & _ & _ & H).
    eexists. split.
    + apply (H [WebProcessor.Uncaught 1] WebProcessor.empty_world).
      vm_compute. reflexivity.
    + cbn [WebProcessor.trace]. right. now left.
Defined.

(** ** Links with dot segments *)

(** C10 fails on an absolute [href] with a dot segment.  [urljoin] returns
    such an [href] as it is, so its URL starts with the scope and its path
    starts with the base path, as strings; but the relative path starts with
    [..], no [ValueError] is raised, and the output directory is
    [output_markdowns/docs/../secret], that is [output_markdowns/secret],
    outside [output_markdowns/docs].  One level deeper the directory is
    outside the output directory altogether. *)
Theorem dotted_link_escapes_base (check_bracketed_netloc nfkc_netloc_ok
    : string -> bool) (cwd : string) :
  WebProcessor.filtered_links_info check_bracketed_netloc nfkc_netloc_ok
    scenario_A_start_url [dotted_link]
  = Ok [(dotted_link, "https://ex.com/docs/../secret/x.html")]
  /\ WebProcessor.base_path_for_relative check_bracketed_netloc nfkc_netloc_ok
       scenario_A_start_url = Ok "/docs/"
  /\ (do p <- WebProcessor.urlparse check_bracketed_netloc nfkc_netloc_ok
                "https://ex.com/docs/../secret/x.html";
      Ok (Urllib.path p)) = Ok "/docs/../secret/x.html"
  /\ Str.startswith "/docs/../secret/x.html" "/docs/" = true
  /\ WebProcessor.relative_link_path cwd "/docs/../secret/x.html" "/docs/"
     = Ok "../secret/x.html"
  /\ WebProcessor.file_output_dir "output_markdowns"
       (WebProcessor.output_root_name "/docs/") "../secret/x.html"
     = "output_markdowns/docs/../secret"
  /\ Posixpath.normpath "output_markdowns/docs/../secret"
     = "output_markdowns/secret"
  /\ WebProcessor.filtered_links_info check_bracketed_netloc nfkc_netloc_ok
       deep_start_url [deep_dotted_link]
     = Ok [(deep_dotted_link, "https://ex.com/a/b/../../x/y.html")]
  /\ WebProcessor.relative_link_path cwd "/a/b/../../x/y.html" "/a/b/"
     = Ok "../../x/y.html"
  /\ Posixpath.normpath
       (WebProcessor.file_output_dir "output_markdowns"
          (WebProcessor.output_root_name "/a/b/") "../../x/y.html")
     = "x".
Proof. repeat split; vm_compute; reflexivity. Qed.

(** The same link in a whole run: the file is written under
    [output_markdowns/docs/../secret]. *)
Lemma dotted_link_run :
  exists w',
    toy_run [dotted_link] (sample_args scenario_A_start_url)
      [WebProcessor.Success 1 (page Byte.x73);
       WebProcessor.Success 1 (page Byte.x61)] WebProcessor.empty_world
    = Some (Ok WebProcessor.Completed, [], w')
    /\ WebProcessor.files w'
       = {[ "output_markdowns/docs/../secret/secret.md" := [97%N] ]}.
Proof.
  eexists. split; [vm_compute; reflexivity|]. vm_compute. reflexivity.
Qed.

(** A link whose page has no main-content element (here an empty page) is
    skipped with a warning, and the next link is saved. *)
Lemma extraction_failure_run :
  exists w',
    toy_run scenario_B_links (sample_args scenario_A_start_url)
      [WebProcessor.Success 1 (page Byte.x73);
       WebProcessor.Success 1 empty_page;
       WebProcessor.Success 1 (page Byte.x62)] WebProcessor.empty_world
    = Some (Ok WebProcessor.Completed, [], w')
    /\ WebProcessor.files w' = {[ "output_markdowns/docs/b.md" := [98%N] ]}
    /\ In (WebProcessor.Log WebProcessor.WARNING
             (WebProcessor.NoMainContent "https://ex.com/docs/a.html"))
          (WebProcessor.trace w').
Proof.
  eexists. split; [vm_compute; reflexivity|].
  split; [vm_compute; reflexivity|].
  cbn [WebProcessor.trace]. repeat (first [now left | right]).
Qed.

(** The safeguard of lines 264-269 can fire for an empty link path only:
    [relpath] raises for no other path, whatever the base path is. *)
Lemma relative_link_path_raises (cwd link_path base : string) (e : exn) :
  WebProcessor.relative_link_path cwd link_path base = Raise e ->
  link_path = "".
Proof.
  unfold WebProcessor.relative_link_path, Posixpath.relpath.
  destruct link_path as [|c s]; [reflexivity|].
  cbn [Str.is_empty].
  destruct (List.repeat _ _ ++ _); discriminate.
Qed.

(** * Further properties of the program *)

(** ** Main-content extraction *)

Lemma best_of_step (seen : list WebProcessor.Element)
    (best : option WebProcessor.Element) (longest : nat)
    (element : WebProcessor.Element) :
  best_of seen best longest ->
  best_of (seen ++ [element])
    (if (100 <? WebProcessor.text_length element)%nat
        && (longest <? WebProcessor.text_length element)%nat
     then Some element else best)
    (if (100 <? WebProcessor.text_length element)%nat
        && (longest <? WebProcessor.text_length element)%nat
     then WebProcessor.text_length element else longest).
Proof.
  intros H.
  destruct (100 <? WebProcessor.text_length element)%nat eqn:E100;
    [destruct (longest <? WebProcessor.text_length element)%nat eqn:Emax|];
    cbn [andb].
  - (* a new best element *)
    apply Nat.ltb_lt in E100, Emax. cbn [best_of].
    split; [reflexivity|]. split; [exact E100|]. split.
    + intros e [Hin|[<-|[]]]%in_app_or; [|lia].
      destruct best as [b|]; cbn [best_of] in H.
      * destruct H as (_ & _ & Hall & _). specialize (Hall e Hin). lia.
      * destruct H as (_ & Hall). specialize (Hall e Hin). lia.
    + exists (List.length seen). split.
      * rewrite nth_error_app2 by lia. now rewrite Nat.sub_diag.
      * intros j e Hj Hnth. rewrite nth_error_app1 in Hnth by exact Hj.
        apply nth_error_In in Hnth.
        destruct best as [b|]; cbn [best_of] in H.
        -- destruct H as (_ & _ & Hall & _). specialize (Hall e Hnth). lia.
        -- destruct H as (_ & Hall). specialize (Hall e Hnth). lia.
  - (* long enough, but not longer than the best *)
    apply Nat.ltb_lt in E100. apply Nat.ltb_ge in Emax.
    destruct best as [b|]; cbn [best_of] in *.
    + destruct H as (Hb & H100 & Hall & i & Hi & Hfirst).
      split; [exact Hb|]. split; [exact H100|]. split.
      * intros e [Hin|[<-|[]]]%in_app_or; [now apply Hall | exact Emax].
      * exists i. assert (i < List.length seen)
          by (apply nth_error_Some; congruence).
        split; [now rewrite nth_error_app1|].
        intros j e Hj Hnth. rewrite nth_error_app1 in Hnth by lia.
        now apply (Hfirst j).
    + destruct H as (-> & _). lia.
  - (* at most 100 characters *)
    apply Nat.ltb_ge in E100.
    destruct best as [b|]; cbn [best_of] in *.
    + destruct H as (Hb & H100 & Hall & i & Hi & Hfirst).
      split; [exact Hb|]. split; [exact H100|]. split.
      * intros e [Hin|[<-|[]]]%in_app_or; [now apply Hall | lia].
      * exists i. assert (i < List.length seen)
          by (apply nth_error_Some; congruence).
        split; [now rewrite nth_error_app1|].
        intros j e Hj Hnth. rewrite nth_error_app1 in Hnth by lia.
        now apply (Hfirst j).
    + destruct H as (Hl & Hall). split; [exact Hl|].
      intros e [Hin|[<-|[]]]%in_app_or; [now apply Hall | exact E100].
Qed.

Lemma heuristic_best_of (elements seen : list WebProcessor.Element)
    (best : option WebProcessor.Element) (longest : nat) :
  best_of seen best longest ->
  best_of (seen ++ elements)
    (fst (WebProcessor.heuristic elements best longest))
    (snd (WebProcessor.heuristic elements best longest)).
Proof.
  revert seen best longest.
  induction elements as [|element rest IH]; intros seen best longest H.
  - now rewrite List.app_nil_r.
  - cbn [WebProcessor.heuristic].
    replace (seen ++ element :: rest) with ((seen ++ [element]) ++ rest)
      by now rewrite <- List.app_assoc.
    pose proof (best_of_step seen best longest element H) as Hstep.
    destruct ((100 <? WebProcessor.text_length element)%nat
              && (longest <? WebProcessor.text_length element)%nat);
      now apply IH.
Qed.

(** the heuristic, started as the program starts it, has looked at every
    element *)
Lemma heuristic_all_seen (elements : list WebProcessor.Element) :
  best_of elements
    (fst (WebProcessor.heuristic elements None 0))
    (snd (WebProcessor.heuristic elements None 0)).
Proof.
  assert (H0 : best_of [] None 0).
  { split; [reflexivity|]. intros e []. }
  exact (heuristic_best_of elements [] None 0 H0).
Qed.

(** X1. The heuristic of lines 197-208 returns the element with the
    greatest text length among the candidates with more than 100
    characters, and the first such element in document order when several
    have that length; it returns no element exactly when no candidate has
    more than 100 characters. *)
Theorem heuristic_picks_first_longest
    (elements : list WebProcessor.Element) :
  match WebProcessor.heuristic elements None 0 with
  | (Some best, longest) =>
      WebProcessor.text_length best = longest
      /\ 100 < longest
      /\ (forall e, In e elements -> WebProcessor.text_length e <= longest)
      /\ exists i, nth_error elements i = Some best
           /\ forall j e, j < i -> nth_error elements j = Some e ->
                WebProcessor.text_length e < longest
  | (None, _) =>
      forall e, In e elements -> WebProcessor.text_length e <= 100
  end.
Proof.
  pose proof (heuristic_all_seen elements) as H.
  destruct (WebProcessor.heuristic elements None 0) as [[best|] longest];
    cbn [fst snd best_of] in H.
  - exact H.
  - apply H.
Qed.

(** X2. Extraction (lines 187-221) finds no main content exactly when the
    selector is absent, empty or matches nothing, no candidate container
    has more than 100 characters, and the page has no body.  When the
    selector matches, its element is the result and nothing is logged. *)
Theorem main_content_none_iff (main_content_selector : option string)
    (url_without_fragment : string) (link_soup : WebProcessor.Soup)
    (w : WebProcessor.World) :
  (fst (WebProcessor.main_content main_content_selector url_without_fragment
          link_soup w) = None
   <-> (match main_content_selector with
        | Some sel =>
            sel = "" \/ WebProcessor.select_one link_soup sel = None
        | None => True
        end
        /\ (forall e, In e (WebProcessor.find_all_containers link_soup) ->
              WebProcessor.text_length e <= 100)
        /\ WebProcessor.find_body link_soup = None))
  /\ (forall sel e,
        main_content_selector = Some sel -> sel <> "" ->
        WebProcessor.select_one link_soup sel = Some e ->
        WebProcessor.main_content main_content_selector url_without_fragment
          link_soup w = (Some e, w)).
Proof.
  pose proof (heuristic_all_seen
                (WebProcessor.find_all_containers link_soup)) as Hh.
  split.
  - unfold WebProcessor.main_content, WebProcessor.selector_given.
    destruct main_content_selector as [sel|].
    + destruct sel as [|c sel]; cbn [Str.is_empty].
      * destruct (WebProcessor.heuristic _ None 0) as [[best|] longest];
          cbn [fst]; split.
        -- discriminate.
        -- intros (_ & Hall & _). destruct Hh as (Hb & H100 & _ & i & Hi & _).
           apply nth_error_In in Hi. specialize (Hall _ Hi). lia.
        -- intros Hbody. split; [now left|]. split; [apply Hh | assumption].
        -- now intros (_ & _ & Hbody).
      * destruct (WebProcessor.select_one link_soup (String c sel)) as [e|].
        -- cbn [fst]. split; [discriminate|].
           intros ([Hsel|Hsel] & _); discriminate.
        -- destruct (WebProcessor.heuristic _ None 0) as [[best|] longest];
             cbn [fst]; split.
           ++ discriminate.
           ++ intros (_ & Hall & _).
              destruct Hh as (Hb & H100 & _ & i & Hi & _).
              apply nth_error_In in Hi. specialize (Hall _ Hi). lia.
           ++ intros Hbody. split; [now right|]. split; [apply Hh | assumption].
           ++ now intros (_ & _ & Hbody).
    + destruct (WebProcessor.heuristic _ None 0) as [[best|] longest];
        cbn [fst]; split.
      * discriminate.
      * intros (_ & Hall & _). destruct Hh as (Hb & H100 & _ & i & Hi & _).
        apply nth_error_In in Hi. specialize (Hall _ Hi). lia.
      * intros Hbody. split; [exact I|]. split; [apply Hh | assumption].
      * now intros (_ & _ & Hbody).
  - intros sel e -> Hne Hsel.
    unfold WebProcessor.main_content, WebProcessor.selector_given.
    destruct sel as [|c sel]; [congruence|]. cbn [Str.is_empty].
    now rewrite Hsel.
Qed.

Lemma main_content_none_iff_witness :
  WebProcessor.main_content (Some "main") "https://ex.com/docs/a.html"
    (selectable_soup (WebProcessor.mkElement [97%N] 1 []))
    WebProcessor.empty_world
  = (Some (WebProcessor.mkElement [97%N] 1 []), WebProcessor.empty_world).
Proof.
  destruct (main_content_none_iff (Some "main") "https://ex.com/docs/a.html"
              (selectable_soup (WebProcessor.mkElement [97%N] 1 []))
              WebProcessor.empty_world) as [_ H].
  apply (H "main"); [reflexivity | discriminate | reflexivity].
Defined.

(** ** File names *)

Lemma forallb_contains (p : ascii -> bool) (c : ascii) (s : string) :
  Str.forallb p s = true -> p c = false -> Str.contains c s = false.
Proof.
  intros Hs Hc. induction s as [|a s IH]; [reflexivity|].
  cbn [Str.forallb Str.contains] in *.
  apply andb_prop in Hs as [Ha Hs].
  destruct (Ascii.eqb a c) eqn:E.
  - apply Ascii.eqb_eq in E as ->. congruence.
  - now apply IH.
Qed.

Lemma sanitize_cases (x : string) :
  WebProcessor.sanitize x = "untitled_page"
  \/ (WebProcessor.sanitize x
      = Str.strip WebProcessor.underscore_or_hyphen
          (Str.filter kept (Str.replace_char " " "_" (Str.lower x)))
      /\ WebProcessor.sanitize x <> "").
Proof.
  unfold WebProcessor.sanitize. fold kept.
  destruct (Str.strip _ _) as [|c s] eqn:E; cbn [Str.is_empty].
  - now left.
  - right. split; [reflexivity | discriminate].
Qed.

Lemma sanitize_settled (x : string) :
  Str.forallb settled (WebProcessor.sanitize x) = true
  /\ Str.strip WebProcessor.underscore_or_hyphen (WebProcessor.sanitize x)
     = WebProcessor.sanitize x
  /\ WebProcessor.sanitize x <> "".
Proof.
  destruct (sanitize_cases x) as [->|[-> Hne]].
  - split; [reflexivity|]. split; [reflexivity | discriminate].
  - split; [apply forallb_strip, filtered_settled|].
    split; [apply strip_idempotent | exact Hne].
Qed.

(** a sanitized name can be joined to a directory: it is not empty and has
    no slash *)
Lemma sanitize_stem (x : string) :
  WebProcessor.sanitize x <> ""
  /\ Str.contains "/" (WebProcessor.sanitize x) = false
  /\ Str.startswith (WebProcessor.sanitize x) "/" = false.
Proof.
  destruct (sanitize_settled x) as (Hall & _ & Hne).
  assert (Hslash : Str.contains "/" (WebProcessor.sanitize x) = false)
    by now apply (forallb_contains settled).
  split; [exact Hne|]. split; [exact Hslash|].
  destruct (WebProcessor.sanitize x) as [|c s]; [congruence|].
  rewrite startswith_slash_cons. cbn [Str.contains] in Hslash.
  apply orb_false_elim in Hslash as [Hc _].
  rewrite Ascii.eqb_sym. exact Hc.
Qed.

(** X3. A sanitized file name (lines 247-256) is safe to use inside a
    directory, whatever the string of Unicode code points it is made from:
    it is never empty; each of its code points is alphanumeric, an
    underscore or a hyphen, is its own lower case and is not a space; so it
    holds no slash, no dot and no space; lower-casing it changes nothing;
    and it neither starts nor ends with an underscore or a hyphen. *)
Theorem sanitize_is_safe (x : Unicode.ustr) :
  WebProcessor.sanitize_ustr x <> []
  /\ List.forallb settled_code (WebProcessor.sanitize_ustr x) = true
  /\ List.forallb kept_code (WebProcessor.sanitize_ustr x) = true
  /\ ~ In 47%N (WebProcessor.sanitize_ustr x)
  /\ ~ In 46%N (WebProcessor.sanitize_ustr x)
  /\ ~ In 32%N (WebProcessor.sanitize_ustr x)
  /\ Unicode.lower (WebProcessor.sanitize_ustr x)
     = WebProcessor.sanitize_ustr x
  /\ Unicode.strip WebProcessor.underscore_or_hyphen_code
       (WebProcessor.sanitize_ustr x)
     = WebProcessor.sanitize_ustr x.
Proof.
  destruct (sanitize_ustr_settled x) as (Hne & Hall & Hstrip).
  assert (Hnot : forall c, settled_code c = false ->
            ~ In c (WebProcessor.sanitize_ustr x)).
  { intros c Hc Hin. rewrite List.forallb_forall in Hall.
    rewrite (Hall c Hin) in Hc. discriminate Hc. }
  split; [exact Hne|]. split; [exact Hall|]. split.
  { rewrite List.forallb_forall in *. intros c Hc.
    now destruct (settled_code_facts c (Hall c Hc)) as (Hk & _). }
  split; [now apply Hnot|]. split; [now apply Hnot|].
  split; [now apply Hnot|]. split; [|exact Hstrip].
  now apply lower_settled.
Qed.

Lemma string_of_uint_decimal (d : Decimal.uint) :
  Str.forallb Str.isdecimal (NilEmpty.string_of_uint d) = true.
Proof. induction d; cbn [NilEmpty.string_of_uint Str.forallb]; auto. Qed.

Lemma of_nat_no_slash (k : nat) : Str.contains "/" (Str.of_nat k) = false.
Proof.
  apply (forallb_contains Str.isdecimal); [|reflexivity].
  apply string_of_uint_decimal.
Qed.

Lemma md_path_inside (dir name : string) :
  Str.startswith name "/" = false ->
  name <> "" ->
  WebProcessor.md_path dir name = inside dir (name +:+ ".md").
Proof.
  intros Hs Hne. unfold WebProcessor.md_path, Posixpath.join, inside.
  cbn [fold_left]. unfold Posixpath.join2.
  destruct name as [|c name]; [congruence|].
  rewrite append_cons, startswith_slash_cons.
  rewrite startswith_slash_cons in Hs. now rewrite Hs.
Qed.

(** X4. The file of a link is created directly in its output directory,
    under the sanitized name or that name followed by [_k] for some
    [k >= 1], with the extension [.md]: for any files, directory and
    filename base, the uniqueness loop of lines 290-301 returns such a path,
    which does not exist yet, and the name has no slash in it. *)
Theorem markdown_filename_shape (fs : gmap string Codec.text)
    (dir filename_base : string) :
  exists name,
    WebProcessor.unique_name fs dir (WebProcessor.sanitize filename_base)
    = Some (inside dir (name +:+ ".md"))
    /\ fs !! inside dir (name +:+ ".md") = None
    /\ Str.contains "/" name = false
    /\ (name = WebProcessor.sanitize filename_base
        \/ exists k, 1 <= k
             /\ name = WebProcessor.sanitize filename_base
                       +:+ "_" +:+ Str.of_nat k).
Proof.
  destruct (sanitize_stem filename_base) as (Hne & Hslash & Hstart).
  set (stem := WebProcessor.sanitize filename_base) in *.
  destruct (unique_name_first_free fs dir stem) as (k & Hk & Hfree & _).
  destruct k as [|k].
  - exists stem. cbn [candidate] in Hk, Hfree.
    rewrite md_path_inside in Hk, Hfree by assumption.
    split; [exact Hk|]. split; [exact Hfree|]. split; [exact Hslash|].
    now left.
  - exists (WebProcessor.numbered stem (S k)). cbn [candidate] in Hk, Hfree.
    assert (Hstart' : Str.startswith (WebProcessor.numbered stem (S k)) "/"
                      = false).
    { unfold WebProcessor.numbered. destruct stem as [|c s]; [congruence|].
      rewrite append_cons, startswith_slash_cons.
      now rewrite startswith_slash_cons in Hstart. }
    assert (Hne' : WebProcessor.numbered stem (S k) <> "").
    { unfold WebProcessor.numbered. destruct stem as [|c s]; [congruence|].
      rewrite append_cons. discriminate. }
    rewrite md_path_inside in Hk, Hfree by assumption.
    split; [exact Hk|]. split; [exact Hfree|]. split.
    + unfold WebProcessor.numbered. rewrite !contains_append, Hslash.
      now rewrite of_nat_no_slash.
    + right. exists (S k). split; [lia | reflexivity].
Qed.

(** ** The scope *)

Section Scope.

Variable check_bracketed_netloc : string -> bool.
Variable nfkc_netloc_ok : string -> bool.

Lemma dirname_clean (c : ascii) (p : string) :
  Str.contains c p = false -> Str.contains c (Posixpath.dirname p) = false.
Proof.
  intros H. unfold Posixpath.dirname.
  destruct (_ && _); [apply contains_rstrip|]; now apply contains_take.
Qed.

Lemma with_trailing_slash (p : string) :
  Str.endswith (if negb (Str.endswith p "/") then p +:+ "/" else p) "/" = true.
Proof.
  destruct (Str.endswith p "/") eqn:E; cbn [negb]; [exact E|].
  apply endswith_suffix. now exists p.
Qed.

(** [urlunsplit] with neither query nor fragment ends with the path that it
    is given, and holds no character that the scheme, the host and the path
    do not hold, apart from colons and slashes. *)
Lemma urlunsplit_path (c : ascii) (sch nl url : string) :
  (exists pre, Urllib.urlunsplit sch nl url "" "" = pre +:+ url)
  /\ (c <> ":"%char -> c <> "/"%char ->
      Str.contains c sch = false -> Str.contains c nl = false ->
      Str.contains c url = false ->
      Str.contains c (Urllib.urlunsplit sch nl url "" "") = false).
Proof.
  unfold Urllib.urlunsplit. cbn [Str.is_empty negb].
  set (A := negb (Str.is_empty nl) || _).
  set (B := negb (Str.is_empty url) && _).
  set (C := negb (Str.is_empty sch)).
  split.
  - exists ((if C then sch +:+ ":" else "")
            +:+ (if A then "//" +:+ nl +:+ (if B then "/" else "") else "")).
    destruct A, B, C; rewrite ?append_assoc, ?append_empty_r; reflexivity.
  - intros Hcolon Hslash Hs Hn Hu.
    assert (Ecolon : Str.contains c ":" = false).
    { cbn [Str.contains]. rewrite orb_false_r.
      apply Ascii.eqb_neq. congruence. }
    assert (Eslash : Str.contains c "/" = false).
    { cbn [Str.contains]. rewrite orb_false_r.
      apply Ascii.eqb_neq. congruence. }
    assert (Eslashes : Str.contains c "//" = false).
    { change "//" with ("/" +:+ "/"). now rewrite contains_append, Eslash. }
    destruct A, B, C;
      rewrite ?contains_append, ?Hs, ?Hn, ?Hu, ?Ecolon, ?Eslash, ?Eslashes;
      reflexivity.
Qed.

(** X5. The scope derived from a start URL (lines 83-89) always ends with a
    slash and holds neither a query nor a fragment: no question mark and no
    hash.  It is the scheme and host of the start URL followed by the base
    path that the output mapping uses (lines 126-134), which ends with a
    slash too. *)
Theorem scope_ends_with_slash (start_url scope : string) :
  WebProcessor.parent_url_base check_bracketed_netloc nfkc_netloc_ok start_url
  = Ok scope ->
  Str.endswith scope "/" = true
  /\ Str.contains "?" scope = false
  /\ Str.contains "#" scope = false
  /\ exists parsed base,
       WebProcessor.urlparse check_bracketed_netloc nfkc_netloc_ok start_url
       = Ok parsed
       /\ WebProcessor.base_path_for_relative check_bracketed_netloc
            nfkc_netloc_ok start_url = Ok base
       /\ Str.endswith base "/" = true
       /\ scope = Urllib.urlunparse
                    (Urllib.mkParse (Urllib.scheme parsed)
                       (Urllib.netloc parsed) base "" "" "").
Proof.
  unfold WebProcessor.parent_url_base, WebProcessor.base_path_for_relative.
  destruct (WebProcessor.urlparse _ _ start_url) as [parsed|e] eqn:Ep;
    [|discriminate].
  cbn [rbind]. intros H. injection H as <-.
  set (dir := Posixpath.dirname (Urllib.path parsed)).
  set (parent_path := if negb (Str.endswith dir "/") then dir +:+ "/" else dir).
  assert (Hend : Str.endswith parent_path "/" = true)
    by apply with_trailing_slash.
  assert (Hbase : (if negb (Str.endswith (if Str.is_empty dir then "/" else dir)
                                "/")
                   then (if Str.is_empty dir then "/" else dir) +:+ "/"
                   else (if Str.is_empty dir then "/" else dir))
                  = parent_path).
  { unfold parent_path. now destruct dir. }
  unfold Urllib.urlunparse.
  cbn [Urllib.params Urllib.path Urllib.scheme Urllib.netloc Urllib.query
       Urllib.fragment Str.is_empty negb].
  assert (Hclean : forall c, c = "?"%char \/ c = "#"%char ->
            Str.contains c
              (Urllib.urlunsplit (Urllib.scheme parsed) (Urllib.netloc parsed)
                 parent_path "" "") = false).
  { intros c Hc.
    destruct (urlparse_clean _ _ _ _ c Hc Ep) as (H1 & H2 & H3 & _).
    apply urlunsplit_path; try assumption.
    - destruct Hc as [-> | ->]; discriminate.
    - destruct Hc as [-> | ->]; discriminate.
    - assert (Hdir : Str.contains c dir = false)
        by (apply dirname_clean; exact H3).
      unfold parent_path.
      destruct (negb (Str.endswith dir "/")); [|exact Hdir].
      rewrite contains_append, Hdir.
      destruct Hc as [-> | ->]; reflexivity. }
  split.
  - destruct (urlunsplit_path "?" (Urllib.scheme parsed)
                (Urllib.netloc parsed) parent_path) as [[pre ->] _].
    now apply endswith_prepend.
  - split; [apply Hclean; now left|]. split; [apply Hclean; now right|].
    exists parsed, parent_path. split; [reflexivity|].
    split; [now rewrite Hbase|]. split; [exact Hend | reflexivity].
Qed.

End Scope.

Lemma scope_ends_with_slash_witness :
  Str.endswith "https://ex.com/docs/" "/" = true
  /\ Str.contains "?" "https://ex.com/docs/" = false
  /\ Str.contains "#" "https://ex.com/docs/" = false
  /\ exists parsed base,
       WebProcessor.urlparse WebProcessor.always WebProcessor.always
         scenario_A_start_url = Ok parsed
       /\ WebProcessor.base_path_for_relative WebProcessor.always
            WebProcessor.always scenario_A_start_url = Ok base
       /\ Str.endswith base "/" = true
       /\ "https://ex.com/docs/"
          = Urllib.urlunparse
              (Urllib.mkParse (Urllib.scheme parsed) (Urllib.netloc parsed)
                 base "" "" "").
Proof.
  apply (scope_ends_with_slash WebProcessor.always WebProcessor.always
           scenario_A_start_url "https://ex.com/docs/").
  vm_compute. reflexivity.
Defined.

(** ** Completeness of the link collection *)

Section Completeness.

Variable check_bracketed_netloc : string -> bool.
Variable nfkc_netloc_ok : string -> bool.

Local Abbreviation urljoin :=
  (WebProcessor.urljoin check_bracketed_netloc nfkc_netloc_ok).
Local Abbreviation url_without_fragment :=
  (WebProcessor.url_without_fragment check_bracketed_netloc nfkc_netloc_ok).
Local Abbreviation resolved_links :=
  (WebProcessor.resolved_links check_bracketed_netloc nfkc_netloc_ok).

(** Every anchor with a non-empty [href] is among the resolved anchors. *)
Lemma resolved_links_complete start_url links seen :
  resolved_links start_url links = Ok seen ->
  forall tag link_url key,
    In tag links ->
    Str.is_empty (WebProcessor.href tag) = false ->
    urljoin start_url (WebProcessor.href tag) = Ok link_url ->
    url_without_fragment link_url = Ok key ->
    In (key, (tag, link_url)) seen.
Proof.
  revert seen. induction links as [|link rest IH]; intros seen H;
    [intros ? ? ? []|].
  cbn [WebProcessor.resolved_links] in H.
  intros tag link_url key Hin Hne Hjoin Hkey.
  destruct (Str.is_empty (WebProcessor.href link)) eqn:Eh.
  - destruct Hin as [->|Hin]; [congruence|]. now apply (IH seen H tag).
  - destruct (urljoin start_url (WebProcessor.href link)) as [u|] eqn:Eu;
      [|discriminate H].
    cbn [rbind] in H.
    destruct (url_without_fragment u) as [k|] eqn:Ek; [|discriminate H].
    cbn [rbind] in H.
    destruct (resolved_links start_url rest) as [r|]; [|discriminate H].
    cbn [rbind] in H. injection H as <-.
    destruct Hin as [->|Hin].
    + left. congruence.
    + right. now apply (IH r eq_refl tag).
Qed.

(** X6. The collection loses no link and invents none: a URL without
    fragment is the key of a collected entry exactly when some anchor of
    the link-source element with a non-empty [href] resolves to it and it
    starts with the scope. *)
Theorem collected_keys_are_the_in_scope_urls (start_url : string)
    (links : list WebProcessor.Tag) (out : list (WebProcessor.Tag * string))
    (key : string) :
  WebProcessor.filtered_links_info check_bracketed_netloc nfkc_netloc_ok
    start_url links = Ok out ->
  (exists o, In o out /\ url_without_fragment (snd o) = Ok key)
  <-> (exists tag link_url scope,
         In tag links
         /\ Str.is_empty (WebProcessor.href tag) = false
         /\ urljoin start_url (WebProcessor.href tag) = Ok link_url
         /\ url_without_fragment link_url = Ok key
         /\ WebProcessor.parent_url_base check_bracketed_netloc nfkc_netloc_ok
              start_url = Ok scope
         /\ Str.startswith key scope = true).
Proof.
  unfold WebProcessor.filtered_links_info. intros H.
  destruct (WebProcessor.unique_links _ _ start_url links) as [m|] eqn:Em;
    [|discriminate H].
  cbn [rbind] in H. injection H as <-.
  destruct (unique_links_collected _ _ _ _ _ Em)
    as (scope & seen & Hs & Hr & Hc).
  assert (Hentry : forall e, In e m ->
            In e seen /\ Str.startswith (fst e) scope = true).
  { intros e Hin. split; [|exact (coll_scope _ _ _ Hc e Hin)].
    eapply nth_error_In, (coll_first _ _ _ Hc e Hin). }
  split.
  - intros ([tag url] & [[k [tag' url']] [Heq Hin]]%in_map_iff & Hkey).
    cbn [snd] in Heq, Hkey. injection Heq as -> ->.
    destruct (Hentry _ Hin) as [Hseen Hscope]. cbn [fst] in Hscope.
    destruct (resolved_links_sound _ _ _ _ _ Hr _ _ _ Hseen)
      as (Htag & Hne & Hjoin & Hk).
    assert (k = key) as -> by congruence.
    exists tag, url, scope. repeat split; assumption.
  - intros (tag & link_url & scope' & Htag & Hne & Hjoin & Hkey & Hs' & Hin).
    assert (scope' = scope) as -> by congruence.
    pose proof (resolved_links_complete _ _ _ Hr _ _ _ Htag Hne Hjoin Hkey)
      as Hseen.
    pose proof (coll_all _ _ _ Hc _ Hseen Hin) as Hk. cbn [fst] in Hk.
    apply in_map_iff in Hk as ([k [tag' url']] & Heq & Hm).
    cbn [fst] in Heq. subst k.
    exists (tag', url'). split.
    + apply in_map_iff. now exists (key, (tag', url')).
    + destruct (Hentry _ Hm) as [Hseen' _].
      now destruct (resolved_links_sound _ _ _ _ _ Hr _ _ _ Hseen')
        as (_ & _ & _ & ?).
Qed.

End Completeness.

Lemma collected_keys_are_the_in_scope_urls_witness :
  (exists o,
      In o [(WebProcessor.mkTag "/docs/a.html" "A",
             "https://ex.com/docs/a.html");
            (WebProcessor.mkTag "/docs/b.html#sec" "B",
             "https://ex.com/docs/b.html#sec")]
      /\ WebProcessor.url_without_fragment WebProcessor.always
           WebProcessor.always (snd o) = Ok "https://ex.com/docs/b.html")
  <-> (exists tag link_url scope,
         In tag scenario_A_links
         /\ Str.is_empty (WebProcessor.href tag) = false
         /\ WebProcessor.urljoin WebProcessor.always WebProcessor.always
              scenario_A_start_url (WebProcessor.href tag) = Ok link_url
         /\ WebProcessor.url_without_fragment WebProcessor.always
              WebProcessor.always link_url = Ok "https://ex.com/docs/b.html"
         /\ WebProcessor.parent_url_base WebProcessor.always
              WebProcessor.always scenario_A_start_url = Ok scope
         /\ Str.startswith "https://ex.com/docs/b.html" scope = true).
Proof.
  apply (collected_keys_are_the_in_scope_urls WebProcessor.always
           WebProcessor.always scenario_A_start_url scenario_A_links).
  vm_compute. reflexivity.
Defined.

(** ** What a run does to the outside *)

Lemma grows_inner_refl url w : grows_inner url w w.
Proof. split; [reflexivity|]. exists []. now rewrite List.app_nil_r. Qed.

Lemma grows_inner_trans url w1 w2 w3 :
  grows_inner url w1 w2 -> grows_inner url w2 w3 -> grows_inner url w1 w3.
Proof.
  intros [Hf1 (tr1 & Ht1 & Hq1)] [Hf2 (tr2 & Ht2 & Hq2)].
  split; [congruence|]. exists (tr1 ++ tr2). split.
  - now rewrite Ht2, Ht1, List.app_assoc.
  - now apply List.Forall_app.
Qed.

Lemma grows_inner_emit url e w :
  inner_event url e -> grows_inner url w (WebProcessor.emit e w).
Proof.
  intros He. split; [reflexivity|]. exists [e]. split; [reflexivity|].
  now constructor.
Qed.

Lemma grows_inner_advance url d w :
  grows_inner url w (WebProcessor.advance d w).
Proof. split; [reflexivity|]. exists []. now rewrite List.app_nil_r. Qed.

Ltac inner_step :=
  first [ apply grows_inner_advance
        | apply grows_inner_emit; cbn; auto ].

Lemma inner_events_facts url tr :
  List.Forall (inner_event url) tr ->
  writes tr = [] /\ announced tr = [] /\ List.Forall (eq url) (requested tr).
Proof.
  induction 1 as [|e tr He _ (IH1 & IH2 & IH3)]; [now repeat split|].
  unfold writes, announced, requested in *. cbn [List.flat_map].
  rewrite IH1, IH2.
  destruct e as [l m|u t|s|d|p]; cbn [inner_event] in He; cbn [app].
  - destruct m; now repeat split.
  - split; [reflexivity|]. split; [reflexivity|]. now constructor.
  - now repeat split.
  - now repeat split.
  - destruct He.
Qed.

Section Outside.

Variable check_bracketed_netloc : string -> bool.
Variable nfkc_netloc_ok : string -> bool.
Variable other_codecs : string -> option Codec.codec.
Variable cwd : string.
Variable BeautifulSoup : Codec.text -> WebProcessor.Soup.
Variable decompose_all : list string -> WebProcessor.Soup -> WebProcessor.Soup.
Variable html2text : Codec.text -> Codec.text.
Variable can_write : string -> bool.

Local Abbreviation retry_loop := (WebProcessor.retry_loop other_codecs).
Local Abbreviation fetch := (WebProcessor.fetch other_codecs).
Local Abbreviation url_without_fragment :=
  (WebProcessor.url_without_fragment check_bracketed_netloc nfkc_netloc_ok).
Local Abbreviation process_link :=
  (WebProcessor.process_link check_bracketed_netloc nfkc_netloc_ok
     other_codecs cwd BeautifulSoup decompose_all html2text can_write).
Local Abbreviation process_links :=
  (WebProcessor.process_links check_bracketed_netloc nfkc_netloc_ok
     other_codecs cwd BeautifulSoup decompose_all html2text can_write).
Local Abbreviation process_document :=
  (WebProcessor.process_document check_bracketed_netloc nfkc_netloc_ok
     other_codecs cwd BeautifulSoup decompose_all html2text can_write).

Lemma retry_loop_inner page url timeout budget start net w res net' w' :
  retry_loop page url timeout budget start net w = Some (res, net', w') ->
  grows_inner url w w'.
Proof.
  revert w. induction net as [|a net IH]; intros w Hrun;
    cbn [WebProcessor.retry_loop] in Hrun;
    destruct (negb _).
  - injection Hrun as <- <- <-. inner_step.
  - discriminate Hrun.
  - injection Hrun as <- <- <-. inner_step.
  - destruct a as [took r|took slept|took].
    + injection Hrun as <- <- <-.
      eapply grows_inner_trans; [|inner_step]. inner_step.
    + apply IH in Hrun.
      eapply grows_inner_trans; [|exact Hrun].
      eapply grows_inner_trans; [|inner_step].
      eapply grows_inner_trans; [|inner_step].
      eapply grows_inner_trans; [|inner_step].
      eapply grows_inner_trans; [|inner_step]. inner_step.
    + injection Hrun as <- <- <-.
      eapply grows_inner_trans; [|inner_step]. inner_step.
Qed.

Lemma main_content_inner url sel uwf soup w el w' :
  WebProcessor.main_content sel uwf soup w = (el, w') ->
  grows_inner url w w'.
Proof.
  unfold WebProcessor.main_content. intros H.
  destruct (WebProcessor.selector_given sel) as [s|].
  - destruct (WebProcessor.select_one soup s) as [e|].
    + injection H as <- <-. apply grows_inner_refl.
    + destruct (WebProcessor.heuristic _ None 0) as [[best|] n];
        injection H as <- <-;
        (eapply grows_inner_trans; [|inner_step]; inner_step).
  - destruct (WebProcessor.heuristic _ None 0) as [[best|] n];
      injection H as <- <-; inner_step.
Qed.

(** One iteration of the processing loop announces its link once, requests
    the URL of its link only, and writes at most one file, under a name
    that did not exist and that could be written. *)
Lemma process_link_trace a base root tag url net w res net' w' :
  process_link a base root tag url net w = Some (res, net', w') ->
  exists tr,
    WebProcessor.trace w' = WebProcessor.trace w ++ tr
    /\ announced tr = [url]
    /\ List.Forall (eq url) (requested tr)
    /\ ((writes tr = [] /\ WebProcessor.files w' = WebProcessor.files w)
        \/ exists p md,
             writes tr = [p]
             /\ WebProcessor.files w !! p = None
             /\ can_write p = true
             /\ WebProcessor.files w' = <[p := md]> (WebProcessor.files w)).
Proof.
  unfold WebProcessor.process_link. intros H.
  set (w1 := WebProcessor.emit _ w) in H.
  assert (Hquiet : forall w2, grows_inner url w1 w2 ->
            exists tr,
              WebProcessor.trace w2 = WebProcessor.trace w ++ tr
              /\ announced tr = [url]
              /\ List.Forall (eq url) (requested tr)
              /\ writes tr = []
              /\ WebProcessor.files w2 = WebProcessor.files w).
  { intros w2 [Hf (tr & Htr & Hin)].
    destruct (inner_events_facts url tr Hin) as (Hw & Ha & Hr).
    exists (WebProcessor.Log WebProcessor.INFO
              (WebProcessor.FetchingLinkedPage url) :: tr).
    subst w1. cbn [WebProcessor.emit WebProcessor.trace WebProcessor.files] in *.
    split; [now rewrite Htr, <- List.app_assoc|].
    unfold announced, requested, writes in *. cbn [List.flat_map app].
    rewrite Ha, Hw. repeat split; try assumption; reflexivity. }
  assert (Hleft : forall w2, grows_inner url w1 w2 ->
            exists tr,
              WebProcessor.trace w2 = WebProcessor.trace w ++ tr
              /\ announced tr = [url]
              /\ List.Forall (eq url) (requested tr)
              /\ ((writes tr = []
                   /\ WebProcessor.files w2 = WebProcessor.files w)
                  \/ exists p md,
                       writes tr = [p]
                       /\ WebProcessor.files w !! p = None
                       /\ can_write p = true
                       /\ WebProcessor.files w2
                          = <[p := md]> (WebProcessor.files w))).
  { intros w2 Hg. destruct (Hquiet w2 Hg) as (tr & H1 & H2 & H3 & H4 & H5).
    exists tr. repeat split; try assumption. left. now split. }
  assert (H2 : grows_inner url w1 w1) by apply grows_inner_refl.
  clearbody w1.
  destruct (url_without_fragment url) as [uwf|e].
  2:{ injection H as <- <- <-. now apply Hleft. }
  destruct (fetch _ url a net w1) as [[[r net1] w3]|] eqn:Ef;
    [|discriminate H].
  apply retry_loop_inner in Ef.
  assert (H3 : grows_inner url w1 w3)
    by (eapply grows_inner_trans; eassumption).
  clear H2 Ef.
  destruct r as [[html|]|e].
  2:{ injection H as <- <- <-. now apply Hleft. }
  2:{ injection H as <- <- <-. now apply Hleft. }
  destruct (WebProcessor.main_content _ uwf _ w3) as [[el|] w4] eqn:Em.
  2:{ injection H as <- <- <-. apply Hleft.
      apply (main_content_inner url) in Em.
      eapply grows_inner_trans; [exact H3|].
      eapply grows_inner_trans; [exact Em|]. inner_step. }
  apply (main_content_inner url) in Em.
  assert (H4 : grows_inner url w1 w4)
    by (eapply grows_inner_trans; eassumption).
  clear H3 Em.
  destruct (WebProcessor.filename_base _ _ tag uwf) as [fb|e].
  2:{ injection H as <- <- <-. now apply Hleft. }
  destruct (WebProcessor.urlparse _ _ uwf) as [parsed|e].
  2:{ injection H as <- <- <-. now apply Hleft. }
  destruct (WebProcessor.relative_link_path cwd _ base) as [rel|e].
  2:{ injection H as <- <- <-. apply Hleft.
      eapply grows_inner_trans; [exact H4|]. inner_step. }
  set (dir := WebProcessor.file_output_dir _ root rel) in H.
  set (w5 := WebProcessor.emit (WebProcessor.Makedirs dir) w4) in H.
  assert (H5 : grows_inner url w1 w5).
  { eapply grows_inner_trans; [exact H4|]. subst w5. inner_step. }
  clearbody w5.
  destruct (unique_name_first_free (WebProcessor.files w5) dir
              (WebProcessor.sanitize fb)) as (k & Hk & Hfree & _).
  rewrite Hk in H.
  destruct (can_write (candidate dir (WebProcessor.sanitize fb) k)) eqn:Ew.
  - injection H as <- <- <-.
    destruct (Hquiet w5 H5) as (tr & Htr & Ha & Hr & Hw & Hf).
    set (p := candidate dir (WebProcessor.sanitize fb) k) in *.
    exists (tr ++ [WebProcessor.Write p;
                   WebProcessor.Log WebProcessor.INFO (WebProcessor.Saved p)]).
    cbn [WebProcessor.emit WebProcessor.store WebProcessor.trace
         WebProcessor.files].
    split; [now rewrite Htr, <- !List.app_assoc|].
    unfold announced, requested, writes in *.
    rewrite !List.flat_map_app, Ha, Hw. cbn [List.flat_map app].
    split; [reflexivity|]. split; [now rewrite List.app_nil_r|].
    right. exists p, (html2text (WebProcessor.str_html el)).
    split; [reflexivity|]. split; [now rewrite <- Hf|].
    split; [exact Ew | now rewrite Hf].
  - injection H as <- <- <-. apply Hleft.
    eapply grows_inner_trans; [exact H5|]. inner_step.
Qed.

(** The processing loop announces the links in order, requests their URLs
    only, and writes pairwise distinct files that did not exist before. *)
Lemma process_links_trace a base root infos net w res net' w' :
  process_links a base root infos net w = Some (res, net', w') ->
  exists tr,
    WebProcessor.trace w' = WebProcessor.trace w ++ tr
    /\ (exists n, announced tr = List.firstn n (List.map snd infos))
    /\ (res = Ok tt -> announced tr = List.map snd infos)
    /\ List.Forall (fun u => In u (List.map snd infos)) (requested tr)
    /\ NoDup (writes tr)
    /\ (forall p, In p (writes tr) ->
          WebProcessor.files w !! p = None /\ can_write p = true)
    /\ (forall p, is_Some (WebProcessor.files w' !! p)
                  <-> is_Some (WebProcessor.files w !! p) \/ In p (writes tr))
    /\ List.length (writes tr) <= List.length (announced tr).
Proof.
  revert net w. induction infos as [|[tag url] rest IH]; intros net w Hrun.
  - injection Hrun as <- <- <-. exists [].
    split; [now rewrite List.app_nil_r|]. split; [now exists 0|].
    split; [reflexivity|]. split; [constructor|]. split; [constructor|].
    split; [intros p []|]. split; [|reflexivity]. intros p. cbn. tauto.
  - cbn [WebProcessor.process_links] in Hrun.
    destruct (process_link a base root tag url net w)
      as [[[r net1] w1]|] eqn:El; [|discriminate Hrun].
    destruct (process_link_trace _ _ _ _ _ _ _ _ _ _ El)
      as (tr1 & Htr1 & Ha1 & Hr1 & Hw1).
    assert (Hfiles1 : forall p, is_Some (WebProcessor.files w1 !! p)
              <-> is_Some (WebProcessor.files w !! p) \/ In p (writes tr1)).
    { intros p. destruct Hw1 as [[-> ->]|(q & md & -> & Hq & _ & ->)].
      - cbn. tauto.
      - rewrite lookup_insert_is_Some. cbn. split.
        + intros [->|[_ H]]; [right; now left | now left].
        + intros [H|[->|[]]]; [|now left].
          destruct (decide (q = p)) as [->|Hne]; [now left | now right]. }
    assert (Hfresh1 : forall p, In p (writes tr1) ->
              WebProcessor.files w !! p = None /\ can_write p = true).
    { intros p Hp. destruct Hw1 as [[Hw _]|(q & md & Hw & Hq & Hc & _)];
        rewrite Hw in Hp; [destruct Hp|].
      destruct Hp as [<-|[]]. now split. }
    assert (Hnodup1 : NoDup (writes tr1)).
    { destruct Hw1 as [[-> _]|(q & md & -> & _)];
        [constructor | apply NoDup_singleton]. }
    assert (Hreq1 : List.Forall (fun u => In u (List.map snd ((tag, url) :: rest)))
                      (requested tr1)).
    { eapply List.Forall_impl; [|exact Hr1]. intros u <-. now left. }
    assert (Hlen1 : List.length (writes tr1) <= List.length (announced tr1)).
    { rewrite Ha1. destruct Hw1 as [[-> _]|(q & md & -> & _)]; cbn; lia. }
    destruct r as [[]|e].
    + destruct (IH _ _ Hrun)
        as (tr2 & Htr2 & [n Hn] & Hall & Hr2 & Hnd2 & Hfresh2 & Hfiles2
            & Hlen2).
      exists (tr1 ++ tr2).
      split; [now rewrite Htr2, Htr1, List.app_assoc|].
      unfold announced, requested, writes in *.
      rewrite !List.flat_map_app.
      split; [exists (S n); cbn [List.map snd List.firstn];
              now rewrite Ha1, Hn|].
      split; [intros Hres; cbn [List.map snd]; now rewrite Ha1, Hall|].
      split.
      { apply List.Forall_app. split; [exact Hreq1|].
        eapply List.Forall_impl; [|exact Hr2]. intros u Hu. now right. }
      split.
      { apply NoDup_app. split; [exact Hnodup1|]. split; [|exact Hnd2].
        intros p Hp1%list_elem_of_In Hp2%list_elem_of_In.
        destruct (Hfresh2 p Hp2) as [Hnone _].
        assert (Hsome : is_Some (WebProcessor.files w1 !! p))
          by (apply Hfiles1; now right).
        rewrite Hnone in Hsome. now destruct Hsome. }
      split.
      { intros p [Hp|Hp]%in_app_or; [now apply Hfresh1|].
        destruct (Hfresh2 p Hp) as [Hnone Hc]. split; [|exact Hc].
        destruct (WebProcessor.files w !! p) as [c|] eqn:E; [|reflexivity].
        assert (Hsome : is_Some (WebProcessor.files w1 !! p))
          by (apply Hfiles1; left; now rewrite E).
        rewrite Hnone in Hsome. now destruct Hsome. }
      split; [intros p; rewrite Hfiles2, Hfiles1, in_app_iff; tauto|].
      rewrite !List.length_app. lia.
    + injection Hrun as <- <- <-. exists tr1.
      split; [exact Htr1|].
      split; [exists 1; cbn [List.map snd List.firstn]; now rewrite Ha1|].
      split; [discriminate|]. split; [exact Hreq1|].
      split; [exact Hnodup1|]. split; [exact Hfresh1|].
      split; [exact Hfiles1 | exact Hlen1].
Qed.

(** The run before its processing loop: after the fetch of the start
    page it stops with another outcome than [Completed], having added inner
    events only, or it enters the loop with the links collected from the
    link-source element of the start page.  The clock moves in the fetch
    only. *)
Lemma process_document_cases a net w r net' w' :
  process_document a net w = Some (r, net', w') ->
  exists res net0 w1,
    fetch WebProcessor.StartingPage (WebProcessor.start_url a) a net
      (WebProcessor.emit
         (WebProcessor.Log WebProcessor.INFO
            (WebProcessor.FetchingStartingPage (WebProcessor.start_url a))) w)
    = Some (res, net0, w1)
    /\ ((r <> Ok WebProcessor.Completed
         /\ net' = net0
         /\ WebProcessor.now w' = WebProcessor.now w1
         /\ grows_inner (WebProcessor.start_url a) w w')
        \/ exists html found_by el infos base w0 r0,
             res = Ok (Some html)
             /\ WebProcessor.find_link_source (BeautifulSoup html)
                  (WebProcessor.link_source_selector a) = Some (found_by, el)
             /\ WebProcessor.filtered_links_info check_bracketed_netloc
                  nfkc_netloc_ok (WebProcessor.start_url a)
                  (WebProcessor.anchors el) = Ok infos
             /\ infos <> []
             /\ WebProcessor.base_path_for_relative check_bracketed_netloc
                  nfkc_netloc_ok (WebProcessor.start_url a) = Ok base
             /\ grows_inner (WebProcessor.start_url a) w w0
             /\ WebProcessor.now w0 = WebProcessor.now w1
             /\ process_links a base (WebProcessor.output_root_name base)
                  infos net0 w0 = Some (r0, net', w')
             /\ r = match r0 with
                    | Ok _ => Ok WebProcessor.Completed
                    | Raise e => Raise e
                    end).
Proof.
  unfold WebProcessor.process_document. intros H.
  set (w1 := WebProcessor.emit _ w) in *.
  assert (H1 : grows_inner (WebProcessor.start_url a) w w1)
    by (subst w1; inner_step).
  destruct (fetch _ (WebProcessor.start_url a) a net w1)
    as [[[r1 net1] w2]|] eqn:Ef; [|discriminate H].
  assert (H2 : grows_inner (WebProcessor.start_url a) w w2)
    by (eapply grows_inner_trans; [exact H1|];
        eapply retry_loop_inner; exact Ef).
  clear H1. exists r1, net1, w2. split; [reflexivity|].
  destruct r1 as [[html|]|e].
  2:{ injection H as <- <- <-. left.
      split; [discriminate|]. split; [reflexivity|]. now split. }
  2:{ injection H as <- <- <-. left.
      split; [discriminate|]. split; [reflexivity|]. now split. }
  destruct (WebProcessor.find_link_source _ _) as [[found_by el]|] eqn:Efind.
  2:{ injection H as <- <- <-. left.
      split; [discriminate|]. split; [reflexivity|]. split; [reflexivity|].
      eapply grows_inner_trans; [exact H2 | inner_step]. }
  destruct (WebProcessor.anchors el) as [|l ls] eqn:Eanchors.
  { injection H as <- <- <-. left.
    split; [discriminate|]. split; [reflexivity|]. split; [reflexivity|].
    eapply grows_inner_trans; [exact H2|].
    eapply grows_inner_trans; [|inner_step].
    eapply grows_inner_trans; [|inner_step]. inner_step. }
  set (w3 := WebProcessor.emit _ _) in H.
  assert (H3 : grows_inner (WebProcessor.start_url a) w w3).
  { eapply grows_inner_trans; [exact H2|]. subst w3.
    eapply grows_inner_trans; [|inner_step].
    eapply grows_inner_trans; [|inner_step]. inner_step. }
  assert (N3 : WebProcessor.now w3 = WebProcessor.now w2) by reflexivity.
  clearbody w3.
  destruct (WebProcessor.parent_url_base _ _ _) as [scope|e] eqn:Escope.
  2:{ injection H as <- <- <-. left.
      split; [discriminate|]. split; [reflexivity|]. now split. }
  destruct (WebProcessor.collect_loop _ _ _ _ _ _) as [m|e] eqn:Ecoll.
  2:{ injection H as <- <- <-. left.
      split; [discriminate|]. split; [reflexivity|]. split; [exact N3|].
      eapply grows_inner_trans; [exact H3 | inner_step]. }
  assert (Hinfos : WebProcessor.filtered_links_info check_bracketed_netloc
            nfkc_netloc_ok (WebProcessor.start_url a) (l :: ls)
          = Ok (List.map snd m)).
  { unfold WebProcessor.filtered_links_info, WebProcessor.unique_links.
    rewrite Escope. cbn [rbind]. rewrite Ecoll. reflexivity. }
  destruct (List.map snd m) as [|i rest] eqn:Emap.
  { injection H as <- <- <-. left.
    split; [discriminate|]. split; [reflexivity|]. split; [exact N3|].
    eapply grows_inner_trans; [exact H3|].
    eapply grows_inner_trans; [|inner_step]. inner_step. }
  destruct (WebProcessor.base_path_for_relative _ _ _) as [base|e] eqn:Ebase.
  2:{ injection H as <- <- <-. left.
      split; [discriminate|]. split; [reflexivity|]. split; [exact N3|].
      eapply grows_inner_trans; [exact H3|].
      eapply grows_inner_trans; [|inner_step].
      eapply grows_inner_trans; [|inner_step]. inner_step. }
  set (w4 := WebProcessor.emit _ _) in H.
  assert (H4 : grows_inner (WebProcessor.start_url a) w w4).
  { eapply grows_inner_trans; [exact H3|]. subst w4.
    eapply grows_inner_trans; [|inner_step].
    eapply grows_inner_trans; [|inner_step]. inner_step. }
  assert (N4 : WebProcessor.now w4 = WebProcessor.now w2) by exact N3.
  clearbody w4.
  destruct (process_links a base _ (i :: rest) net1 w4)
    as [[[r0 net0] w5]|] eqn:Eloop; [|discriminate H].
  right. exists html, found_by, el, (i :: rest), base, w4, r0.
  split; [reflexivity|].
  split; [exact Efind|]. split; [now rewrite Eanchors|].
  split; [discriminate|]. split; [reflexivity|]. split; [exact H4|].
  split; [exact N4|].
  destruct r0; injection H as <- <- <-; now split.
Qed.

Lemma NoDup_through {A B K : Type} (g : A -> B) (h : A -> K)
    (F : B -> result K) (l : list A) :
  (forall x, In x l -> F (g x) = Ok (h x)) ->
  NoDup (List.map h l) -> NoDup (List.map g l).
Proof.
  induction l as [|e l IH]; intros HF Hnd; [constructor|].
  cbn [List.map] in *. apply NoDup_cons in Hnd as [Hnotin Hnd].
  apply NoDup_cons. split.
  - intros Hin%list_elem_of_In. apply List.in_map_iff in Hin as (y & Hy & Hyl).
    apply Hnotin, list_elem_of_In, List.in_map_iff. exists y.
    split; [|exact Hyl].
    assert (H1 : F (g y) = Ok (h y)) by (apply HF; now right).
    assert (H2 : F (g e) = Ok (h e)) by (apply HF; now left).
    rewrite Hy, H2 in H1. now injection H1.
  - apply IH; [|exact Hnd]. intros x Hx. apply HF. now right.
Qed.

(** Every collected link is an anchor of the element with its [href] joined
    to the start URL, its URL without fragment starts with the scope, and
    no URL is collected twice. *)
Lemma collected_links_facts start links infos :
  WebProcessor.filtered_links_info check_bracketed_netloc nfkc_netloc_ok
    start links = Ok infos ->
  exists scope,
    WebProcessor.parent_url_base check_bracketed_netloc nfkc_netloc_ok start
    = Ok scope
    /\ List.Forall
         (fun i =>
            In (fst i) links
            /\ WebProcessor.urljoin check_bracketed_netloc nfkc_netloc_ok
                 start (WebProcessor.href (fst i)) = Ok (snd i)
            /\ exists key,
                 url_without_fragment (snd i) = Ok key
                 /\ Str.startswith key scope = true) infos
    /\ NoDup (List.map snd infos).
Proof.
  unfold WebProcessor.filtered_links_info. intros H.
  destruct (WebProcessor.unique_links _ _ start links) as [m|] eqn:Em;
    [|discriminate H].
  cbn [rbind] in H. injection H as <-.
  destruct (unique_links_collected _ _ _ _ _ Em)
    as (scope & seen & Hscope & Hseen & Hc).
  assert (Hin : forall e, In e m ->
            In (fst (snd e)) links
            /\ WebProcessor.urljoin check_bracketed_netloc nfkc_netloc_ok
                 start (WebProcessor.href (fst (snd e))) = Ok (snd (snd e))
            /\ url_without_fragment (snd (snd e)) = Ok (fst e)
            /\ Str.startswith (fst e) scope = true).
  { intros [key [tag url]] He. cbn [fst snd].
    assert (Hs : In (key, (tag, url)) seen)
      by (eapply nth_error_In, (coll_first _ _ _ Hc); exact He).
    destruct (resolved_links_sound _ _ _ _ _ Hseen _ _ _ Hs)
      as (H1 & _ & H3 & H4).
    repeat split; try assumption. exact (coll_scope _ _ _ Hc _ He). }
  exists scope. split; [exact Hscope|]. split.
  - apply List.Forall_forall. intros i (e & <- & He)%List.in_map_iff.
    destruct (Hin e He) as (H1 & H2 & H3 & H4).
    split; [exact H1|]. split; [exact H2|]. now exists (fst e).
  - rewrite List.map_map.
    apply (NoDup_through (fun e => snd (snd e)) fst url_without_fragment).
    + intros e He. now destruct (Hin e He) as (_ & _ & H3 & _).
    + exact (coll_nodup _ _ _ Hc).
Qed.

(** What a whole run adds to the trace and to the files. *)
Lemma process_document_trace a net w r net' w' :
  process_document a net w = Some (r, net', w') ->
  exists tr,
    WebProcessor.trace w' = WebProcessor.trace w ++ tr
    /\ ((r <> Ok WebProcessor.Completed
         /\ WebProcessor.files w' = WebProcessor.files w
         /\ writes tr = [] /\ announced tr = []
         /\ List.Forall (eq (WebProcessor.start_url a)) (requested tr))
        \/ exists html found_by el infos net0,
             (exists w1,
                 fetch WebProcessor.StartingPage (WebProcessor.start_url a) a
                   net
                   (WebProcessor.emit
                      (WebProcessor.Log WebProcessor.INFO
                         (WebProcessor.FetchingStartingPage
                            (WebProcessor.start_url a))) w)
                 = Some (Ok (Some html), net0, w1))
             /\ WebProcessor.find_link_source (BeautifulSoup html)
                  (WebProcessor.link_source_selector a) = Some (found_by, el)
             /\ WebProcessor.filtered_links_info check_bracketed_netloc
                  nfkc_netloc_ok (WebProcessor.start_url a)
                  (WebProcessor.anchors el) = Ok infos
             /\ infos <> []
             /\ (exists n, announced tr = List.firstn n (List.map snd infos))
             /\ (r = Ok WebProcessor.Completed ->
                 announced tr = List.map snd infos)
             /\ List.Forall
                  (fun u => u = WebProcessor.start_url a
                            \/ In u (List.map snd infos)) (requested tr)
             /\ NoDup (writes tr)
             /\ (forall p, In p (writes tr) ->
                   WebProcessor.files w !! p = None /\ can_write p = true)
             /\ (forall p, is_Some (WebProcessor.files w' !! p)
                           <-> is_Some (WebProcessor.files w !! p)
                               \/ In p (writes tr))
             /\ List.length (writes tr) <= List.length (announced tr)).
Proof.
  intros H. destruct (process_document_cases _ _ _ _ _ _ H)
    as (res & net0 & w1 & Hfetch
        & [(Hr & _ & _ & [Hf (tr & Htr & Hin)])
          |(html & found_by & el & infos & base & w0 & r0 & -> & Hfind
            & Hinfos & Hne & _ & [Hf0 (tr0 & Htr0 & Hin0)] & _ & Hloop
            & ->)]).
  - exists tr. split; [exact Htr|]. left.
    destruct (inner_events_facts _ _ Hin) as (Hw & Ha & Hq).
    repeat split; assumption.
  - destruct (process_links_trace _ _ _ _ _ _ _ _ _ Hloop)
      as (tr1 & Htr1 & Hn & Hall & Hreq & Hnd & Hfresh & Hfiles & Hlen).
    destruct (inner_events_facts _ _ Hin0) as (Hw0 & Ha0 & Hq0).
    exists (tr0 ++ tr1).
    split; [now rewrite Htr1, Htr0, List.app_assoc|]. right.
    exists html, found_by, el, infos, net0.
    unfold announced, requested, writes in *.
    rewrite !List.flat_map_app, Hw0, Ha0. cbn [app].
    split; [now exists w1|]. split; [exact Hfind|]. split; [exact Hinfos|].
    split; [exact Hne|]. split; [exact Hn|]. split.
    { intros Hr. apply Hall. destruct r0 as [[]|e];
        [reflexivity | discriminate Hr]. }
    split.
    { apply List.Forall_app. split.
      - eapply List.Forall_impl; [|exact Hq0]. intros u <-. now left.
      - eapply List.Forall_impl; [|exact Hreq]. intros u Hu. now right. }
    split; [exact Hnd|]. rewrite <- Hf0.
    split; [exact Hfresh|]. split; [exact Hfiles | exact Hlen].
Qed.

(** X7. A run that ends with another outcome than [Completed] (the start
    page could not be fetched, no link-source element, no link, no link in
    scope) leaves every file as it was, writes nothing, announces no linked
    page, and has requested the start URL only. *)
Theorem run_without_links_touches_nothing a net w o net' w' :
  process_document a net w = Some (Ok o, net', w') ->
  o <> WebProcessor.Completed ->
  WebProcessor.files w' = WebProcessor.files w
  /\ exists tr,
       WebProcessor.trace w' = WebProcessor.trace w ++ tr
       /\ writes tr = []
       /\ announced tr = []
       /\ List.Forall (eq (WebProcessor.start_url a)) (requested tr).
Proof.
  intros H Ho. destruct (process_document_cases _ _ _ _ _ _ H)
    as (_ & _ & _ & _
        & [(_ & _ & _ & [Hf (tr & Htr & Hin)])
          |(_ & _ & _ & _ & _ & _ & r0 & _ & _ & _ & _ & _ & _ & _ & _
            & Hr)]).
  - split; [exact Hf|]. exists tr. split; [exact Htr|].
    now apply inner_events_facts.
  - destruct r0; [|discriminate Hr]. injection Hr as ->. now destruct Ho.
Qed.

(** X9. Every request of a run is for the start URL or for the URL of a
    collected link: the [href] of an anchor joined to the start URL, whose
    URL without fragment starts with the scope. *)
Theorem requests_stay_in_scope a net w r net' w' :
  process_document a net w = Some (r, net', w') ->
  exists tr,
    WebProcessor.trace w' = WebProcessor.trace w ++ tr
    /\ List.Forall
         (fun u =>
            u = WebProcessor.start_url a
            \/ exists scope key href,
                 WebProcessor.parent_url_base check_bracketed_netloc
                   nfkc_netloc_ok (WebProcessor.start_url a) = Ok scope
                 /\ WebProcessor.urljoin check_bracketed_netloc nfkc_netloc_ok
                      (WebProcessor.start_url a) href = Ok u
                 /\ url_without_fragment u = Ok key
                 /\ Str.startswith key scope = true)
         (requested tr).
Proof.
  intros H.
  destruct (process_document_trace _ _ _ _ _ _ H)
    as (tr & Htr & [(_ & _ & _ & _ & Hq)
                   |(_ & _ & el & infos & _ & _ & _ & Hinfos & _ & _ & _
                     & Hreq & _)]);
    exists tr; (split; [exact Htr|]).
  - eapply List.Forall_impl; [|exact Hq]. intros u <-. now left.
  - destruct (collected_links_facts _ _ _ Hinfos) as (scope & Hs & Hall & _).
    eapply List.Forall_impl; [|exact Hreq].
    intros u [->|(i & <- & Hi)%List.in_map_iff]; [now left|]. right.
    rewrite List.Forall_forall in Hall.
    destruct (Hall i Hi) as (_ & Hj & key & Hk & Hsc).
    now exists scope, key, (WebProcessor.href (fst i)).
Qed.

(** X10. A run that ends with [Completed] has announced, in the order of
    their collection, exactly the links collected from the link-source
    element of the fetched start page: at least one, and none of them
    twice. *)
Theorem completed_run_processes_each_link_once a net w net' w' :
  process_document a net w = Some (Ok WebProcessor.Completed, net', w') ->
  exists tr html found_by el infos,
    WebProcessor.trace w' = WebProcessor.trace w ++ tr
    /\ (exists net0 w1,
           fetch WebProcessor.StartingPage (WebProcessor.start_url a) a net
             (WebProcessor.emit
                (WebProcessor.Log WebProcessor.INFO
                   (WebProcessor.FetchingStartingPage
                      (WebProcessor.start_url a))) w)
           = Some (Ok (Some html), net0, w1))
    /\ WebProcessor.find_link_source (BeautifulSoup html)
         (WebProcessor.link_source_selector a) = Some (found_by, el)
    /\ WebProcessor.filtered_links_info check_bracketed_netloc nfkc_netloc_ok
         (WebProcessor.start_url a) (WebProcessor.anchors el) = Ok infos
    /\ announced tr = List.map snd infos
    /\ announced tr <> []
    /\ NoDup (announced tr).
Proof.
  intros H.
  destruct (process_document_trace _ _ _ _ _ _ H)
    as (tr & Htr & [(Hr & _)
                   |(html & found_by & el & infos & net0 & [w1 Hfetch]
                     & Hfind & Hinfos & Hne & _ & Hall & _)]);
    [now destruct Hr|].
  exists tr, html, found_by, el, infos.
  split; [exact Htr|]. split; [now exists net0, w1|].
  split; [exact Hfind|]. split; [exact Hinfos|].
  rewrite (Hall eq_refl). split; [reflexivity|]. split.
  - destruct infos; [now destruct Hne | discriminate].
  - now destruct (collected_links_facts _ _ _ Hinfos) as (_ & _ & _ & Hnd).
Qed.

(** ** The clock and the number of attempts *)

Lemma Qnat_succ n : (Qnat (S n) == Qnat n + 1)%Q.
Proof.
  unfold Qnat. rewrite Nat2Z.inj_succ. unfold Z.succ.
  now rewrite inject_Z_plus.
Qed.

Lemma Qnat_add n m : (Qnat (n + m) == Qnat n + Qnat m)%Q.
Proof. unfold Qnat. now rewrite Nat2Z.inj_add, inject_Z_plus. Qed.

Lemma Qnat_nonneg n : (0 <= Qnat n)%Q.
Proof.
  unfold Qnat. change 0%Q with (inject_Z 0). rewrite <- Zle_Qle. lia.
Qed.

(** the attempts that a fetch has not used are the last ones of the script *)
Lemma retry_loop_rest page url timeout budget start net w res net' w' :
  retry_loop page url timeout budget start net w = Some (res, net', w') ->
  exists used, net = used ++ net'.
Proof.
  revert w. induction net as [|a net IH]; intros w Hrun;
    cbn [WebProcessor.retry_loop] in Hrun; destruct (negb _).
  - injection Hrun as <- <- <-. now exists [].
  - discriminate Hrun.
  - injection Hrun as <- <- <-. now exists [].
  - destruct a as [took r|took slept|took].
    + injection Hrun as <- <- <-. now exists [WebProcessor.Success took r].
    + destruct (IH _ Hrun) as [used ->].
      now exists (WebProcessor.Failure took slept :: used).
    + injection Hrun as <- <- <-. now exists [WebProcessor.Uncaught took].
Qed.

Lemma fetch_clock page url a D S net w res net' w' :
  (0 <= WebProcessor.max_retry_duration a)%Q -> (0 <= D)%Q -> (0 <= S)%Q ->
  List.Forall (within D S) net ->
  fetch page url a net w = Some (res, net', w') ->
  List.Forall (within D S) net'
  /\ (WebProcessor.now w' - WebProcessor.now w
      <= WebProcessor.max_retry_duration a + D + S)%Q.
Proof.
  intros HB HD HS Hin Hrun. unfold WebProcessor.fetch in Hrun. split.
  - destruct (retry_loop_rest _ _ _ _ _ _ _ _ _ _ Hrun) as [used ->].
    now apply List.Forall_app in Hin.
  - eapply retry_loop_time; [exact HS | exact Hin | | exact Hrun]. lra.
Qed.

Lemma main_content_clock sel uwf soup w el w' :
  WebProcessor.main_content sel uwf soup w = (el, w') ->
  WebProcessor.now w' = WebProcessor.now w.
Proof.
  unfold WebProcessor.main_content. intros H.
  destruct (WebProcessor.selector_given sel) as [s|].
  - destruct (WebProcessor.select_one soup s) as [e|].
    + now injection H as <- <-.
    + destruct (WebProcessor.heuristic _ None 0) as [[best|] n];
        now injection H as <- <-.
  - destruct (WebProcessor.heuristic _ None 0) as [[best|] n];
      now injection H as <- <-.
Qed.

(** One iteration of the processing loop moves the clock in its fetch
    only. *)
Lemma process_link_clock a base root tag url D S net w res net' w' :
  (0 <= WebProcessor.max_retry_duration a)%Q -> (0 <= D)%Q -> (0 <= S)%Q ->
  List.Forall (within D S) net ->
  process_link a base root tag url net w = Some (res, net', w') ->
  List.Forall (within D S) net'
  /\ (WebProcessor.now w' - WebProcessor.now w
      <= WebProcessor.max_retry_duration a + D + S)%Q.
Proof.
  intros HB HD HS Hin. unfold WebProcessor.process_link. intros H.
  set (w1 := WebProcessor.emit _ w) in H.
  assert (N1 : WebProcessor.now w1 = WebProcessor.now w) by reflexivity.
  clearbody w1.
  destruct (url_without_fragment url) as [uwf|e].
  2:{ injection H as <- <- <-. split; [exact Hin|]. rewrite N1. lra. }
  destruct (fetch _ url a net w1) as [[[r net1] w3]|] eqn:Ef;
    [|discriminate H].
  destruct (fetch_clock _ _ _ _ _ _ _ _ _ _ HB HD HS Hin Ef) as [Hin1 Hc].
  rewrite N1 in Hc. clear Ef N1.
  destruct r as [[html|]|e].
  2:{ now injection H as <- <- <-. }
  2:{ now injection H as <- <- <-. }
  destruct (WebProcessor.main_content _ uwf _ w3) as [[el|] w4] eqn:Em;
    apply main_content_clock in Em.
  2:{ injection H as <- <- <-. split; [exact Hin1|].
      cbn [WebProcessor.emit WebProcessor.now]. now rewrite Em. }
  rewrite <- Em in Hc.
  destruct (WebProcessor.filename_base _ _ tag uwf) as [fb|e].
  2:{ now injection H as <- <- <-. }
  destruct (WebProcessor.urlparse _ _ uwf) as [parsed|e].
  2:{ now injection H as <- <- <-. }
  destruct (WebProcessor.relative_link_path cwd _ base) as [rel|e].
  2:{ now injection H as <- <- <-. }
  destruct (WebProcessor.unique_name _ _ _) as [name|]; [|discriminate H].
  destruct (can_write name); now injection H as <- <- <-.
Qed.

(** The processing loop takes at most the time of one fetch per announced
    link. *)
Lemma process_links_clock a base root infos D S net w res net' w' :
  (0 <= WebProcessor.max_retry_duration a)%Q -> (0 <= D)%Q -> (0 <= S)%Q ->
  List.Forall (within D S) net ->
  process_links a base root infos net w = Some (res, net', w') ->
  exists tr,
    WebProcessor.trace w' = WebProcessor.trace w ++ tr
    /\ List.Forall (within D S) net'
    /\ (WebProcessor.now w' - WebProcessor.now w
        <= Qnat (List.length (announced tr))
           * (WebProcessor.max_retry_duration a + D + S))%Q.
Proof.
  intros HB HD HS. revert net w.
  induction infos as [|[tag url] rest IH]; intros net w Hin Hrun.
  - injection Hrun as <- <- <-. exists [].
    split; [now rewrite List.app_nil_r|]. split; [exact Hin|].
    change (Qnat (List.length (announced []))) with 0%Q. lra.
  - cbn [WebProcessor.process_links] in Hrun.
    destruct (process_link a base root tag url net w)
      as [[[r net1] w1]|] eqn:El; [|discriminate Hrun].
    destruct (process_link_trace _ _ _ _ _ _ _ _ _ _ El)
      as (tr1 & Htr1 & Ha1 & _).
    destruct (process_link_clock _ _ _ _ _ _ _ _ _ _ _ _ HB HD HS Hin El)
      as [Hin1 Hc1].
    destruct r as [[]|e].
    + destruct (IH _ _ Hin1 Hrun) as (tr2 & Htr2 & Hin2 & Hc2).
      exists (tr1 ++ tr2).
      split; [now rewrite Htr2, Htr1, List.app_assoc|].
      split; [exact Hin2|].
      unfold announced in *. rewrite List.flat_map_app, Ha1.
      cbn [app List.length]. rewrite Qnat_succ. lra.
    + injection Hrun as <- <- <-. exists tr1.
      split; [exact Htr1|]. split; [exact Hin1|].
      rewrite Ha1. cbn [List.length]. rewrite Qnat_succ.
      change (Qnat 0) with 0%Q. lra.
Qed.

(** X11. With a budget that is not negative, attempts of at most [D]
    seconds and sleeps of at most [S] seconds, the requests and sleeps of a
    whole run take at most [max_retry_duration + D + S] seconds for the
    start page and for each announced link. *)
Theorem run_time_is_bounded a D S net w r net' w' :
  (0 <= WebProcessor.max_retry_duration a)%Q -> (0 <= D)%Q -> (0 <= S)%Q ->
  List.Forall (within D S) net ->
  process_document a net w = Some (r, net', w') ->
  exists tr,
    WebProcessor.trace w' = WebProcessor.trace w ++ tr
    /\ (WebProcessor.now w' - WebProcessor.now w
        <= Qnat (1 + List.length (announced tr))
           * (WebProcessor.max_retry_duration a + D + S))%Q.
Proof.
  intros HB HD HS Hin H.
  destruct (process_document_cases _ _ _ _ _ _ H)
    as (res & net0 & w1 & Hfetch
        & [(_ & _ & Hnow & [_ (tr & Htr & _)])
          |(_ & _ & _ & infos & base & w0 & r0 & _ & _ & _ & _ & _
            & [_ (tr0 & Htr0 & _)] & Hnow & Hloop & _)]);
    destruct (fetch_clock _ _ _ _ _ _ _ _ _ _ HB HD HS Hin Hfetch)
      as [Hin0 Hc0];
    cbn [WebProcessor.emit WebProcessor.now] in Hc0.
  - exists tr. split; [exact Htr|]. rewrite Hnow, Qnat_add.
    change (Qnat 1) with 1%Q.
    pose proof (Qnat_nonneg (List.length (announced tr))) as Hn.
    assert (Hp : (0 <= Qnat (List.length (announced tr))
                      * (WebProcessor.max_retry_duration a + D + S))%Q)
      by (apply Qmult_le_0_compat; [exact Hn | lra]).
    lra.
  - destruct (process_links_clock _ _ _ _ _ _ _ _ _ _ _ HB HD HS Hin0 Hloop)
      as (tr1 & Htr1 & _ & Hc1).
    exists (tr0 ++ tr1).
    split; [now rewrite Htr1, Htr0, List.app_assoc|].
    assert (Hlen : List.length (announced (tr0 ++ tr1))
                   = List.length (announced tr0)
                     + List.length (announced tr1))
      by (unfold announced; now rewrite List.flat_map_app, List.length_app).
    rewrite Hlen, !Qnat_add. change (Qnat 1) with 1%Q.
    pose proof (Qnat_nonneg (List.length (announced tr0))) as Hn.
    assert (Hp : (0 <= Qnat (List.length (announced tr0))
                      * (WebProcessor.max_retry_duration a + D + S))%Q)
      by (apply Qmult_le_0_compat; [exact Hn | lra]).
    rewrite Hnow in Hc1. lra.
Qed.

(** The loop of a fetch makes another request only while the elapsed time is
    within the budget, and every failed request is followed by a sleep. *)
Lemma retry_loop_requests page url timeout budget start delta net w res net'
    w' :
  (0 < delta)%Q ->
  List.Forall (paced delta) net ->
  retry_loop page url timeout budget start net w = Some (res, net', w') ->
  exists tr,
    WebProcessor.trace w' = WebProcessor.trace w ++ tr
    /\ (requests_made tr = 0
        \/ (WebProcessor.now w - start
            + (Qnat (requests_made tr) - 1) * delta <= budget)%Q).
Proof.
  intros Hd. revert w. induction net as [|a net IH]; intros w Hin Hrun.
  - cbn [WebProcessor.retry_loop] in Hrun.
    destruct (negb _); [|discriminate Hrun].
    injection Hrun as <- <- <-. eexists. split; [reflexivity|]. now left.
  - destruct (Qlt_le_dec budget (WebProcessor.now w - start)) as [Hover|Hle].
    + rewrite retry_loop_gives_up in Hrun by exact Hover.
      injection Hrun as <- <- <-. eexists. split; [reflexivity|]. now left.
    + rewrite retry_loop_attempts in Hrun by exact Hle.
      apply List.Forall_cons_iff in Hin as [Ha Hin].
      destruct a as [took r|took slept|took]; cbn [paced] in Ha.
      3:{ injection Hrun as <- <- <-. eexists. split; [reflexivity|].
          right. change (requests_made _) with 1.
          change (Qnat 1) with 1%Q. lra. }
      * injection Hrun as <- <- <-. eexists. split; [reflexivity|].
        right. change (requests_made _) with 1.
        change (Qnat 1) with 1%Q. lra.
      * destruct (IH _ Hin Hrun) as (tr & Htr & Hcount).
        cbn [WebProcessor.advance WebProcessor.emit WebProcessor.trace
             WebProcessor.now] in Htr, Hcount.
        eexists. split.
        { rewrite Htr. rewrite <- !List.app_assoc. reflexivity. }
        right. rewrite !requests_made_app.
        change (requests_made [WebProcessor.Get url timeout]) with 1.
        change (requests_made [_]) with 0. cbn [Nat.add].
        rewrite Qnat_succ. destruct Hcount as [->|Hcount].
        -- change (Qnat 0) with 0%Q. lra.
        -- lra.
Qed.

(** X12. When every failed request is followed by a sleep of at least
    [delta > 0] seconds, one fetch makes at most
    [max_retry_duration / delta + 1] requests. *)
Theorem fetch_attempts_are_bounded page url a delta net w res net' w' :
  (0 < delta)%Q ->
  (0 <= WebProcessor.max_retry_duration a)%Q ->
  List.Forall (paced delta) net ->
  fetch page url a net w = Some (res, net', w') ->
  exists tr,
    WebProcessor.trace w' = WebProcessor.trace w ++ tr
    /\ (Qnat (requests_made tr) * delta
        <= WebProcessor.max_retry_duration a + delta)%Q.
Proof.
  intros Hd HB Hin Hrun. unfold WebProcessor.fetch in Hrun.
  destruct (retry_loop_requests _ _ _ _ _ _ _ _ _ _ _ Hd Hin Hrun)
    as (tr & Htr & [Hzero|Hcount]); exists tr; (split; [exact Htr|]).
  - rewrite Hzero. change (Qnat 0) with 0%Q. lra.
  - lra.
Qed.

End Outside.

Lemma run_without_links_touches_nothing_witness :
  exists w',
    toy_run [] (sample_args scenario_A_start_url)
      [WebProcessor.Success 1 (page Byte.x73)] WebProcessor.empty_world
    = Some (Ok WebProcessor.NoLinks, [], w')
    /\ WebProcessor.files w' = WebProcessor.files WebProcessor.empty_world
    /\ exists tr,
         WebProcessor.trace w'
         = WebProcessor.trace WebProcessor.empty_world ++ tr
         /\ writes tr = []
         /\ announced tr = []
         /\ List.Forall (eq scenario_A_start_url) (requested tr).
Proof.
  eexists. split; [vm_compute; reflexivity|].
  apply (run_without_links_touches_nothing WebProcessor.always
           WebProcessor.always WebProcessor.no_codecs "/" (toy_soup [])
           (fun _ soup => soup) (fun html => html) WebProcessor.always
           (sample_args scenario_A_start_url)
           [WebProcessor.Success 1 (page Byte.x73)] WebProcessor.empty_world
           WebProcessor.NoLinks []).
  - vm_compute. reflexivity.
  - discriminate.
Defined.

Lemma requests_stay_in_scope_witness :
  exists w',
    toy_run scenario_B_links (sample_args scenario_A_start_url)
      scenario_B_net WebProcessor.empty_world
    = Some (Ok WebProcessor.Completed, [], w')
    /\ exists tr,
         WebProcessor.trace w'
         = WebProcessor.trace WebProcessor.empty_world ++ tr
         /\ List.Forall
              (fun u =>
                 u = scenario_A_start_url
                 \/ exists scope key href,
                      WebProcessor.parent_url_base WebProcessor.always
                        WebProcessor.always scenario_A_start_url = Ok scope
                      /\ WebProcessor.urljoin WebProcessor.always
                           WebProcessor.always scenario_A_start_url href
                         = Ok u
                      /\ WebProcessor.url_without_fragment WebProcessor.always
                           WebProcessor.always u = Ok key
                      /\ Str.startswith key scope = true)
              (requested tr).
Proof.
  eexists. split; [vm_compute; reflexivity|].
  apply (requests_stay_in_scope WebProcessor.always WebProcessor.always
           WebProcessor.no_codecs "/" (toy_soup scenario_B_links)
           (fun _ soup => soup) (fun html => html) WebProcessor.always
           (sample_args scenario_A_start_url) scenario_B_net
           WebProcessor.empty_world (Ok WebProcessor.Completed) []).
  vm_compute. reflexivity.
Defined.

Lemma completed_run_processes_each_link_once_witness :
  exists w',
    toy_run scenario_B_links (sample_args scenario_A_start_url)
      scenario_B_net WebProcessor.empty_world
    = Some (Ok WebProcessor.Completed, [], w')
    /\ exists tr html found_by el infos,
         WebProcessor.trace w'
         = WebProcessor.trace WebProcessor.empty_world ++ tr
         /\ (exists net0 w1,
                WebProcessor.fetch WebProcessor.no_codecs
                  WebProcessor.StartingPage scenario_A_start_url
                  (sample_args scenario_A_start_url) scenario_B_net
                  (WebProcessor.emit
                     (WebProcessor.Log WebProcessor.INFO
                        (WebProcessor.FetchingStartingPage
                           scenario_A_start_url))
                     WebProcessor.empty_world)
                = Some (Ok (Some html), net0, w1))
         /\ WebProcessor.find_link_source (toy_soup scenario_B_links html)
              "nav" = Some (found_by, el)
         /\ WebProcessor.filtered_links_info WebProcessor.always
              WebProcessor.always scenario_A_start_url
              (WebProcessor.anchors el) = Ok infos
         /\ announced tr = List.map snd infos
         /\ announced tr <> []
         /\ NoDup (announced tr).
Proof.
  eexists. split; [vm_compute; reflexivity|].
  apply (completed_run_processes_each_link_once WebProcessor.always
           WebProcessor.always WebProcessor.no_codecs "/"
           (toy_soup scenario_B_links) (fun _ soup => soup)
           (fun html => html) WebProcessor.always
           (sample_args scenario_A_start_url) scenario_B_net
           WebProcessor.empty_world []).
  vm_compute. reflexivity.
Defined.

Lemma run_time_is_bounded_witness :
  exists w',
    toy_run scenario_B_links (sample_args scenario_A_start_url)
      scenario_B_net WebProcessor.empty_world
    = Some (Ok WebProcessor.Completed, [], w')
    /\ exists tr,
         WebProcessor.trace w'
         = WebProcessor.trace WebProcessor.empty_world ++ tr
         /\ (WebProcessor.now w' - WebProcessor.now WebProcessor.empty_world
             <= Qnat (1 + List.length (announced tr)) * (15 + 1 + 4))%Q.
Proof.
  eexists. split; [vm_compute; reflexivity|].
  apply (run_time_is_bounded WebProcessor.always WebProcessor.always
           WebProcessor.no_codecs "/" (toy_soup scenario_B_links)
           (fun _ soup => soup) (fun html => html) WebProcessor.always
           (sample_args scenario_A_start_url) 1%Q 4%Q scenario_B_net
           WebProcessor.empty_world (Ok WebProcessor.Completed) []).
  - vm_compute. discriminate.
  - vm_compute. discriminate.
  - vm_compute. discriminate.
  - repeat constructor; vm_compute; discriminate.
  - vm_compute. reflexivity.
Defined.

Lemma fetch_attempts_are_bounded_witness :
  exists res net' w',
    WebProcessor.fetch WebProcessor.no_codecs WebProcessor.LinkedPage
      "https://ex.com/docs/a.html" (sample_args scenario_A_start_url)
      (List.tl scenario_B_net) WebProcessor.empty_world
    = Some (res, net', w')
    /\ exists tr,
         WebProcessor.trace w'
         = WebProcessor.trace WebProcessor.empty_world ++ tr
         /\ (Qnat (requests_made tr) * 4 <= 15 + 4)%Q.
Proof.
  eexists _, _, _. split; [vm_compute; reflexivity|].
  apply (fetch_attempts_are_bounded WebProcessor.no_codecs
           WebProcessor.LinkedPage "https://ex.com/docs/a.html"
           (sample_args scenario_A_start_url) 4%Q (List.tl scenario_B_net)
           WebProcessor.empty_world (Ok None)
           [WebProcessor.Success 1 (page Byte.x62)]).
  - vm_compute. reflexivity.
  - vm_compute. discriminate.
  - repeat constructor; vm_compute; discriminate.
  - vm_compute. reflexivity.
Defined.

(** ** The mapping of URL paths to output paths *)

Lemma plain_facts (c : string) :
  plain c = true ->
  Str.contains "/" c = false
  /\ c <> "" /\ c <> "." /\ c <> ".."
  /\ Str.startswith c "/" = false
  /\ exists pre a, c = pre +:+ String a "" /\ a <> "/"%char.
Proof.
  unfold plain. intros H.
  apply andb_prop in H as [H Hs]. apply andb_prop in H as [H Hdd].
  apply andb_prop in H as [He Hd].
  apply negb_true_iff in Hs, Hdd, Hd, He.
  apply String.eqb_neq in Hdd, Hd.
  split; [exact Hs|]. split; [now destruct c|]. split; [exact Hd|].
  split; [exact Hdd|]. split.
  - destruct c as [|a c]; [reflexivity|].
    rewrite startswith_slash_cons. cbn [Str.contains] in Hs.
    apply orb_false_elim in Hs as [Ha _]. now rewrite Ascii.eqb_sym.
  - clear Hd Hdd. induction c as [|a c IH]; [discriminate He|].
    cbn [Str.contains] in Hs. apply orb_false_elim in Hs as [Ha Hs].
    destruct c as [|b c].
    + exists "", a. split; [reflexivity|]. now apply Ascii.eqb_neq.
    + destruct (IH eq_refl Hs) as (pre & z & -> & Hz).
      exists (String a pre), z. now rewrite append_cons.
Qed.

Lemma last_char_inj (p q : string) (a b : ascii) :
  p +:+ String a "" = q +:+ String b "" -> a = b.
Proof.
  intros H. apply (f_equal Str.rev) in H.
  rewrite !rev_append in H. cbn in H. rewrite !append_cons in H.
  now injection H.
Qed.

Lemma ends_plain_facts (pre : string) (a : ascii) :
  a <> "/"%char ->
  Str.is_empty (pre +:+ String a "") = false
  /\ Str.endswith (pre +:+ String a "") "/" = false.
Proof.
  intros Ha. split; [now destruct pre|].
  destruct (Str.endswith _ "/") eqn:E; [|reflexivity].
  apply endswith_suffix in E as [q Hq]. now apply last_char_inj in Hq.
Qed.

Lemma join_cons2 (x y : string) (l : list string) :
  Str.join "/" (x :: y :: l) = x +:+ "/" +:+ Str.join "/" (y :: l).
Proof. reflexivity. Qed.

Lemma join_snoc (l : list string) (x : string) :
  l <> [] -> Str.join "/" (l ++ [x]) = Str.join "/" l +:+ "/" +:+ x.
Proof.
  induction l as [|a l IH]; [congruence|]. intros _.
  destruct l as [|b l]; [reflexivity|].
  change ((a :: b :: l) ++ [x]) with (a :: (b :: l) ++ [x]).
  cbn [app]. rewrite !join_cons2. cbn [app] in IH.
  rewrite IH by discriminate. now rewrite !append_assoc.
Qed.

Lemma split_noslash (s : string) :
  Str.contains "/" s = false -> Str.split "/" s = [s].
Proof.
  induction s as [|a s IH]; [reflexivity|]. cbn [Str.contains Str.split].
  intros [Ha Hs]%orb_false_elim. rewrite Ha. now rewrite (IH Hs).
Qed.

Lemma split_sep (s t : string) :
  Str.contains "/" s = false ->
  Str.split "/" (s +:+ "/" +:+ t) = s :: Str.split "/" t.
Proof.
  induction s as [|a s IH]; [reflexivity|]. cbn [Str.contains].
  intros [Ha Hs]%orb_false_elim. rewrite append_cons. cbn [Str.split].
  now rewrite Ha, (IH Hs).
Qed.

Lemma split_join (cs : list string) :
  List.Forall (fun c => Str.contains "/" c = false) cs -> cs <> [] ->
  Str.split "/" (Str.join "/" cs) = cs.
Proof.
  induction 1 as [|c cs Hc Hcs IH]; [congruence|]. intros _.
  destruct cs as [|d cs]; [now apply split_noslash|].
  rewrite join_cons2, split_sep by exact Hc. now rewrite IH.
Qed.

Lemma split_rooted (cs : list string) :
  List.Forall (fun c => Str.contains "/" c = false) cs ->
  Str.split "/" (rooted cs)
  = "" :: match cs with [] => [""] | _ :: _ => cs end.
Proof.
  intros H. unfold rooted. rewrite append_cons. cbn [Str.split].
  change (Ascii.eqb "/" "/") with true. cbn [append]. f_equal.
  destruct cs as [|c cs]; [reflexivity|]. now apply split_join.
Qed.

Lemma normpath_loop_plain (n : nat) (cs acc : list string) :
  List.Forall (fun c => c = "" \/ plain c = true) cs ->
  Posixpath.normpath_loop n cs acc
  = List.rev acc ++ List.filter (fun x => negb (Str.is_empty x)) cs.
Proof.
  intros H. revert acc. induction H as [|c cs Hc _ IH]; intros acc.
  - cbn. now rewrite List.app_nil_r.
  - cbn [Posixpath.normpath_loop List.filter]. destruct Hc as [->|Hc].
    + cbn. apply IH.
    + destruct (plain_facts c Hc) as (_ & He & Hd & Hdd & _).
      apply String.eqb_neq in He, Hd, Hdd. rewrite He, Hd, Hdd.
      cbn [orb negb]. rewrite IH. cbn [List.rev].
      destruct c; [now apply String.eqb_neq in He|]. cbn [Str.is_empty negb].
      now rewrite <- List.app_assoc.
Qed.

Lemma filter_plain (bs tail : list string) :
  List.Forall (fun c => plain c = true) bs ->
  List.Forall (fun c => c = "") tail ->
  List.filter (fun x => negb (Str.is_empty x)) (bs ++ tail) = bs.
Proof.
  intros Hbs Ht. rewrite List.filter_app.
  replace (List.filter _ tail) with (@nil string).
  - rewrite List.app_nil_r. induction Hbs as [|b bs Hb _ IH]; [reflexivity|].
    cbn [List.filter]. destruct (plain_facts b Hb) as (_ & He & _).
    destruct b; [congruence|]. cbn [Str.is_empty negb]. now rewrite IH.
  - induction Ht as [|t tail -> _ IH]; [reflexivity|]. exact IH.
Qed.

Lemma plain_noslash (bs : list string) :
  List.Forall (fun c => plain c = true) bs ->
  List.Forall (fun c => Str.contains "/" c = false) bs.
Proof.
  apply List.Forall_impl. intros c Hc. now apply plain_facts in Hc.
Qed.

Lemma plain_or_empty (bs tail : list string) :
  List.Forall (fun c => plain c = true) bs ->
  List.Forall (fun c => c = "") tail ->
  List.Forall (fun c => c = "" \/ plain c = true) (bs ++ tail).
Proof.
  intros Hbs Ht. apply List.Forall_app. split.
  - eapply List.Forall_impl; [|exact Hbs]. now right.
  - eapply List.Forall_impl; [|exact Ht]. now left.
Qed.

Lemma join_first_not_slash (bs tail : list string) :
  List.Forall (fun c => plain c = true) bs ->
  List.Forall (fun c => c = "") tail -> List.length tail <= 1 ->
  Str.startswith (Str.join "/" (bs ++ tail)) "/" = false.
Proof.
  intros Hbs Ht Hlen. destruct Hbs as [|b bs Hb _].
  - destruct Ht as [|t tail -> _]; [reflexivity|].
    destruct tail; [reflexivity | cbn in Hlen; lia].
  - destruct (plain_facts b Hb) as (Hs & He & _).
    destruct b as [|a b]; [congruence|].
    cbn [Str.contains] in Hs. apply orb_false_elim in Hs as [Ha _].
    cbn [app]. destruct (bs ++ tail) as [|d l].
    + change (Str.join "/" [String a b]) with (String a b).
      rewrite startswith_slash_cons. now rewrite Ascii.eqb_sym.
    + rewrite join_cons2, append_cons, startswith_slash_cons.
      now rewrite Ascii.eqb_sym.
Qed.

(** normalisation keeps the plain components and removes a trailing
    slash *)
Lemma normpath_rooted (bs tail : list string) :
  List.Forall (fun c => plain c = true) bs ->
  List.Forall (fun c => c = "") tail -> List.length tail <= 1 ->
  Posixpath.normpath (rooted (bs ++ tail)) = rooted bs.
Proof.
  intros Hbs Ht Hlen. unfold Posixpath.normpath.
  assert (Hsplit : List.filter (fun x => negb (Str.is_empty x))
                     (Str.split "/" (rooted (bs ++ tail))) = bs).
  { rewrite split_rooted.
    - cbn [List.filter Str.is_empty negb].
      destruct (bs ++ tail) as [|c l] eqn:E.
      + apply List.app_eq_nil in E as [-> _]. reflexivity.
      + rewrite <- E. now apply filter_plain.
    - apply List.Forall_app. split; [now apply plain_noslash|].
      eapply List.Forall_impl; [|exact Ht]. now intros c ->. }
  assert (Hall : List.Forall (fun c => c = "" \/ plain c = true)
                   (Str.split "/" (rooted (bs ++ tail)))).
  { rewrite split_rooted.
    - constructor; [now left|].
      destruct (bs ++ tail) as [|c l] eqn:E.
      + constructor; [now left | constructor].
      + rewrite <- E. now apply plain_or_empty.
    - apply List.Forall_app. split; [now apply plain_noslash|].
      eapply List.Forall_impl; [|exact Ht]. now intros c ->. }
  pose proof (join_first_not_slash bs tail Hbs Ht Hlen) as Hfirst.
  assert (E1 : Str.is_empty (rooted (bs ++ tail)) = false) by reflexivity.
  assert (E2 : Str.startswith (rooted (bs ++ tail)) "/" = true).
  { change (rooted (bs ++ tail))
      with (String "/" (Str.join "/" (bs ++ tail))).
    now rewrite startswith_slash_cons. }
  assert (E3 : Str.startswith (rooted (bs ++ tail)) "//" = false).
  { change (rooted (bs ++ tail))
      with (String "/" (Str.join "/" (bs ++ tail))).
    cbn [Str.startswith]. now rewrite Hfirst. }
  rewrite E1, E2, E3. cbn [andb Nat.eqb].
  change Posixpath.sep with "/"%char.
  rewrite (normpath_loop_plain 1 _ [] Hall), Hsplit. reflexivity.
Qed.

Lemma nonempty_parts_rooted (bs : list string) :
  List.Forall (fun c => plain c = true) bs ->
  Posixpath.nonempty_parts (rooted bs) = bs.
Proof.
  intros Hbs. unfold Posixpath.nonempty_parts.
  rewrite split_rooted by now apply plain_noslash.
  cbn [List.filter Str.is_empty negb].
  pose proof (filter_plain bs [] Hbs (List.Forall_nil _)) as Hf.
  rewrite List.app_nil_r in Hf. destruct bs; [reflexivity | exact Hf].
Qed.

Lemma common_len_prefix (bs rest : list string) :
  Posixpath.common_len bs (bs ++ rest) = List.length bs.
Proof.
  induction bs as [|b bs IH]; [reflexivity|].
  cbn [Posixpath.common_len app List.length].
  now rewrite String.eqb_refl, IH.
Qed.

Lemma skipn_prefix {A : Type} (bs rest : list A) :
  List.skipn (List.length bs) (bs ++ rest) = rest.
Proof. induction bs as [|b bs IH]; [reflexivity | exact IH]. Qed.

(** [posixpath.join] of plain components puts one slash between them *)
Lemma posix_join_plain (acc : string) (p : list string) :
  (exists pre a, acc = pre +:+ String a "" /\ a <> "/"%char) ->
  List.Forall (fun c => plain c = true) p ->
  Posixpath.join acc p
  = match p with [] => acc | _ :: _ => acc +:+ "/" +:+ Str.join "/" p end.
Proof.
  intros Hacc Hp. revert acc Hacc. unfold Posixpath.join.
  induction Hp as [|b p Hb _ IH]; intros acc (pre & a & -> & Ha);
    [reflexivity|].
  cbn [fold_left]. unfold Posixpath.join2 at 2.
  destruct (plain_facts b Hb) as (_ & _ & _ & _ & Hs & (q & z & Hq & Hz)).
  destruct (ends_plain_facts pre a Ha) as [He Hend].
  rewrite Hs, He, Hend. cbn [orb]. rewrite IH.
  - destruct p as [|c p]; [reflexivity|].
    now rewrite join_cons2, !append_assoc.
  - exists (pre +:+ String a "" +:+ "/" +:+ q), z.
    split; [|exact Hz]. rewrite Hq. now rewrite !append_assoc.
Qed.

Lemma rooted_absolute (cs : list string) :
  Str.is_empty (rooted cs) = false /\ Str.startswith (rooted cs) "/" = true.
Proof.
  split; [reflexivity|].
  change (rooted cs) with (String "/" (Str.join "/" cs)).
  now rewrite startswith_slash_cons.
Qed.

(** [os.path.relpath] of a path under a directory, both made of plain
    components, is the rest of the path *)
Lemma relpath_plain (cwd : string) (bs rest : list string) :
  List.Forall (fun c => plain c = true) bs ->
  List.Forall (fun c => plain c = true) rest -> rest <> [] ->
  Posixpath.relpath cwd (rooted (bs ++ rest)) (directory bs)
  = Ok (Str.join "/" rest).
Proof.
  intros Hbs Hrest Hne. unfold Posixpath.relpath, Posixpath.abspath,
    Posixpath.isabs, directory.
  destruct (rooted_absolute (bs ++ rest)) as [-> ->].
  destruct (rooted_absolute (bs ++ [""])) as [_ ->].
  rewrite (normpath_rooted bs [""] Hbs) by (repeat constructor).
  rewrite <- (List.app_nil_r (bs ++ rest)).
  rewrite (normpath_rooted (bs ++ rest) []);
    [|now apply List.Forall_app | constructor | cbn; lia].
  rewrite !nonempty_parts_rooted by (try apply List.Forall_app; auto).
  rewrite common_len_prefix, Nat.sub_diag, skipn_prefix.
  cbn [List.repeat app]. destruct rest as [|a p]; [congruence|].
  apply List.Forall_cons_iff in Hrest as [Ha Hp].
  rewrite posix_join_plain; [|now apply plain_facts in Ha | exact Hp].
  destruct p; reflexivity.
Qed.

Lemma rfind_from_noslash (c : ascii) (s : string) (i last : Z) :
  Str.contains c s = false -> Str.rfind_from c s i last = last.
Proof.
  revert i. induction s as [|a s IH]; intros i; [reflexivity|].
  cbn [Str.contains Str.rfind_from]. intros [Ha Hs]%orb_false_elim.
  rewrite Ha. now apply IH.
Qed.

Lemma rfind_from_last (c : ascii) (s t : string) (i last : Z) :
  Str.contains c t = false ->
  Str.rfind_from c (s +:+ String c t) i last
  = (i + Z.of_nat (String.length s))%Z.
Proof.
  intros Ht. revert i last. induction s as [|a s IH]; intros i last.
  - change ("" +:+ String c t) with (String c t).
    cbn [Str.rfind_from String.length]. rewrite Ascii.eqb_refl.
    rewrite rfind_from_noslash by exact Ht. lia.
  - rewrite append_cons. cbn [Str.rfind_from String.length].
    rewrite IH. lia.
Qed.

(** the position after the last slash of [s/t], for [t] without a slash *)
Lemma after_last_slash (s t : string) :
  Str.contains "/" t = false ->
  Z.to_nat (Str.rfind Posixpath.sep (s +:+ String "/" t) + 1)
  = String.length (s +:+ "/").
Proof.
  intros Ht. unfold Str.rfind, Posixpath.sep.
  rewrite rfind_from_last by exact Ht. rewrite length_append. cbn. lia.
Qed.

Lemma take_append (s t : string) :
  Str.take (String.length s) (s +:+ t) = s.
Proof.
  induction s as [|a s IH]; [now destruct t|].
  rewrite append_cons. cbn [String.length Str.take]. now rewrite IH.
Qed.

Lemma join_ends_plain (ds : list string) :
  List.Forall (fun c => plain c = true) ds -> ds <> [] ->
  exists pre a, Str.join "/" ds = pre +:+ String a "" /\ a <> "/"%char.
Proof.
  intros Hds Hne. destruct (exists_last Hne) as (l & d & ->).
  apply List.Forall_app in Hds as [_ Hd].
  apply List.Forall_cons_iff in Hd as [Hd _].
  destruct (plain_facts d Hd) as (_ & _ & _ & _ & _ & (q & z & -> & Hz)).
  destruct l as [|b l].
  - now exists q, z.
  - rewrite join_snoc by discriminate.
    exists (Str.join "/" (b :: l) +:+ "/" +:+ q), z.
    split; [now rewrite !append_assoc | exact Hz].
Qed.

Lemma append_empty_l (s : string) : "" +:+ s = s.
Proof. reflexivity. Qed.

Lemma rstrip_trailing_slash (pre : string) (a : ascii) :
  a <> "/"%char ->
  Str.rstrip (Ascii.eqb Posixpath.sep) ((pre +:+ String a "") +:+ "/")
  = pre +:+ String a "".
Proof.
  intros Ha. unfold Str.rstrip, Posixpath.sep. rewrite !rev_append.
  change (Str.rev "/") with "/". change (Str.rev (String a "")) with (String a "").
  rewrite !append_cons, !append_empty_l. cbn [Str.lstrip].
  change (Ascii.eqb "/" "/") with true. cbv iota.
  assert (E : Ascii.eqb "/" a = false)
    by (apply Ascii.eqb_neq; congruence).
  rewrite E, rev_cons. now rewrite rev_involutive.
Qed.

(** the directory of a relative path of plain components is the path
    without its last component *)
Lemma dirname_join (ds : list string) (name : string) :
  List.Forall (fun c => plain c = true) ds ->
  Str.contains "/" name = false ->
  Posixpath.dirname (Str.join "/" (ds ++ [name])) = Str.join "/" ds.
Proof.
  intros Hds Hname. unfold Posixpath.dirname.
  destruct ds as [|d ds].
  - change (Str.join "/" ([] ++ [name])) with name.
    unfold Str.rfind. rewrite rfind_from_noslash by exact Hname.
    now destruct name.
  - rewrite join_snoc by discriminate.
    change ("/" +:+ name) with (String "/" name).
    rewrite after_last_slash by exact Hname.
    replace (Str.join "/" (d :: ds) +:+ String "/" name)
      with ((Str.join "/" (d :: ds) +:+ "/") +:+ name)
      by now rewrite append_assoc.
    rewrite take_append.
    destruct (join_ends_plain (d :: ds) Hds) as (pre & a & E & Ha);
      [discriminate|].
    pose proof (join_first_not_slash (d :: ds) [] Hds (List.Forall_nil _))
      as Hfirst.
    rewrite List.app_nil_r in Hfirst. specialize (Hfirst (Nat.le_0_l _)).
    rewrite E in *. rewrite rstrip_trailing_slash by exact Ha.
    destruct (pre +:+ String a "") as [|b r] eqn:Eb;
      [now destruct pre|].
    rewrite startswith_slash_cons in Hfirst.
    rewrite append_cons. cbn [Str.is_empty negb String.length Str.repeat].
    match goal with |- context [String.eqb ?x ?y] =>
      replace (String.eqb x y) with false; [reflexivity|]
    end.
    symmetry. apply String.eqb_neq. unfold Posixpath.sep. intros H.
    injection H as -> _. now rewrite Ascii.eqb_refl in Hfirst.
Qed.

Lemma basename_rooted (bs : list string) :
  List.Forall (fun c => Str.contains "/" c = false) bs ->
  Posixpath.basename (rooted bs) = List.last bs "".
Proof.
  intros Hbs. destruct bs as [|b0 l0]; [reflexivity|].
  destruct (@exists_last _ (b0 :: l0)) as (l & b & E); [discriminate|].
  rewrite E in *. clear E b0 l0.
  apply List.Forall_app in Hbs as [_ Hb].
  apply List.Forall_cons_iff in Hb as [Hb _].
  rewrite List.last_last. unfold Posixpath.basename.
  assert (E : exists pre, rooted (l ++ [b]) = pre +:+ String "/" b).
  { unfold rooted. destruct l as [|c l].
    - now exists "".
    - rewrite join_snoc by discriminate.
      exists ("/" +:+ Str.join "/" (c :: l)). now rewrite !append_assoc. }
  destruct E as [pre ->]. rewrite after_last_slash by exact Hb.
  replace (pre +:+ String "/" b) with ((pre +:+ "/") +:+ b)
    by now rewrite append_assoc.
  apply drop_append.
Qed.

Lemma last_plain (bs : list string) :
  List.Forall (fun c => plain c = true) bs -> bs <> [] ->
  plain (List.last bs "") = true.
Proof.
  intros Hbs Hne. destruct (exists_last Hne) as (l & b & ->).
  rewrite List.last_last. apply List.Forall_app in Hbs as [_ Hb].
  now apply List.Forall_cons_iff in Hb as [Hb _].
Qed.

Lemma inside_append (out x y : string) :
  inside out (x +:+ y) = inside out x +:+ y.
Proof.
  unfold inside. destruct (_ || _); now rewrite !append_assoc.
Qed.

Lemma inside_join2 (out x : string) :
  Str.startswith x "/" = false -> Posixpath.join2 out x = inside out x.
Proof. intros H. unfold Posixpath.join2, inside. now rewrite H. Qed.

Lemma inside_plain_dir (pre : string) (a : ascii) (x : string) :
  a <> "/"%char ->
  inside (pre +:+ String a "") x = (pre +:+ String a "") +:+ "/" +:+ x.
Proof.
  intros Ha. unfold inside.
  destruct (ends_plain_facts pre a Ha) as [-> ->]. reflexivity.
Qed.

Lemma inside_slash_dir (d x : string) :
  inside (d +:+ "/") x = d +:+ "/" +:+ x.
Proof.
  unfold inside.
  replace (Str.endswith (d +:+ "/") "/") with true
    by (symmetry; apply endswith_suffix; now exists d).
  rewrite orb_true_r. apply append_assoc.
Qed.

Lemma inside_ends_plain (out pre : string) (a : ascii) :
  exists pre', inside out (pre +:+ String a "") = pre' +:+ String a "".
Proof.
  unfold inside. destruct (_ || _).
  - exists (out +:+ pre). now rewrite append_assoc.
  - exists (out +:+ "/" +:+ pre). now rewrite !append_assoc.
Qed.

Lemma inside_head (out x : string) (o : ascii) (out' : string) :
  out = String o out' -> exists r, inside out x = String o r.
Proof.
  intros ->. unfold inside. destruct (_ || _); rewrite append_cons; eauto.
Qed.

Lemma startswith_char_cons (c d : ascii) (s : string) :
  Str.startswith (String d s) (String c "") = Ascii.eqb c d.
Proof. cbn [Str.startswith]. destruct s; apply andb_true_r. Qed.

Lemma not_repeat (pre : string) (a : ascii) (t : string) (n : nat) :
  a <> "/"%char -> pre +:+ String a t <> Str.repeat "/" n.
Proof.
  intros Ha. revert n. induction pre as [|c pre IH]; intros [|n] H;
    try discriminate H.
  - injection H as -> _. congruence.
  - rewrite append_cons in H. injection H as _ H. exact (IH _ H).
Qed.

(** lines 126-134 on the path of the start URL *)
Lemma dirname_rooted (bs : list string) (file : string) :
  List.Forall (fun c => plain c = true) bs ->
  Str.contains "/" file = false ->
  Posixpath.dirname (rooted (bs ++ [file]))
  = match bs with [] => "/" | _ :: _ => rooted bs end.
Proof.
  intros Hbs Hfile. unfold Posixpath.dirname.
  assert (E : rooted (bs ++ [file])
              = match bs with [] => "" | _ :: _ => rooted bs end
                +:+ String "/" file).
  { unfold rooted. destruct bs as [|b bs]; [reflexivity|].
    rewrite join_snoc by discriminate. now rewrite !append_assoc. }
  rewrite E, after_last_slash by exact Hfile.
  match goal with |- context [?pre +:+ String "/" file] =>
    replace (pre +:+ String "/" file) with ((pre +:+ "/") +:+ file)
      by now rewrite append_assoc
  end.
  rewrite take_append. destruct bs as [|b bs]; [reflexivity|].
  destruct (join_ends_plain (b :: bs) Hbs) as (q & a & Eq & Ha);
    [discriminate|].
  assert (Er : rooted (b :: bs) = ("/" +:+ q) +:+ String a "")
    by (unfold rooted; now rewrite Eq, append_assoc).
  rewrite Er, rstrip_trailing_slash by exact Ha.
  replace (Str.is_empty _) with false by now rewrite !append_cons.
  match goal with |- context [String.eqb ?x ?y] =>
    replace (String.eqb x y) with false; [reflexivity|]
  end.
  symmetry. apply String.eqb_neq.
  rewrite (append_assoc ("/" +:+ q) (String a "") "/").
  rewrite (append_cons a "" "/"). now apply not_repeat.
Qed.

Lemma directory_rooted (b : string) (bs : list string) :
  directory (b :: bs) = rooted (b :: bs) +:+ "/".
Proof.
  unfold directory, rooted. rewrite join_snoc by discriminate.
  now rewrite append_empty_r, append_assoc.
Qed.

(** lines 272-290 for a link below the base *)
Lemma output_path_plain (out : string) (bs ds : list string)
    (name stem : string) :
  List.Forall (fun c => plain c = true) bs ->
  List.Forall (fun c => plain c = true) ds ->
  Str.contains "/" name = false ->
  out <> "" -> Str.startswith out "." = false ->
  stem <> "" -> Str.startswith stem "/" = false ->
  WebProcessor.md_path
    (WebProcessor.file_output_dir out (List.last bs "")
       (Str.join "/" (ds ++ [name]))) stem
  = mirrored out bs ds stem.
Proof.
  intros Hbs Hds Hname Hout Hdot Hstem Hslash.
  unfold WebProcessor.file_output_dir. rewrite dirname_join by assumption.
  pose proof (join_first_not_slash ds [] Hds (List.Forall_nil _)) as Hsub.
  rewrite List.app_nil_r in Hsub. specialize (Hsub (Nat.le_0_l _)).
  assert (Hhead : forall x, exists o r,
            inside out x = String o r /\ Ascii.eqb "." o = false).
  { intros x. destruct out as [|o out'] eqn:Eo; [congruence|].
    destruct (inside_head (String o out') x o out' eq_refl) as [r Hr].
    exists o, r. split; [exact Hr|].
    now rewrite startswith_char_cons in Hdot. }
  assert (Hkeep : forall o r, Ascii.eqb "." o = false ->
            (if Str.startswith (String o r) "./"
                || Str.startswith (String o r) ".\"
             then Str.drop 2 (String o r) else String o r) = String o r).
  { intros o r Ho. cbn [Str.startswith]. now rewrite Ho. }
  unfold mirrored. rewrite md_path_inside by assumption.
  set (F := stem +:+ ".md").
  destruct bs as [|b0 l0].
  - change (List.last [] "") with "". cbn [Str.is_empty negb root_dirs app].
    unfold Posixpath.join. cbn [fold_left].
    rewrite inside_join2 by exact Hsub.
    destruct (Hhead (Str.join "/" ds)) as (o & r & Er & Ho).
    rewrite Er, (Hkeep o r Ho), <- Er.
    destruct ds as [|d ds].
    + change (Str.join "/" []) with "". change (Str.join "/" [F]) with F.
      unfold inside at 2. destruct (_ || _) eqn:Ec.
      * rewrite append_empty_r. unfold inside. now rewrite Ec.
      * rewrite append_empty_r, inside_slash_dir. unfold inside.
        now rewrite Ec.
    + destruct (join_ends_plain (d :: ds) Hds) as (q & a & Eq & Ha);
        [discriminate|].
      rewrite join_snoc by discriminate. rewrite inside_append.
      rewrite Eq. destruct (inside_ends_plain out q a) as [pre' ->].
      now apply inside_plain_dir.
  - assert (Hroot : plain (List.last (b0 :: l0) "") = true)
      by now apply last_plain.
    set (root := List.last (b0 :: l0) "") in *.
    destruct (plain_facts root Hroot)
      as (_ & Hne & _ & _ & Hrs & (q & z & Eq & Hz)).
    replace (Str.is_empty root) with false by now destruct root.
    cbn [negb root_dirs app]. fold root.
    unfold Posixpath.join. cbn [fold_left].
    rewrite (inside_join2 out root Hrs).
    destruct (inside_ends_plain out q z) as [X EX]. rewrite <- Eq in EX.
    assert (Edir : Posixpath.join2 (inside out root) (Str.join "/" ds)
                   = inside out root +:+ "/" +:+ Str.join "/" ds).
    { unfold Posixpath.join2. rewrite Hsub, EX.
      now destruct (ends_plain_facts X z Hz) as [-> ->]. }
    rewrite Edir.
    destruct (Hhead root) as (o & r & Er & Ho).
    assert (Ekeep : forall t,
              (if Str.startswith (inside out root +:+ t) "./"
                  || Str.startswith (inside out root +:+ t) ".\"
               then Str.drop 2 (inside out root +:+ t)
               else inside out root +:+ t) = inside out root +:+ t).
    { intros t. rewrite Er, append_cons. now apply Hkeep. }
    rewrite Ekeep.
    destruct ds as [|d ds].
    + change (Str.join "/" []) with "". rewrite append_empty_r.
      rewrite inside_slash_dir.
      change (Str.join "/" (root :: [] ++ [F])) with (root +:+ "/" +:+ F).
      now rewrite inside_append.
    + destruct (join_ends_plain (d :: ds) Hds) as (p & a & Ep & Ha);
        [discriminate|].
      change (root :: (d :: ds) ++ [F]) with (root :: d :: ds ++ [F]).
      rewrite join_cons2.
      change (d :: ds ++ [F]) with ((d :: ds) ++ [F]).
      rewrite join_snoc by discriminate. rewrite inside_append.
      rewrite Ep.
      replace (inside out root +:+ "/" +:+ p +:+ String a "")
        with ((inside out root +:+ "/" +:+ p) +:+ String a "")
        by now rewrite !append_assoc.
      rewrite inside_plain_dir by exact Ha. now rewrite !append_assoc.
Qed.

Lemma output_root_plain (bs : list string) :
  List.Forall (fun c => plain c = true) bs ->
  WebProcessor.output_root_name (directory bs) = List.last bs "".
Proof.
  intros Hbs. unfold WebProcessor.output_root_name, directory.
  rewrite (normpath_rooted bs [""] Hbs) by (repeat constructor).
  apply basename_rooted. now apply plain_noslash.
Qed.

Lemma md_path_mirrored (out : string) (bs ds : list string)
    (name filename_base : string) :
  List.Forall (fun c => plain c = true) bs ->
  List.Forall (fun c => plain c = true) ds ->
  plain name = true ->
  out <> "" -> Str.startswith out "." = false ->
  WebProcessor.md_path
    (WebProcessor.file_output_dir out (List.last bs "")
       (Str.join "/" (ds ++ [name])))
    (WebProcessor.sanitize filename_base)
  = mirrored out bs ds (WebProcessor.sanitize filename_base).
Proof.
  intros Hbs Hds Hname Hout Hdot.
  destruct (sanitize_stem filename_base) as (Hne & _ & Hstart).
  apply output_path_plain; try assumption. now apply plain_facts in Hname.
Qed.

Lemma unique_name_mirrored (fs : gmap string Codec.text) (out : string)
    (bs ds : list string) (name filename_base : string) :
  List.Forall (fun c => plain c = true) bs ->
  List.Forall (fun c => plain c = true) ds ->
  plain name = true ->
  out <> "" -> Str.startswith out "." = false ->
  fs !! mirrored out bs ds (WebProcessor.sanitize filename_base) = None ->
  WebProcessor.unique_name fs
    (WebProcessor.file_output_dir out (List.last bs "")
       (Str.join "/" (ds ++ [name])))
    (WebProcessor.sanitize filename_base)
  = Some (mirrored out bs ds (WebProcessor.sanitize filename_base)).
Proof.
  intros Hbs Hds Hname Hout Hdot Hfree.
  pose proof (md_path_mirrored out bs ds name filename_base Hbs Hds Hname
                Hout Hdot) as Hpath.
  destruct (unique_name_first_free fs
              (WebProcessor.file_output_dir out (List.last bs "")
                 (Str.join "/" (ds ++ [name])))
              (WebProcessor.sanitize filename_base))
    as (k & Hk & _ & Hbelow).
  destruct k as [|k].
  - cbn [candidate] in Hk. now rewrite Hk, Hpath.
  - destruct (Hbelow 0 (Nat.lt_0_succ _)) as [c Hc].
    cbn [candidate] in Hc. rewrite Hpath in Hc. congruence.
Qed.

Section Mirror.

Variable check_bracketed_netloc : string -> bool.
Variable nfkc_netloc_ok : string -> bool.
Variable other_codecs : string -> option Codec.codec.
Variable cwd : string.
Variable BeautifulSoup : Codec.text -> WebProcessor.Soup.
Variable decompose_all : list string -> WebProcessor.Soup -> WebProcessor.Soup.
Variable html2text : Codec.text -> Codec.text.
Variable can_write : string -> bool.

(** X13. The output mirrors the URL paths (lines 126-138 and 258-301).  For
    a start URL whose path is [/b1/../bk/file] and a link whose path is
    [/b1/../bk/d1/../dj/name], all components being plain (not empty, no
    dot segment), and an output directory that is not empty and does not
    start with a dot: the base path is [/b1/../bk/], the output root is
    [bk], the relative path of the link is [d1/../dj/name], and its page is
    saved as [<output_dir>/bk/d1/../dj/<stem>.md] when no such file
    exists. *)
Theorem plain_link_mirrors_its_path (out : string) (bs ds : list string)
    (name filename_base : string) (fs : gmap string Codec.text) :
  List.Forall (fun c => plain c = true) bs ->
  List.Forall (fun c => plain c = true) ds ->
  plain name = true ->
  out <> "" -> Str.startswith out "." = false ->
  (forall start_url parsed file,
      WebProcessor.urlparse check_bracketed_netloc nfkc_netloc_ok start_url
      = Ok parsed ->
      Urllib.path parsed = rooted (bs ++ [file]) ->
      Str.contains "/" file = false ->
      WebProcessor.base_path_for_relative check_bracketed_netloc
        nfkc_netloc_ok start_url = Ok (directory bs))
  /\ WebProcessor.output_root_name (directory bs) = List.last bs ""
  /\ WebProcessor.relative_link_path cwd (rooted (bs ++ ds ++ [name]))
       (directory bs) = Ok (Str.join "/" (ds ++ [name]))
  /\ WebProcessor.md_path
       (WebProcessor.file_output_dir out (List.last bs "")
          (Str.join "/" (ds ++ [name])))
       (WebProcessor.sanitize filename_base)
     = mirrored out bs ds (WebProcessor.sanitize filename_base)
  /\ (fs !! mirrored out bs ds (WebProcessor.sanitize filename_base) = None ->
      WebProcessor.unique_name fs
        (WebProcessor.file_output_dir out (List.last bs "")
           (Str.join "/" (ds ++ [name])))
        (WebProcessor.sanitize filename_base)
      = Some (mirrored out bs ds (WebProcessor.sanitize filename_base))).
Proof.
  intros Hbs Hds Hname Hout Hdot.
  split.
  { intros start_url parsed file Hparse Hp Hfile.
    unfold WebProcessor.base_path_for_relative. rewrite Hparse.
    cbn [rbind]. rewrite Hp, dirname_rooted by assumption.
    destruct bs as [|b l]; [reflexivity|].
    destruct (join_ends_plain (b :: l) Hbs) as (q & a & Eq & Ha);
      [discriminate|].
    assert (Er : rooted (b :: l) = ("/" +:+ q) +:+ String a "")
      by (unfold rooted; now rewrite Eq, append_assoc).
    rewrite directory_rooted, Er.
    now destruct (ends_plain_facts ("/" +:+ q) a Ha) as [-> ->]. }
  split; [now apply output_root_plain|].
  split.
  { unfold WebProcessor.relative_link_path. apply relpath_plain.
    - exact Hbs.
    - apply List.Forall_app. split; [exact Hds | now constructor].
    - now destruct ds. }
  split; [now apply md_path_mirrored|].
  now apply unique_name_mirrored.
Qed.

(** X14. One iteration of the processing loop for a link below the base
    (lines 142-309): when the page is fetched and has a main content, the
    path of the link is [/b1/../bk/d1/../dj/name] with plain components, the
    base is [/b1/../bk/], and no file of the target name exists and it can
    be written, then the Markdown of the main content is stored as
    [<output_dir>/bk/d1/../dj/<stem>.md], where the stem is the sanitized
    text of the anchor or, when the anchor has no text, the sanitized last
    component of the path with its dots replaced; no other file changes. *)
Theorem plain_link_is_saved_under_its_path (a : WebProcessor.Args)
    (bs ds : list string) (name : string) (tag : WebProcessor.Tag)
    (url : string) (net : list WebProcessor.Attempt) (w : WebProcessor.World)
    (uwf : string) (html : Codec.text) (net1 : list WebProcessor.Attempt)
    (w1 : WebProcessor.World) (el : WebProcessor.Element)
    (w2 : WebProcessor.World) (parsed : Urllib.ParseResult) :
  List.Forall (fun c => plain c = true) bs ->
  List.Forall (fun c => plain c = true) ds ->
  plain name = true ->
  WebProcessor.output_dir a <> "" ->
  Str.startswith (WebProcessor.output_dir a) "." = false ->
  WebProcessor.url_without_fragment check_bracketed_netloc nfkc_netloc_ok url
  = Ok uwf ->
  WebProcessor.fetch other_codecs WebProcessor.LinkedPage url a net
    (WebProcessor.emit
       (WebProcessor.Log WebProcessor.INFO (WebProcessor.FetchingLinkedPage url))
       w)
  = Some (Ok (Some html), net1, w1) ->
  WebProcessor.main_content (WebProcessor.main_content_selector a) uwf
    (decompose_all WebProcessor.irrelevant_selectors (BeautifulSoup html)) w1
  = (Some el, w2) ->
  WebProcessor.urlparse check_bracketed_netloc nfkc_netloc_ok uwf
  = Ok parsed ->
  Urllib.path parsed = rooted (bs ++ ds ++ [name]) ->
  WebProcessor.files w
    !! mirrored (WebProcessor.output_dir a) bs ds (link_stem tag name) = None ->
  can_write (mirrored (WebProcessor.output_dir a) bs ds (link_stem tag name))
  = true ->
  exists w',
    WebProcessor.process_link check_bracketed_netloc nfkc_netloc_ok
      other_codecs cwd BeautifulSoup decompose_all html2text can_write a
      (directory bs) (WebProcessor.output_root_name (directory bs)) tag url
      net w
    = Some (Ok tt, net1, w')
    /\ WebProcessor.files w'
       = <[mirrored (WebProcessor.output_dir a) bs ds (link_stem tag name)
           := html2text (WebProcessor.str_html el)]> (WebProcessor.files w)
    /\ In (WebProcessor.Write
             (mirrored (WebProcessor.output_dir a) bs ds (link_stem tag name)))
          (WebProcessor.trace w').
Proof.
  intros Hbs Hds Hname Hout Hdot Hu Hf Hm Hparse Hpath Hfree Hw.
  assert (Hfiles : WebProcessor.files w2 = WebProcessor.files w).
  { apply (retry_loop_inner other_codecs) in Hf as [Hf1 _].
    apply (main_content_inner url) in Hm as [Hf2 _].
    cbn [WebProcessor.emit WebProcessor.files] in Hf1. congruence. }
  assert (Hfb : WebProcessor.filename_base check_bracketed_netloc
                  nfkc_netloc_ok tag uwf
                = Ok (if negb (Str.is_empty (WebProcessor.link_text tag))
                      then WebProcessor.link_text tag
                      else Str.replace_char "." "_" name)).
  { unfold WebProcessor.filename_base.
    destruct (negb (Str.is_empty (WebProcessor.link_text tag)));
      [reflexivity|].
    rewrite Hparse. cbn [rbind]. rewrite Hpath, List.app_assoc.
    rewrite basename_rooted, List.last_last; [reflexivity|].
    apply plain_noslash. apply List.Forall_app.
    split; [now apply List.Forall_app | now constructor]. }
  assert (Hrel : WebProcessor.relative_link_path cwd (Urllib.path parsed)
                   (directory bs) = Ok (Str.join "/" (ds ++ [name]))).
  { rewrite Hpath. unfold WebProcessor.relative_link_path.
    apply relpath_plain; [exact Hbs | | now destruct ds].
    apply List.Forall_app. split; [exact Hds | now constructor]. }
  unfold WebProcessor.process_link.
  rewrite Hu, Hf, Hm, Hfb, Hparse, Hrel, (output_root_plain bs Hbs).
  cbn [WebProcessor.emit WebProcessor.files]. rewrite Hfiles.
  unfold link_stem in *.
  rewrite (unique_name_mirrored _ _ bs ds name _ Hbs Hds Hname Hout Hdot
             Hfree), Hw.
  eexists. split; [reflexivity|].
  cbn [WebProcessor.emit WebProcessor.store WebProcessor.files
       WebProcessor.trace].
  split; [now rewrite Hfiles|].
  apply List.in_or_app. left. apply List.in_or_app. right. now left.
Qed.

End Mirror.

Lemma plain_link_mirrors_its_path_witness :
  WebProcessor.relative_link_path "/" "/docs/guide/intro.html" "/docs/"
  = Ok "guide/intro.html"
  /\ WebProcessor.unique_name ∅
       (WebProcessor.file_output_dir "output_markdowns" "docs"
          "guide/intro.html") "intro"
     = Some "output_markdowns/docs/guide/intro.md".
Proof.
  destruct (plain_link_mirrors_its_path WebProcessor.always
              WebProcessor.always "/" "output_markdowns" ["docs"] ["guide"]
              "intro.html" "Intro" ∅)
    as (_ & _ & Hrel & _ & Hsave);
    [repeat constructor | repeat constructor | reflexivity | discriminate
    | reflexivity |].
  split; [exact Hrel|]. apply Hsave. reflexivity.
Defined.

Lemma plain_link_is_saved_under_its_path_witness :
  exists w',
    WebProcessor.process_link WebProcessor.always WebProcessor.always
      WebProcessor.no_codecs "/" (toy_soup []) (fun _ soup => soup)
      (fun html => html) WebProcessor.always
      (sample_args scenario_A_start_url) "/docs/" "docs"
      (WebProcessor.mkTag "/docs/guide/b.html" "") 
      "https://ex.com/docs/guide/b.html"
      [WebProcessor.Success 1 (page Byte.x62)] WebProcessor.empty_world
    = Some (Ok tt, [], w')
    /\ WebProcessor.files w'
       = <[ "output_markdowns/docs/guide/b_html.md" := [98%N] ]> ∅
    /\ In (WebProcessor.Write "output_markdowns/docs/guide/b_html.md")
          (WebProcessor.trace w').
Proof.
  edestruct (plain_link_is_saved_under_its_path WebProcessor.always
               WebProcessor.always WebProcessor.no_codecs "/" (toy_soup [])
               (fun _ soup => soup) (fun html => html) WebProcessor.always
               (sample_args scenario_A_start_url) ["docs"] ["guide"] "b.html"
               (WebProcessor.mkTag "/docs/guide/b.html" "")
               "https://ex.com/docs/guide/b.html"
               [WebProcessor.Success 1 (page Byte.x62)]
               WebProcessor.empty_world)
    as (w' & Hrun & Hfiles & Hwrite).
  - repeat constructor.
  - repeat constructor.
  - reflexivity.
  - discriminate.
  - reflexivity.
  - vm_compute. reflexivity.
  - vm_compute. reflexivity.
  - vm_compute. reflexivity.
  - vm_compute. reflexivity.
  - vm_compute. reflexivity.
  - vm_compute. reflexivity.
  - reflexivity.
  - exists w'. split; [exact Hrun|]. split; [exact Hfiles | exact Hwrite].
Defined.

(** ** The retrying fetch returns *)

Section Returns.

Variable other_codecs : string -> option Codec.codec.

Lemma retry_loop_returns page url timeout budget start delta net w :
  (0 < delta)%Q ->
  List.Forall (paced delta) net ->
  (budget < WebProcessor.now w - start + Qnat (List.length net) * delta)%Q ->
  exists res net' w',
    WebProcessor.retry_loop other_codecs page url timeout budget start net w
    = Some (res, net', w').
Proof.
  intros Hd. revert w. induction net as [|a net IH]; intros w Hin Hlong.
  - change (Qnat (List.length [])) with 0%Q in Hlong.
    rewrite retry_loop_gives_up by lra. eauto.
  - destruct (Qlt_le_dec budget (WebProcessor.now w - start)) as [Hover|Hle].
    + rewrite retry_loop_gives_up by exact Hover. eauto.
    + rewrite retry_loop_attempts by exact Hle.
      apply List.Forall_cons_iff in Hin as [Ha Hin].
      destruct a as [took r|took slept|took]; cbn [paced] in Ha;
        [eauto | | eauto].
      apply IH; [exact Hin|].
      cbn [WebProcessor.advance WebProcessor.emit WebProcessor.now].
      cbn [List.length] in Hlong. rewrite Qnat_succ in Hlong. lra.
Qed.

(** X15. The retry loop ends: when every failed request takes no negative
    time and is followed by a sleep of at least [delta > 0] seconds, a
    fetch returns (a page, a decoding error, or nothing after giving up)
    without needing more than [max_retry_duration / delta + 1] request
    outcomes. *)
Theorem fetch_returns page url (a : WebProcessor.Args) delta net w :
  (0 < delta)%Q ->
  List.Forall (paced delta) net ->
  (WebProcessor.max_retry_duration a < Qnat (List.length net) * delta)%Q ->
  exists res net' w',
    WebProcessor.fetch other_codecs page url a net w = Some (res, net', w').
Proof.
  intros Hd Hin Hlong. unfold WebProcessor.fetch.
  apply (retry_loop_returns _ _ _ _ _ delta); [exact Hd | exact Hin | lra].
Qed.

End Returns.

Lemma fetch_returns_witness :
  exists res net' w',
    WebProcessor.fetch WebProcessor.no_codecs WebProcessor.LinkedPage
      "https://ex.com/docs/a.html" (sample_args scenario_A_start_url)
      [WebProcessor.Failure 1 4; WebProcessor.Failure 1 4;
       WebProcessor.Failure 1 4; WebProcessor.Failure 1 4]
      WebProcessor.empty_world
    = Some (res, net', w').
Proof.
  apply (fetch_returns WebProcessor.no_codecs WebProcessor.LinkedPage
           "https://ex.com/docs/a.html" (sample_args scenario_A_start_url)
           4%Q).
  - vm_compute. reflexivity.
  - repeat constructor; vm_compute; discriminate.
  - vm_compute. reflexivity.
Defined.
